(** * The Coq documentation domain: object registry and cross-references

    A shallow embedding of [doc/tools/coqrst/coqdomain.py], the Sphinx domain
    used by the reference manual.  The development follows the Python source
    function by function:

    - Python [str] values are [string]s; characters are modelled as code
      points below 256, and [str.lower], [str.strip], [str.split] follow
      Python on that range;
    - [dict]s are [gmap]s; a [for] loop over [d.items()] is a left fold over
      [map_to_list d] (the iteration order of a dictionary is left abstract);
    - methods that mutate the build environment are computations in a small
      state-and-exception monad [M]; an exception keeps the mutations made
      before it was raised, as in Python;
    - functions of docutils, Sphinx and the notation parser are parameters of
      the section that uses them. *)

From stdpp Require Import gmap strings list fin_maps sorting pretty.
From Stdlib Require Import Ascii.

Set Default Proof Using "Type".

(** ** Python strings *)

Module Py.

(** [s.endswith(suf)]: some tail of [s] is [suf]. *)
Fixpoint endswith (s suf : string) : bool :=
  if decide (s = suf) then true
  else match s with
       | EmptyString => false
       | String _ s' => endswith s' suf
       end.

(** [s.startswith(pre)] *)
Fixpoint startswith (s pre : string) : bool :=
  match pre, s with
  | EmptyString, _ => true
  | String _ _, EmptyString => false
  | String a pre', String b s' =>
      if decide (a = b) then startswith s' pre' else false
  end.

(** [s[:-1]] *)
Fixpoint drop_last (s : string) : string :=
  match s with
  | EmptyString => EmptyString
  | String c s' =>
      match s' with
      | EmptyString => EmptyString
      | String _ _ => String c (drop_last s')
      end
  end.

(** [c in s] for a one-character [c]. *)
Fixpoint contains (c : ascii) (s : string) : bool :=
  match s with
  | EmptyString => false
  | String a s' => if decide (a = c) then true else contains c s'
  end.

Definition in_range (lo hi n : nat) : bool := (lo <=? n) && (n <=? hi).

(** [str.lower] on one code point below 256: the ASCII capitals and the
    Latin-1 capitals (U+00C0 to U+00DE, the multiplication sign U+00D7
    apart) move up by 32. *)
Definition lower_char (c : ascii) : ascii :=
  let n := nat_of_ascii c in
  if in_range 65 90 n || (in_range 192 222 n && negb (n =? 215))
  then ascii_of_nat (n + 32) else c.

(** [s.lower()] *)
Fixpoint lower (s : string) : string :=
  match s with
  | EmptyString => EmptyString
  | String c s' => String (lower_char c) (lower s')
  end.

(** [c.isspace()] on code points below 256. *)
Definition isspace (c : ascii) : bool :=
  let n := nat_of_ascii c in
  in_range 9 13 n || in_range 28 32 n || (n =? 133) || (n =? 160).

Fixpoint lstrip (s : string) : string :=
  match s with
  | EmptyString => EmptyString
  | String c s' => if isspace c then lstrip s' else s
  end.

Fixpoint rstrip (s : string) : string :=
  match s with
  | EmptyString => EmptyString
  | String c s' =>
      let r := rstrip s' in
      if isspace c && bool_decide (r = EmptyString) then EmptyString
      else String c r
  end.

(** [s.strip()] *)
Definition strip (s : string) : string := rstrip (lstrip s).

(** [s.split(sep)] for a one-character separator: never empty, and
    adjacent separators delimit empty strings. *)
Fixpoint split (sep : ascii) (s : string) : list string :=
  match s with
  | EmptyString => [EmptyString]
  | String c s' =>
      if decide (c = sep) then EmptyString :: split sep s'
      else match split sep s' with
           | w :: ws => String c w :: ws
           | [] => [String c EmptyString]
           end
  end.

(** The longest prefix of [s] without white space, and the rest. *)
Fixpoint span_word (s : string) : string * string :=
  match s with
  | EmptyString => (EmptyString, EmptyString)
  | String c s' =>
      if isspace c then (EmptyString, s)
      else let '(w, rest) := span_word s' in (String c w, rest)
  end.

(** [s.split(maxsplit=n)]: words separated by runs of white space; after
    [n] words the remainder (leading white space skipped, trailing white
    space kept) is the last element. *)
Fixpoint split_ws (maxsplit : nat) (s : string) : list string :=
  let s1 := lstrip s in
  match s1 with
  | EmptyString => []
  | String _ _ =>
      match maxsplit with
      | 0 => [s1]
      | S m => let '(w, rest) := span_word s1 in w :: split_ws m rest
      end
  end.

(** A match of the regular expression [[a-zA-Z ]+] at the start of [s]:
    the longest prefix of ASCII letters and spaces, if it is not empty. *)
Definition is_alpha_or_space (c : ascii) : bool :=
  let n := nat_of_ascii c in
  in_range 65 90 n || in_range 97 122 n || (n =? 32).

Fixpoint take_while (p : ascii → bool) (s : string) : string :=
  match s with
  | EmptyString => EmptyString
  | String c s' => if p c then String c (take_while p s') else EmptyString
  end.

Definition re_match_alpha_space (s : string) : option string :=
  match take_while is_alpha_or_space s with
  | EmptyString => None
  | m => Some m
  end.

(** Truth value of a string: [if name:] *)
Definition truthy (s : string) : bool :=
  match s with EmptyString => false | _ => true end.

End Py.


(** ** Exceptions and the environment monad *)

Inductive exn : Type :=
| ValueError
| KeyError (key : string)
| IndexError
| NotImplementedError
| ExtensionError (msg : string)
| DirectiveError (msg : string).

Inductive res (A : Type) : Type :=
| Ok (a : A)
| Raise (e : exn).
Arguments Ok {A} a.
Arguments Raise {A} e.

Definition res_bind {A B} (r : res A) (k : A → res B) : res B :=
  match r with
  | Ok a => k a
  | Raise e => Raise e
  end.

Notation "x <- r ;; k" := (res_bind r (λ x, k))
  (at level 100, r at next level, k at level 200, right associativity,
   format "'[v' x  <-  r  ;;  '/' k ']'").

(** Outcome of the external notation parser: a value, or [ParseError(msg)]. *)
Inductive parsed (A : Type) : Type :=
| Parsed (a : A)
| ParseError (msg : string).
Arguments Parsed {A} a.
Arguments ParseError {A} msg.

(** The collaborators this module imports: [docutils.nodes.make_id],
    [env.doc2path], [notations.plain.stringify_with_ellipses] and
    [notations.sphinx.sphinxify] (of which only success or failure is
    observed here). *)
Record Host : Type := {
  make_id : string → string;
  doc2path : string → string;
  stringify_with_ellipses : string → parsed string;
  sphinxify : string → parsed unit;
}.

(** A name returned by [handle_signature]: a string, or for grammar
    productions the pair [('token', lhs)]. *)
Inductive pyname : Type :=
| PyStr (s : string)
| PyPair (a b : string).

(** Messages sent to the warning channel.
    [DuplicateObject name path] is the reporter warning
    ['Duplicate object: {}; other is at {}'];
    [DuplicateDeclaration docname name other] is [env.warn(docname,
    "Duplicate declaration: '{}' also defined in '{}'.\n")]. *)
Inductive warning : Type :=
| DuplicateObject (name : pyname) (other_path : string)
| DuplicateDeclaration (docname name other : string).

(** A registered object: [(docname, objtype, targetid)]. *)
Abbreviation obj := (string * string * string)%type.

Definition obj_docname (o : obj) : string := o.1.1.
Definition obj_objtype (o : obj) : string := o.1.2.
Definition obj_targetid (o : obj) : string := o.2.

(** An entry of [indexnode['entries']]:
    [('single', index_text, target, '', None)]. *)
Abbreviation index_entry := (string * string * string * string * option string)%type.

(** What the methods below read and mutate:
    [env.domaindata['coq']['objects']] (subdomain → name → object),
    [env.domaindata['std']['objects']] ((kind, name) → (docname, id)),
    [env.docname], [state.document.ids], the warning channel and
    [indexnode['entries']]. *)
Record state : Type := State {
  objects : gmap string (gmap string obj);
  std_objects : gmap (string * string) (string * string);
  docname : string;
  document_ids : gset string;
  warnings : list warning;
  index_entries : list index_entry;
}.

Definition set_objects (f : gmap string (gmap string obj) → gmap string (gmap string obj))
    (st : state) : state :=
  State (f (objects st)) (std_objects st) (docname st) (document_ids st)
        (warnings st) (index_entries st).

Definition set_std_objects
    (f : gmap (string * string) (string * string) → gmap (string * string) (string * string))
    (st : state) : state :=
  State (objects st) (f (std_objects st)) (docname st) (document_ids st)
        (warnings st) (index_entries st).

Definition set_document_ids (f : gset string → gset string) (st : state) : state :=
  State (objects st) (std_objects st) (docname st) (f (document_ids st))
        (warnings st) (index_entries st).

Definition set_warnings (f : list warning → list warning) (st : state) : state :=
  State (objects st) (std_objects st) (docname st) (document_ids st)
        (f (warnings st)) (index_entries st).

Definition set_index_entries (f : list index_entry → list index_entry)
    (st : state) : state :=
  State (objects st) (std_objects st) (docname st) (document_ids st)
        (warnings st) (f (index_entries st)).

Definition M (A : Type) : Type := state → res A * state.

Definition ret {A} (a : A) : M A := λ st, (Ok a, st).

Definition bind {A B} (m : M A) (k : A → M B) : M B := λ st,
  match m st with
  | (Ok a, st') => k a st'
  | (Raise e, st') => (Raise e, st')
  end.

Definition raise {A} (e : exn) : M A := λ st, (Raise e, st).

Definition gets {A} (f : state → A) : M A := λ st, (Ok (f st), st).

Definition modify (f : state → state) : M unit := λ st, (Ok tt, f st).

Definition lift {A} (r : res A) : M A := λ st, (r, st).

Notation "x <~ m ;; k" := (bind m (λ x, k))
  (at level 100, m at next level, k at level 200, right associativity,
   format "'[v' x  <~  m  ;;  '/' k ']'").
Notation "m ;;; k" := (bind m (λ _, k))
  (at level 100, k at level 200, right associativity,
   format "'[v' m  ;;;  '/' k ']'").

(** [for x in l: body(x)]; an exception ends the loop. *)
Fixpoint for_ {A} (l : list A) (body : A → M unit) : M unit :=
  match l with
  | [] => ret tt
  | x :: l' => body x ;;; for_ l' body
  end.

(** [self.state_machine.reporter.warning(...)], [self.env.warn(...)] *)
Definition warn (w : warning) : M unit :=
  modify (set_warnings (λ ws, ws ++ [w])).

(** ** Notations and targets *)

Definition nl : string := String (ascii_of_nat 10) EmptyString.

(** [PARSE_ERROR.format(notation, msg)] *)
Definition PARSE_ERROR (notation msg : string) : string :=
  "Parse error in notation!" +:+ nl +:+
  "Offending notation: " +:+ notation +:+ nl +:+
  "Error message: " +:+ msg.

(** [make_target(objtype, targetid)] *)
Definition make_target (objtype targetid : string) : string :=
  "coq:" +:+ objtype +:+ "." +:+ targetid.

Section Domain.
Context (host : Host).

(** [notation_to_sphinx(notation, source, line)]: the inline node is not
    kept, only the parse error. *)
Definition notation_to_sphinx (notation : string) : res unit :=
  match sphinxify host notation with
  | Parsed _ => Ok tt
  | ParseError msg => Raise (ExtensionError (PARSE_ERROR notation msg))
  end.

(** [notation_to_string(notation)] *)
Definition notation_to_string (notation : string) : res string :=
  match stringify_with_ellipses host notation with
  | Parsed s => Ok s
  | ParseError msg => Raise (ExtensionError (PARSE_ERROR notation msg))
  end.

(** ** Object classes

    The class attributes and the two methods subclasses of [CoqObject]
    override. *)
Record CoqObjectClass : Type := {
  subdomain : option string;
  index_suffix : option string;
  annotation : option string;
  name_from_signature : string → res (option string);
  render_signature : string → res unit;
}.

(** [PlainObject._render_signature] builds a node from the text as it is. *)
Definition plain_render (signature : string) : res unit := Ok tt.

(** [NotationObject._render_signature] *)
Definition notation_render (signature : string) : res unit :=
  notation_to_sphinx signature.

(** [CoqObject._name_from_signature]: no automatic name. *)
Definition no_name (signature : string) : res (option string) := Ok None.

(** [VernacObject._name_from_signature] *)
Definition vernac_name (signature : string) : res (option string) :=
  match Py.re_match_alpha_space signature with
  | Some m => Ok (Some (Py.strip m))
  | None => Ok None
  end.

(** [_name_from_signature] of options, flags, tables, errors and warnings. *)
Definition notation_name (signature : string) : res (option string) :=
  s <- notation_to_string signature ;; Ok (Some s).

Definition GallinaObject : CoqObjectClass :=
  {| subdomain := Some "thm"; index_suffix := Some "(thm)";
     annotation := Some "Theorem";
     name_from_signature := no_name; render_signature := plain_render |}.

Definition VernacObject : CoqObjectClass :=
  {| subdomain := Some "cmd"; index_suffix := Some "(cmd)";
     annotation := Some "Command";
     name_from_signature := vernac_name; render_signature := notation_render |}.

Definition VernacVariantObject : CoqObjectClass :=
  {| subdomain := Some "cmd"; index_suffix := Some "(cmdv)";
     annotation := Some "Variant";
     name_from_signature := no_name; render_signature := notation_render |}.

Definition TacticNotationObject : CoqObjectClass :=
  {| subdomain := Some "tacn"; index_suffix := Some "(tacn)";
     annotation := None;
     name_from_signature := no_name; render_signature := notation_render |}.

Definition TacticNotationVariantObject : CoqObjectClass :=
  {| subdomain := Some "tacn"; index_suffix := Some "(tacnv)";
     annotation := Some "Variant";
     name_from_signature := no_name; render_signature := notation_render |}.

Definition OptionObject : CoqObjectClass :=
  {| subdomain := Some "opt"; index_suffix := Some "(opt)";
     annotation := Some "Option";
     name_from_signature := notation_name; render_signature := notation_render |}.

Definition FlagObject : CoqObjectClass :=
  {| subdomain := Some "flag"; index_suffix := Some "(flag)";
     annotation := Some "Flag";
     name_from_signature := notation_name; render_signature := notation_render |}.

Definition TableObject : CoqObjectClass :=
  {| subdomain := Some "table"; index_suffix := Some "(table)";
     annotation := Some "Table";
     name_from_signature := notation_name; render_signature := notation_render |}.

Definition ExceptionObject : CoqObjectClass :=
  {| subdomain := Some "exn"; index_suffix := Some "(err)";
     annotation := Some "Error";
     name_from_signature := notation_name; render_signature := notation_render |}.

Definition WarningObject : CoqObjectClass :=
  {| subdomain := Some "warn"; index_suffix := Some "(warn)";
     annotation := Some "Warning";
     name_from_signature := notation_name; render_signature := notation_render |}.

(** [CoqDomain.directives], the grammar production apart (it has its own
    methods below): directive name → class. *)
Definition directives (objtype : string) : option CoqObjectClass :=
  if decide (objtype = "cmd") then Some VernacObject
  else if decide (objtype = "cmdv") then Some VernacVariantObject
  else if decide (objtype = "tacn") then Some TacticNotationObject
  else if decide (objtype = "tacv") then Some TacticNotationVariantObject
  else if decide (objtype = "opt") then Some OptionObject
  else if decide (objtype = "flag") then Some FlagObject
  else if decide (objtype = "table") then Some TableObject
  else if decide (objtype = "thm") then Some GallinaObject
  else if decide (objtype = "exn") then Some ExceptionObject
  else if decide (objtype = "warn") then Some WarningObject
  else None.

(** ** [CoqObject]: names *)

(** [dict(pairs)]: a later pair replaces an earlier one with the same key. *)
Definition dict_of_pairs (pairs : list (string * string)) : gmap string string :=
  foldl (λ d kv, <[kv.1 := kv.2]> d) ∅ pairs.

(** [CoqObject._prepare_names]: returns [self._names].  [sigs] is
    [self.get_signatures()] and [name_option] is [self.options.get("name")]. *)
Definition prepare_names (sigs : list string) (name_option : option string)
    : res (gmap string string) :=
  match name_option with
  | None => Ok ∅
  | Some names =>
      let names := Py.strip <$> Py.split ";" names in
      if decide (length names ≠ length sigs)
      then Raise (DirectiveError
                    ("Expected " +:+ pretty (length names) +:+
                     " semicolon-separated names, got " +:+
                     pretty (length sigs) +:+
                     ".  Please provide one name per signature line."))
      else Ok (dict_of_pairs (zip sigs names))
  end.

(** The trailing period of a command, but not of an ellipsis. *)
Definition has_trailing_period (name : string) : bool :=
  Py.endswith name "." && negb (Py.endswith name "...").

(** [CoqObject.handle_signature]; [names] is [self._names]. *)
Definition handle_signature (cls : CoqObjectClass) (names : gmap string string)
    (signature : string) : res (option string) :=
  _ <- render_signature cls signature ;;
  match names !! signature with
  | Some name => Ok (Some name)
  | None =>
      name <- name_from_signature cls signature ;;
      match name with
      | Some name =>
          if has_trailing_period name then Ok (Some (Py.drop_last name))
          else Ok (Some name)
      | None => Ok None
      end
  end.

(** ** [CoqObject]: registration *)

(** [self._warn_if_duplicate_name(objects, name)]; [origin] reads
    [objects[name][0]]. *)
Definition warn_if_duplicate_name {K V} `{Countable K}
    (show : K → pyname) (origin : V → string)
    (objs : gmap K V) (name : K) : M unit :=
  match objs !! name with
  | Some other => warn (DuplicateObject (show name) (doc2path host (origin other)))
  | None => ret tt
  end.

(** [self.subdomain_data()].  The dictionary returned is shared with
    [objects]: the reference is modelled by its key there. *)
Definition subdomain_data (cls : CoqObjectClass) : M string := λ st,
  match subdomain cls with
  | None => (Raise ValueError, st)
  | Some sd =>
      match objects st !! sd with
      | Some _ => (Ok sd, st)
      | None => (Raise (KeyError sd), st)
      end
  end.

(** The dictionary behind a reference. *)
Definition deref (sd : string) : M (gmap string obj) :=
  gets (λ st, default ∅ (objects st !! sd)).

(** [d[name] = o] on the dictionary behind [sd]. *)
Definition setitem (sd name : string) (o : obj) : M unit :=
  modify (set_objects (alter (insert name o) sd)).

(** [del d[name]] on the dictionary behind [sd]. *)
Definition delitem (sd name : string) : M unit :=
  d <~ deref sd ;;
  match d !! name with
  | Some _ => modify (set_objects (alter (delete name) sd))
  | None => raise (KeyError name)
  end.

(** [CoqObject._record_name]; [objtype] is [self.objtype]. *)
Definition CoqObject_record_name (cls : CoqObjectClass) (objtype : string)
    (name target_id : string) : M unit :=
  names_in_subdomain <~ subdomain_data cls ;;
  d <~ deref names_in_subdomain ;;
  warn_if_duplicate_name PyStr obj_docname d name ;;;
  doc <~ gets docname ;;
  setitem names_in_subdomain name (doc, objtype, target_id).

(** [CoqObject._target_id] *)
Definition CoqObject_target_id (objtype name : string) : string :=
  make_target objtype (make_id host name).

(** The text of an index entry, as [_add_index_entry] computes it. *)
Definition index_text (cls : CoqObjectClass) (name : string) : string :=
  let trim := has_trailing_period name in
  let index_text := if trim then Py.drop_last name else name in
  match index_suffix cls with
  | Some suffix =>
      if Py.truthy suffix then index_text +:+ " " +:+ suffix else index_text
  | None => index_text
  end.

(** [CoqObject._add_index_entry] *)
Definition CoqObject_add_index_entry (cls : CoqObjectClass)
    (name target : string) : M unit :=
  if Py.startswith name "_" then ret tt
  else modify (set_index_entries
                 (λ es, es ++ [("single", index_text cls name, target, "", None)])).

(** The methods [_add_target] and [add_target_and_index] call on [self];
    [ProductionObject] overrides the first three.  [K] is the type of the
    names [handle_signature] returns, [name_truthy] the test [if name:]. *)
Record methods (K : Type) : Type := {
  target_id : K → string;
  record_name : K → string → M unit;
  add_index_entry : K → string → M unit;
  name_truthy : K → bool;
}.
Arguments target_id {K} _ _.
Arguments record_name {K} _ _ _.
Arguments add_index_entry {K} _ _ _.
Arguments name_truthy {K} _ _.

Definition CoqObject (cls : CoqObjectClass) (objtype : string) : methods string :=
  {| target_id := CoqObject_target_id objtype;
     record_name := CoqObject_record_name cls objtype;
     add_index_entry := CoqObject_add_index_entry cls;
     name_truthy := Py.truthy |}.

(** [self.state.document.note_explicit_target(signode)], for a signature
    node whose only id is [targetid]: docutils enters the id in
    [document.ids]. *)
Definition note_explicit_target (targetid : string) : M unit :=
  modify (set_document_ids (λ ids, {[targetid]} ∪ ids)).

(** [CoqObject._add_target] *)
Definition add_target {K} (self : methods K) (name : K) : M string :=
  let targetid := target_id self name in
  ids <~ gets document_ids ;;
  (if decide (targetid ∈ ids) then ret tt
   else (note_explicit_target targetid ;;; record_name self name targetid)) ;;;
  ret targetid.

(** [CoqObject.add_target_and_index]; [None] is the Python [None]. *)
Definition add_target_and_index {K} (self : methods K) (name : option K)
    : M (option string) :=
  match name with
  | Some n =>
      if name_truthy self n then
        target <~ add_target self n ;;
        add_index_entry self n target ;;;
        ret (Some target)
      else ret None
  | None => ret None
  end.

(** ** [ProductionObject] *)

Definition SIG_ERROR : string :=
  "Invalid syntax in ``.. prodn::`` directive" +:+ nl +:+
  "Expected ``name ::= ...`` or ``name += ...``" +:+
  " (e.g. ``pattern += constr:(@ident)``)".

(** [ProductionObject.handle_signature] *)
Definition ProductionObject_handle_signature (signature : string)
    : res (option (string * string)) :=
  let nsplits := 2 in
  match Py.split_ws nsplits signature with
  | [p1; p2; p3] =>
      let lhs := Py.strip p1 in
      let op := Py.strip p2 in
      let rhs := Py.strip p3 in
      if bool_decide (op ∈ ["::="; "+="]) then
        _ <- notation_to_sphinx rhs ;;
        Ok (if decide (op = "::=") then Some ("token", lhs) else None)
      else Raise (ExtensionError SIG_ERROR)
  | _ => Raise (ExtensionError SIG_ERROR)
  end.

(** [ProductionObject._target_id] *)
Definition ProductionObject_target_id (name : string * string) : string :=
  "grammar-token-" +:+ name.2.

(** [ProductionObject._record_name] *)
Definition ProductionObject_record_name (name : string * string)
    (targetid : string) : M unit :=
  objs <~ gets std_objects ;;
  warn_if_duplicate_name (λ k, PyPair k.1 k.2) fst objs name ;;;
  doc <~ gets docname ;;
  modify (set_std_objects (insert name (doc, targetid))).

Definition ProductionObject : methods (string * string) :=
  {| target_id := ProductionObject_target_id;
     record_name := ProductionObject_record_name;
     add_index_entry := λ _ _, ret tt;
     name_truthy := λ _, true |}.

(** What the generic [:token:] role of the standard domain looks up:
    [objects['token', name]], a pair [(docname, labelid)]. *)
Definition token_lookup (name : string) (st : state) : option (string * string) :=
  std_objects st !! ("token", name).

End Domain.

Arguments target_id {K} _ _.
Arguments record_name {K} _ _ _.
Arguments add_index_entry {K} _ _ _.
Arguments name_truthy {K} _ _.

(** ** Indices *)

(** The class attributes of a [CoqSubdomainsIndex]. *)
Record IndexClass : Type := {
  index_name : string;
  index_localname : string;
  index_shortname : string;
  index_subdomains : list string;
}.

Definition CoqVernacIndex : IndexClass :=
  {| index_name := "cmdindex"; index_localname := "Command Index";
     index_shortname := "commands"; index_subdomains := ["cmd"] |}.

Definition CoqTacticIndex : IndexClass :=
  {| index_name := "tacindex"; index_localname := "Tactic Index";
     index_shortname := "tactics"; index_subdomains := ["tacn"] |}.

Definition CoqOptionIndex : IndexClass :=
  {| index_name := "optindex";
     index_localname := "Flags, options and Tables Index";
     index_shortname := "options";
     index_subdomains := ["flag"; "opt"; "table"] |}.

Definition CoqGallinaIndex : IndexClass :=
  {| index_name := "thmindex"; index_localname := "Gallina Index";
     index_shortname := "theorems"; index_subdomains := ["thm"] |}.

Definition CoqExceptionIndex : IndexClass :=
  {| index_name := "exnindex"; index_localname := "Errors and Warnings Index";
     index_shortname := "errors"; index_subdomains := ["exn"; "warn"] |}.

(** [CoqDomain.indices] *)
Definition indices : list IndexClass :=
  [CoqVernacIndex; CoqTacticIndex; CoqOptionIndex; CoqGallinaIndex;
   CoqExceptionIndex].

(** [CoqDomain.find_index_by_name] *)
Definition find_index_by_name (targetid : string) : option IndexClass :=
  List.find (λ index, bool_decide (index_name index = targetid)) indices.

(** A row of an index: [[itemname, 0, docname, anchor, '', '', '']]. *)
Record index_row : Type := IndexRow {
  row_name : string;
  row_subtype : nat;
  row_docname : string;
  row_anchor : string;
  row_extra : string;
  row_qualifier : string;
  row_descr : string;
}.

Global Instance index_row_eq_dec : EqDecision index_row.
Proof. solve_decision. Defined.

(** Where [sorted] puts [x] in a list that it has sorted already: before
    the first element whose key is not smaller, so that elements with the
    key of [x] that came after [x] stay after it. *)
Fixpoint insert_by {A} (key : A → string) (x : A) (l : list A) : list A :=
  match l with
  | [] => [x]
  | y :: l' =>
      if decide (String.le (key x) (key y)) then x :: y :: l'
      else y :: insert_by key x l'
  end.

(** [sorted(l, key=key)] on string keys; the sort is stable. *)
Definition sorted_by {A} (key : A → string) (l : list A) : list A :=
  foldr (insert_by key) [] l.

Fixpoint fold_res {A B} (f : B → A → res B) (b : B) (l : list A) : res B :=
  match l with
  | [] => Ok b
  | x :: l' => b' <- f b x ;; fold_res f b' l'
  end.

(** The items [chain] runs through, [data['objects'][subdomain].items()]
    for each subdomain in turn: the argument list is unpacked before [chain]
    is called, so a missing subdomain raises at once. *)
Fixpoint chain_items (data : gmap string (gmap string obj))
    (subdomains : list string) : res (list (string * obj)) :=
  match subdomains with
  | [] => Ok []
  | sd :: rest =>
      match data !! sd with
      | Some d => more <- chain_items data rest ;; Ok (map_to_list d ++ more)
      | None => Raise (KeyError sd)
      end
  end.

(** The test [docnames and docname not in docnames]. *)
Definition skip_docname (docnames : option (list string)) (docname : string) : bool :=
  match docnames with
  | None | Some [] => false
  | Some ds => negb (bool_decide (docname ∈ ds))
  end.

Definition make_row (itemname docname anchor : string) : index_row :=
  IndexRow itemname 0 docname anchor "" "" "".

(** The bucket of a name, [itemname[0].lower()]. *)
Definition bucket_key (itemname : string) : res string :=
  match itemname with
  | EmptyString => Raise IndexError
  | String c _ => Ok (Py.lower (String c EmptyString))
  end.

(** One iteration of the loop of [generate]; [content] is a
    [defaultdict(list)]. *)
Definition generate_step (docnames : option (list string))
    (content : gmap string (list index_row)) (item : string * obj)
    : res (gmap string (list index_row)) :=
  let '(itemname, (docname, _, anchor)) := item in
  if skip_docname docnames docname then Ok content
  else
    k <- bucket_key itemname ;;
    let entries := default [] (content !! k) in
    Ok (<[k := entries ++ [make_row itemname docname anchor]]> content).

(** [CoqSubdomainsIndex.generate]; [data] is [self.domain.data['objects']]. *)
Definition generate (self : IndexClass) (data : gmap string (gmap string obj))
    (docnames : option (list string))
    : res (list (string * list index_row) * bool) :=
  items <- chain_items data (index_subdomains self) ;;
  content <- fold_res (generate_step docnames) ∅
               (sorted_by (λ x, Py.lower x.1) items) ;;
  let collapse := false in
  Ok (sorted_by fst (map_to_list content), collapse).

(** ** [CoqDomain] *)

(** One iteration of the inner loop of [merge_domaindata]; [subdomain]
    stands for [our_objects], the dictionary it refers to. *)
Definition merge_item (docnames : list string) (subdomain : string)
    (item : string * obj) : M unit :=
  let '(name, (docname, objtype, targetid)) := item in
  if bool_decide (docname ∈ docnames) then
    our_objects <~ deref subdomain ;;
    match our_objects !! name with
    | Some other => warn (DuplicateDeclaration docname name (obj_docname other))
    | None => ret tt
    end ;;;
    setitem subdomain name (docname, objtype, targetid)
  else ret tt.

(** [self.data['objects'][subdomain]] *)
Definition getitem_objects (subdomain : string) : M string := λ st,
  match objects st !! subdomain with
  | Some _ => (Ok subdomain, st)
  | None => (Raise (KeyError subdomain), st)
  end.

(** [CoqDomain.merge_domaindata]; [otherdata] is [otherdata['objects']]. *)
Definition merge_domaindata (docnames : list string)
    (otherdata : gmap string (gmap string obj)) : M unit :=
  for_ (map_to_list otherdata) (λ '(subdomain, their_objects),
    our_objects <~ getitem_objects subdomain ;;
    for_ (map_to_list their_objects) (merge_item docnames our_objects)).

(** The node [make_refnode(builder, fromdocname, todocname, targetid,
    contnode, title)] builds. *)
Record refnode : Type := RefNode {
  ref_fromdocname : string;
  ref_todocname : string;
  ref_targetid : string;
  ref_title : string;
}.

(** [CoqDomain.resolve_xref]; [None] is an unresolved reference. *)
Definition resolve_xref (data : gmap string (gmap string obj))
    (fromdocname role targetname : string) : res (option refnode) :=
  if decide (role = "index") then
    match find_index_by_name targetname with
    | Some index =>
        Ok (Some (RefNode fromdocname ("coq-" +:+ index_name index) ""
                          (index_localname index)))
    | None => Ok None
    end
  else
    match data !! role with
    | None => Raise (KeyError role)
    | Some names =>
        match names !! targetname with
        | Some (todocname, _, targetid) =>
            Ok (Some (RefNode fromdocname todocname targetid targetname))
        | None => Ok None
        end
    end.

(** One iteration of the inner loop of [clear_doc]; [sd] stands for
    [subdomain_objects], the dictionary it refers to. *)
Definition clear_item (docname_to_clear sd : string) (item : string * obj)
    : M unit :=
  let '(name, (docname, _, _)) := item in
  if decide (docname = docname_to_clear) then delitem sd name else ret tt.

(** [CoqDomain.clear_doc]; the inner loop runs over a copy of the items. *)
Definition clear_doc (docname_to_clear : string) : M unit :=
  subdomains <~ gets (λ st, map_to_list (objects st)) ;;
  for_ subdomains (λ '(sd, subdomain_objects),
    for_ (map_to_list subdomain_objects) (clear_item docname_to_clear sd)).

(** [CoqDomain.initial_data['objects']] *)
Definition initial_objects : gmap string (gmap string obj) :=
  list_to_map ((λ sd, (sd, ∅)) <$>
    ["cmd"; "tacn"; "opt"; "flag"; "table"; "thm"; "prodn"; "exn"; "warn"]).

Definition initial_state (doc : string) : state :=
  State initial_objects ∅ doc ∅ [] [].

(** ** A concrete host, for running the definitions

    Identifiers are lower-cased with every other character replaced by a
    hyphen; documents live in [.rst] files; every notation parses and prints
    as itself. *)

Definition is_alnum (c : ascii) : bool :=
  let n := nat_of_ascii c in
  Py.in_range 48 57 n || Py.in_range 97 122 n.

Fixpoint example_make_id (s : string) : string :=
  match s with
  | EmptyString => EmptyString
  | String c s' =>
      let c' := Py.lower_char c in
      String (if is_alnum c' then c' else "-"%char) (example_make_id s')
  end.

Definition example_host : Host :=
  {| make_id := example_make_id;
     doc2path := λ d, d +:+ ".rst";
     stringify_with_ellipses := λ s, Parsed s;
     sphinxify := λ _, Parsed tt |}.

(** A host whose notation parser rejects everything. *)
Definition rejecting_host : Host :=
  {| make_id := example_make_id;
     doc2path := λ d, d +:+ ".rst";
     stringify_with_ellipses := λ s, Parsed s;
     sphinxify := λ _, ParseError "unexpected end of notation" |}.

(** [env.docname = doc]: the build moves on to document [doc]. *)
Definition set_docname (doc : string) (st : state) : state :=
  State (objects st) (std_objects st) doc (document_ids st)
        (warnings st) (index_entries st).

(** A registry holding one tactic, declared in [doc1]. *)
Definition example_tactics : gmap string (gmap string obj) :=
  <["tacn" := {["simpl" := ("doc1", "tacn", "coq:tacn.simpl")]}]> initial_objects.

(** A batch holding one tactic of [doc2] and one of [doc3]. *)
Definition example_batch : gmap string (gmap string obj) :=
  {["tacn" := {["simpl" := ("doc2", "tacn", "coq:tacn.simpl");
                "auto" := ("doc3", "tacn", "coq:tacn.auto")]}]}.

(** A registry holding a flag and an option of [doc1], an option of [doc2]
    and a table of [doc3]. *)
Definition example_options : gmap string (gmap string obj) :=
  <["flag" := {["printing all" := ("doc1", "flag", "coq:flag.printing-all")]}]>
    (<["opt" := {["Hyps Limit" := ("doc2", "opt", "coq:opt.hyps-limit");
                  "Printing Width" :=
                    ("doc1", "opt", "coq:opt.printing-width")]}]>
       (<["table" := {["Search Blacklist" :=
                         ("doc3", "table", "coq:table.search-blacklist")]}]>
          initial_objects)).

Definition example_state : state :=
  State example_tactics ∅ "doc2" ∅ [] [].

(** ** Notions used to state the results *)

Global Instance exn_eq_dec : EqDecision exn.
Proof. solve_decision. Defined.

Global Instance res_eq_dec {A} `{EqDecision A} : EqDecision (res A).
Proof. solve_decision. Defined.

(** An item is kept by [generate] when the test on [docnames] lets it
    through. *)
Definition kept (docnames : option (list string)) (item : string * obj) : bool :=
  negb (skip_docname docnames (obj_docname item.2)).

Definition row_of_item (item : string * obj) : index_row :=
  make_row item.1 (obj_docname item.2) (obj_targetid item.2).

(** The rows an ordered list of items contributes to bucket [k]. *)
Definition rows_of (docnames : option (list string)) (k : string)
    (items : list (string * obj)) : list index_row :=
  row_of_item <$>
    filter (λ it, kept docnames it = true ∧ bucket_key it.1 = Ok k) items.

(** Case-insensitive order on names. *)
Definition name_le (n1 n2 : string) : Prop :=
  String.le (Py.lower n1) (Py.lower n2).

(** The warnings [merge_domaindata] owes for a batch entry: one when the
    entry is merged and its name is already in [names]. *)
Definition merge_warning (docnames : list string) (names : gmap string obj)
    (item : string * obj) : list warning :=
  if bool_decide (obj_docname item.2 ∈ docnames) then
    match names !! item.1 with
    | Some other =>
        [DuplicateDeclaration (obj_docname item.2) item.1 (obj_docname other)]
    | None => []
    end
  else [].

(** The warnings owed for a whole batch, in the order of the loops. *)
Definition merge_warnings (docnames : list string)
    (ours : gmap string (gmap string obj))
    (batches : list (string * gmap string obj)) : list warning :=
  batches ≫= λ '(sd, their),
    map_to_list their ≫= merge_warning docnames (default ∅ (ours !! sd)).

(** The entries of a batch dictionary that [merge_domaindata] takes. *)
Definition merged_part (docnames : list string) (their : gmap string obj)
    : gmap string obj :=
  filter (λ kv, obj_docname kv.2 ∈ docnames) their.

(** The entries [clear_doc] leaves in a dictionary. *)
Definition cleared (doc : string) (names : gmap string obj) : gmap string obj :=
  filter (λ kv, obj_docname kv.2 ≠ doc) names.

(** ** Object inventory *)

(** An [ObjType(lname, *roles, searchprio=...)]; the search priority is 1
    when it is not given. *)
Record ObjType : Type := {
  lname : string;
  roles : list string;
  searchprio : Z;
}.

(** [CoqDomain.object_types] *)
Definition object_types : gmap string ObjType :=
  list_to_map
    [("cmd", {| lname := "cmd"; roles := ["cmd"]; searchprio := 1 |});
     ("cmdv", {| lname := "cmdv"; roles := ["cmd"]; searchprio := 1 |});
     ("tacn", {| lname := "tacn"; roles := ["tacn"]; searchprio := 1 |});
     ("tacv", {| lname := "tacv"; roles := ["tacn"]; searchprio := 1 |});
     ("opt", {| lname := "opt"; roles := ["opt"]; searchprio := 1 |});
     ("flag", {| lname := "flag"; roles := ["flag"]; searchprio := 1 |});
     ("table", {| lname := "table"; roles := ["table"]; searchprio := 1 |});
     ("thm", {| lname := "thm"; roles := ["thm"]; searchprio := 1 |});
     ("prodn", {| lname := "prodn"; roles := ["prodn"]; searchprio := 1 |});
     ("exn", {| lname := "exn"; roles := ["exn"]; searchprio := 1 |});
     ("warn", {| lname := "warn"; roles := ["exn"]; searchprio := 1 |});
     ("index", {| lname := "index"; roles := ["index"]; searchprio := -1 |})].

(** A tuple [get_objects] yields:
    [(name, dispname, type, docname, anchor, priority)]. *)
Abbreviation inventory_entry :=
  (string * string * string * string * string * Z)%type.

Fixpoint map_res {A B} (f : A → res B) (l : list A) : res (list B) :=
  match l with
  | [] => Ok []
  | x :: l' => y <- f x ;; ys <- map_res f l' ;; Ok (y :: ys)
  end.

(** What the first loop of [get_objects] yields for one registry item. *)
Definition object_entry (item : string * obj) : res inventory_entry :=
  let '(name, (docname, objtype, targetid)) := item in
  match object_types !! objtype with
  | Some t => Ok (name, name, objtype, docname, targetid, searchprio t)
  | None => Raise (KeyError objtype)
  end.

(** What the second loop of [get_objects] yields for one index. *)
Definition index_entry_of (index : IndexClass) : inventory_entry :=
  (index_name index, index_localname index, "index",
   "coq-" +:+ index_name index, "", (-1)%Z).

(** [CoqDomain.get_objects], run to its end: the list of what the generator
    yields, or the exception that stops it. *)
Definition get_objects (data : gmap string (gmap string obj))
    : res (list inventory_entry) :=
  found <- map_res (λ '(_, objects), map_res object_entry (map_to_list objects))
             (map_to_list data) ;;
  Ok (mjoin found ++ (index_entry_of <$> indices)).

(** ** Interactive blocks *)

Definition dquote : string := String (ascii_of_nat 34) EmptyString.

Definition SET_WARNINGS_PLUS_DEFAULT : string :=
  "Set Warnings " +:+ dquote +:+ "+default" +:+ dquote +:+ ".".

Definition SET_WARNINGS_DEFAULT : string :=
  "Set Warnings " +:+ dquote +:+ "default" +:+ dquote +:+ ".".

(** [CoqtopBlocksTransform.INITIAL_OPTIONS] *)
Definition INITIAL_OPTIONS : list string := [SET_WARNINGS_PLUS_DEFAULT].

(** The two [ExtensionError]s of [prepare_alectryon_node]:
    ["{loc}: Unexpected options for .. coqtop:: {unexpected}"] and
    ["{loc}: Exactly one display option must be passed to .. coqtop::"]. *)
Inductive coqtop_error : Type :=
| UnexpectedOptions (unexpected : list string)
| NoSingleDisplayOption.

(** The arguments given to [alectryon_pending], the block's text and
    position apart. *)
Record alectryon_pending : Type := Pending {
  pending_options : list string;
  pending_prelude : list string;
  pending_coda : list string;
}.

(** [CoqtopBlocksTransform.prepare_alectryon_node]; [options] is
    [node['coqtop_options']], a set. *)
Definition prepare_alectryon_node (options : gset string)
    : coqtop_error + alectryon_pending :=
  let opt_reset := bool_decide ("reset" ∈ options) in
  let opt_fail := bool_decide ("fail" ∈ options) in
  let opt_warn := bool_decide ("warn" ∈ options) in
  let opt_restart := bool_decide ("restart" ∈ options) in
  let opt_abort := bool_decide ("abort" ∈ options) in
  let options :=
    options ∖ ({["reset"; "fail"; "warn"; "restart"; "abort"]} : gset string) in
  let unexpected_options :=
    elements (options ∖ ({["all"; "none"; "in"; "out"]} : gset string)) in
  if bool_decide (unexpected_options ≠ []) then
    inl (UnexpectedOptions unexpected_options)
  else if bool_decide (size options ≠ 1) then inl NoSingleDisplayOption
  else
    let opt_all := bool_decide ("all" ∈ options) in
    let opt_input := bool_decide ("in" ∈ options) in
    let opt_output := bool_decide ("out" ∈ options) in
    let opt_none := bool_decide ("none" ∈ options) in
    let opt_warn := opt_warn || opt_fail in
    let prelude :=
      (if opt_restart then ["Restart."] else []) ++
      (if opt_reset then "Reset Initial." :: INITIAL_OPTIONS else []) ++
      (if opt_warn then [SET_WARNINGS_DEFAULT] else []) in
    let coda :=
      (if opt_abort then ["Abort All."] else []) ++
      (if opt_warn then [SET_WARNINGS_PLUS_DEFAULT] else []) in
    let opt_input := opt_input || opt_all in
    let opt_output := opt_output || opt_all in
    let alectryon_options :=
      (if opt_none then ["none"]
       else if opt_input && negb opt_output then ["all"; "fold"]
       else if opt_input && opt_output then ["all"; "unfold"]
       else if opt_output && negb opt_input then ["out"; "unfold"]
       else if negb opt_output && negb opt_input then ["none"]
       else []) ++
      (if opt_fail then ["fails"] else []) in
    inr (Pending alectryon_options prelude coda).

(** ** More notions used to state the results *)

(** [s.count(c)] for a one-character [c]. *)
Fixpoint count_char (c : ascii) (s : string) : nat :=
  match s with
  | EmptyString => 0
  | String a s' => (if decide (a = c) then 1 else 0) + count_char c s'
  end.

(** The entries [generate] keeps, as rows, in the order of [items]. *)
Definition kept_rows (docnames : option (list string))
    (items : list (string * obj)) : list index_row :=
  row_of_item <$> filter (λ it, kept docnames it = true) items.

(** No subdomain of the registry holds the empty name. *)
Definition names_nonempty (data : gmap string (gmap string obj)) : Prop :=
  ∀ sd names, data !! sd = Some names → names !! EmptyString = None.

(** * Properties *)

(** ** Strings *)

Lemma app_empty (s : string) : EmptyString +:+ s = s.
Proof. reflexivity. Qed.

Lemma app_String (c : ascii) (s1 s2 : string) :
  String c s1 +:+ s2 = String c (s1 +:+ s2).
Proof. reflexivity. Qed.

Lemma endswith_refl (s : string) : Py.endswith s s = true.
Proof. destruct s; cbn [Py.endswith]; by rewrite decide_True. Qed.

Lemma endswith_app (p suf : string) : Py.endswith (p +:+ suf) suf = true.
Proof.
  induction p as [|c p IH].
  - rewrite app_empty. apply endswith_refl.
  - rewrite app_String. cbn [Py.endswith]. case_decide; [done|]. exact IH.
Qed.

Lemma endswith_inv (s suf : string) :
  Py.endswith s suf = true → ∃ p, s = p +:+ suf.
Proof.
  induction s as [|c s IH]; cbn [Py.endswith]; intros H.
  - case_decide as Heq; [|done]. exists EmptyString. by rewrite <- Heq.
  - case_decide as Heq.
    + exists EmptyString. by rewrite <- Heq.
    + destruct (IH H) as [p ->]. by exists (String c p).
Qed.

Lemma endswith_spec (s suf : string) :
  Py.endswith s suf = true ↔ ∃ p, s = p +:+ suf.
Proof.
  split; [apply endswith_inv|]. intros [p ->]. apply endswith_app.
Qed.

Lemma drop_last_snoc (p : string) (c : ascii) :
  Py.drop_last (p +:+ String c EmptyString) = p.
Proof.
  induction p as [|a p IH]; [done|].
  rewrite app_String. simpl.
  destruct (p +:+ String c EmptyString) eqn:E.
  - destruct p; discriminate.
  - by rewrite IH.
Qed.

Lemma contains_app (c : ascii) (s1 s2 : string) :
  Py.contains c (s1 +:+ s2) = Py.contains c s1 || Py.contains c s2.
Proof.
  induction s1 as [|a s1 IH]; [done|].
  rewrite app_String. cbn [Py.contains]. case_decide; [done|]. exact IH.
Qed.

Lemma app_period_inj_l (o1 o2 s1 s2 : string) :
  Py.contains "." o1 = false → Py.contains "." o2 = false →
  o1 +:+ String "." s1 = o2 +:+ String "." s2 → o1 = o2 ∧ s1 = s2.
Proof.
  revert o2. induction o1 as [|a o1 IH]; intros [|b o2];
    rewrite ?app_empty, ?app_String; cbn [Py.contains]; intros H1 H2 Heq.
  - by simplify_eq.
  - injection Heq as <- _. by rewrite decide_True in H2.
  - injection Heq as -> _. by rewrite decide_True in H1.
  - case_decide; [done|]. case_decide; [done|]. simplify_eq.
    destruct (IH o2 H1 H2) as [-> ->]; done.
Qed.

Lemma app_period_inj_r (o1 o2 s1 s2 : string) :
  Py.contains "." s1 = false → Py.contains "." s2 = false →
  o1 +:+ String "." s1 = o2 +:+ String "." s2 → o1 = o2 ∧ s1 = s2.
Proof.
  intros H1 H2.
  revert o2. induction o1 as [|a o1 IH]; intros [|b o2];
    rewrite ?app_empty, ?app_String; intros Heq.
  - by simplify_eq.
  - injection Heq as _ ->. rewrite contains_app in H1.
    cbn [Py.contains] in H1.
    rewrite decide_True in H1 by done. by rewrite orb_true_r in H1.
  - injection Heq as _ <-. rewrite contains_app in H2.
    cbn [Py.contains] in H2.
    rewrite decide_True in H2 by done. by rewrite orb_true_r in H2.
  - simplify_eq. destruct (IH o2) as [-> ->]; done.
Qed.

(** ** Target identifiers *)

(** The object types of the domain, which are its directive names, hold no
    period. *)
Lemma object_types_no_period (objtype : string) :
  is_Some (object_types !! objtype) → Py.contains "." objtype = false.
Proof.
  intros [t Ht]. unfold object_types in Ht.
  apply elem_of_list_to_map_2 in Ht. rewrite !elem_of_cons, elem_of_nil in Ht.
  repeat (destruct Ht as [Ht|Ht]; [injection Ht as -> _; reflexivity|]).
  done.
Qed.

(** C2: [make_target objtype slug] is the string
    ["coq:" + objtype + "." + slug], and it is injective on the pairs it is
    given: [_target_id], its caller, passes a directive name, which holds no
    period, and an id made by docutils, which holds none either.  Either of
    the two is enough. *)
Theorem C2_make_target_injective (o1 s1 o2 s2 : string) :
  (Py.contains "." o1 = false ∧ Py.contains "." o2 = false) ∨
  (Py.contains "." s1 = false ∧ Py.contains "." s2 = false) →
  make_target o1 s1 = "coq:" +:+ o1 +:+ "." +:+ s1 ∧
  (make_target o1 s1 = make_target o2 s2 → o1 = o2 ∧ s1 = s2).
Proof.
  intros H. split; [reflexivity|]. unfold make_target. intros Heq.
  apply (inj (String.app "coq:")) in Heq.
  destruct H as [[H1 H2]|[H1 H2]].
  - by apply app_period_inj_l.
  - by apply app_period_inj_r.
Qed.

(** So the identifiers of two objects of the domain meet only when the
    object types and the slugs do. *)
Lemma make_target_injective_on_object_types (o1 s1 o2 s2 : string) :
  is_Some (object_types !! o1) → is_Some (object_types !! o2) →
  make_target o1 s1 = make_target o2 s2 → o1 = o2 ∧ s1 = s2.
Proof.
  intros H1%object_types_no_period H2%object_types_no_period.
  unfold make_target. intros Heq.
  apply (inj (String.app "coq:")) in Heq. by apply app_period_inj_l.
Qed.

(** ** The registry: insertion *)

Ltac run_monad :=
  unfold CoqObject_record_name, ProductionObject_record_name,
    warn_if_duplicate_name, subdomain_data, deref, setitem, delitem, warn,
    note_explicit_target, getitem_objects,
    bind, ret, raise, gets, modify, lift; simpl.

Lemma alter_lookup_insert {A} (f : A → A) (k : string) (x : A)
    (m : gmap string A) :
  m !! k = Some x → alter f k m = <[k := f x]> m.
Proof.
  intros Hk. apply map_eq. intros i. rewrite lookup_alter, lookup_insert.
  case_decide; subst; by rewrite ?Hk.
Qed.

(** What [_record_name] does when the subdomain exists: one warning if the
    name is taken, then the entry is overwritten. *)
Lemma record_name_run (host : Host) (cls : CoqObjectClass)
    (objtype name target sd : string) (names : gmap string obj) (st : state) :
  subdomain cls = Some sd → objects st !! sd = Some names →
  CoqObject_record_name host cls objtype name target st =
    (Ok tt,
     set_objects (<[sd := <[name := (docname st, objtype, target)]> names]>)
       (set_warnings
          (λ ws, ws ++ match names !! name with
                       | Some other =>
                           [DuplicateObject (PyStr name)
                              (doc2path host (obj_docname other))]
                       | None => []
                       end) st)).
Proof.
  intros Hsd Hnames. run_monad. rewrite Hsd, Hnames. simpl.
  rewrite Hnames. simpl.
  destruct (names !! name) as [other|] eqn:Hname; simpl;
    unfold set_objects, set_warnings; simpl;
    rewrite (alter_lookup_insert _ _ _ _ Hnames), ?app_nil_r; done.
Qed.

(** ** Targets already present in the document *)

Lemma add_target_existing {K} (self : methods K) (name : K) (st : state) :
  target_id self name ∈ document_ids st →
  add_target self name st = (Ok (target_id self name), st).
Proof.
  intros Hin. unfold add_target. run_monad. by rewrite decide_True.
Qed.

Lemma add_target_fresh (host : Host) (cls : CoqObjectClass)
    (objtype name sd : string) (names : gmap string obj) (st : state) :
  let self := CoqObject host cls objtype in
  subdomain cls = Some sd → objects st !! sd = Some names →
  target_id self name ∉ document_ids st →
  add_target self name st =
    (Ok (target_id self name),
     set_objects
       (<[sd := <[name := (docname st, objtype, target_id self name)]> names]>)
       (set_warnings
          (λ ws, ws ++ match names !! name with
                       | Some other =>
                           [DuplicateObject (PyStr name)
                              (doc2path host (obj_docname other))]
                       | None => []
                       end)
          (set_document_ids (λ ids, {[target_id self name]} ∪ ids) st))).
Proof.
  intros self Hsd Hnames Hfresh. unfold add_target.
  unfold bind at 1, gets at 1. rewrite decide_False by done.
  unfold bind at 1. unfold bind at 1. unfold note_explicit_target, modify at 1.
  simpl record_name.
  rewrite (record_name_run host cls objtype name _ sd names) by done.
  reflexivity.
Qed.



(** C10: when the computed target id is already among the document's ids,
    [_add_target] records nothing, warns of nothing, and still returns the
    id; [add_target_and_index] then leaves the registry and the warnings as
    they were.  So of two declarations of one document whose names have the
    same slug, the first keeps its registry entry. *)
Theorem C10_existing_target_id (host : Host) (cls : CoqObjectClass)
    (objtype : string) :
  let self := CoqObject host cls objtype in
  (∀ name st, target_id self name ∈ document_ids st →
     add_target self name st = (Ok (target_id self name), st)) ∧
  (∀ name st, target_id self name ∈ document_ids st → Py.truthy name = true →
     ∃ st', add_target_and_index self (Some name) st
              = (Ok (Some (target_id self name)), st') ∧
            objects st' = objects st ∧ warnings st' = warnings st ∧
            document_ids st' = document_ids st) ∧
  (∀ sd names name1 name2 st,
     subdomain cls = Some sd → objects st !! sd = Some names →
     target_id self name1 ∉ document_ids st →
     make_id host name2 = make_id host name1 →
     ∃ st1, add_target self name1 st = (Ok (target_id self name1), st1) ∧
            add_target self name2 st1 = (Ok (target_id self name1), st1) ∧
            objects st1 !! sd =
              Some (<[name1 := (docname st, objtype, target_id self name1)]> names)).
Proof.
  intros self. split; [|split].
  - intros name st Hin. by apply add_target_existing.
  - intros name st Hin Htrue. unfold add_target_and_index.
    subst self. cbn [name_truthy CoqObject]. rewrite Htrue. unfold bind at 1.
    rewrite add_target_existing by done.
    cbn [add_index_entry CoqObject]. unfold CoqObject_add_index_entry.
    destruct (Py.startswith name "_"); run_monad; eauto.
  - intros sd names name1 name2 st Hsd Hnames Hfresh Hslug.
    eexists. split; [by apply (add_target_fresh host cls objtype name1 sd names)|].
    split.
    + assert (target_id self name2 = target_id self name1) as Heq.
      { simpl. unfold CoqObject_target_id. by rewrite Hslug. }
      rewrite <- Heq. apply add_target_existing. rewrite Heq. simpl.
      set_solver.
    + simpl. by rewrite lookup_insert_eq.
Qed.

(** ** Names derived from signatures *)

(** C6: a name derived from the signature loses exactly its last character
    when it ends with a period but not with three; a name ending with three
    periods (or with none) is returned as it is. *)
Theorem C6_trailing_period (cls : CoqObjectClass) (names : gmap string string)
    (signature n : string) :
  render_signature cls signature = Ok tt →
  names !! signature = None →
  name_from_signature cls signature = Ok (Some n) →
  (Py.endswith n "." = true → Py.endswith n "..." = false →
     ∃ p, n = p +:+ "." ∧ handle_signature cls names signature = Ok (Some p)) ∧
  (Py.endswith n "..." = true →
     handle_signature cls names signature = Ok (Some n)) ∧
  (Py.endswith n "." = false →
     handle_signature cls names signature = Ok (Some n)).
Proof.
  intros Hrender Hnone Hname. unfold handle_signature.
  rewrite Hrender, Hnone, Hname. simpl. unfold has_trailing_period.
  split; [|split].
  - intros Hdot Hell. rewrite Hdot, Hell. simpl.
    apply endswith_inv in Hdot as [p ->]. exists p.
    by rewrite drop_last_snoc.
  - intros Hell. rewrite Hell. simpl. by rewrite andb_false_r.
  - intros Hdot. by rewrite Hdot.
Qed.

(** ** Explicit names *)

Lemma dict_of_pairs_go_notin (pairs : list (string * string))
    (d : gmap string string) (k : string) :
  k ∉ pairs.*1 →
  foldl (λ d kv, <[kv.1 := kv.2]> d) d pairs !! k = d !! k.
Proof.
  revert d. induction pairs as [|[k' v'] pairs IH]; intros d Hk; [done|].
  simpl in *. apply not_elem_of_cons in Hk as [Hne Hk].
  rewrite IH by done. by rewrite lookup_insert_ne.
Qed.

Lemma dict_of_pairs_go_lookup (pairs : list (string * string))
    (d : gmap string string) (k v : string) :
  NoDup pairs.*1 → (k, v) ∈ pairs →
  foldl (λ d kv, <[kv.1 := kv.2]> d) d pairs !! k = Some v.
Proof.
  revert d. induction pairs as [|[k' v'] pairs IH]; intros d Hnd Hin.
  - by apply elem_of_nil in Hin.
  - simpl in *. apply NoDup_cons in Hnd as [Hk' Hnd].
    apply elem_of_cons in Hin as [Heq|Hin].
    + simplify_eq. rewrite dict_of_pairs_go_notin by done.
      apply lookup_insert_eq.
    + by apply IH.
Qed.

(** [_prepare_names] fails exactly when the counts differ. *)
Lemma prepare_names_error_iff (sigs : list string) (name_option : string) :
  (∃ e, prepare_names sigs (Some name_option) = Raise e) ↔
  length (Py.strip <$> Py.split ";" name_option) ≠ length sigs.
Proof.
  unfold prepare_names. case_decide as Hlen; split; eauto.
  - intros [e He]. discriminate.
  - done.
Qed.

(** When the counts match and the signatures are pairwise distinct, the
    i-th name goes to the i-th signature. *)
Lemma prepare_names_positional (sigs : list string) (name_option : string) :
  let names := Py.strip <$> Py.split ";" name_option in
  length names = length sigs → NoDup sigs →
  ∃ d, prepare_names sigs (Some name_option) = Ok d ∧
       ∀ i sig name, sigs !! i = Some sig → names !! i = Some name →
                     d !! sig = Some name.
Proof.
  intros names Hlen Hnd. unfold prepare_names. fold names.
  rewrite decide_False by (intros ?; done). eexists. split; [done|].
  intros i sig name Hsig Hname. apply dict_of_pairs_go_lookup.
  - rewrite fst_zip by lia. done.
  - apply list_elem_of_lookup. exists i. rewrite lookup_zip_with.
    by rewrite Hsig; simpl; rewrite Hname.
Qed.

(** C9 at a block that repeats a signature line: the second name replaces
    the first, so the first signature is not given the first name. *)
Theorem C9_prepare_names_repeated_signature :
  ∃ d, prepare_names ["Foo"; "Foo"] (Some "a; b") = Ok d ∧
       d !! "Foo" = Some "b" ∧
       handle_signature GallinaObject d "Foo" = Ok (Some "b").
Proof. eexists. split; [reflexivity|]. split; vm_compute; reflexivity. Qed.

(** ** Grammar productions *)

Lemma production_record_name_run (host : Host) (name : string * string)
    (targetid : string) (st : state) :
  ProductionObject_record_name host name targetid st =
    (Ok tt,
     set_std_objects (<[name := (docname st, targetid)]>)
       (set_warnings
          (λ ws, ws ++ match std_objects st !! name with
                       | Some other =>
                           [DuplicateObject (PyPair name.1 name.2)
                              (doc2path host other.1)]
                       | None => []
                       end) st)).
Proof.
  run_monad. destruct (std_objects st !! name); simpl;
    unfold set_std_objects, set_warnings; simpl; by rewrite ?app_nil_r.
Qed.

(** C5, as stated, fails when the notation parser rejects the right-hand
    side: the signature splits into three parts with the operator [::=], yet
    [handle_signature] raises the parse error, so that the declaration fails
    and registers nothing. *)
Lemma C5_rejected_right_hand_side :
  Py.split_ws 2 "term ::= { x" = ["term"; "::="; "{ x"] ∧
  sphinxify rejecting_host "{ x" = ParseError "unexpected end of notation" ∧
  ProductionObject_handle_signature rejecting_host "term ::= { x"
    = Raise (ExtensionError (PARSE_ERROR "{ x" "unexpected end of notation")).
Proof.
  split; [vm_compute; reflexivity|]. split; [reflexivity|].
  vm_compute; reflexivity.
Qed.

(** C5, amended: for a signature that splits into three parts with the
    operator [::=] or [+=], a right-hand side the notation parser rejects
    makes [handle_signature] raise the parse error.  When the parser accepts
    it, the operator [::=] makes [handle_signature] return the key
    [('token', lhs)], whose target id is ["grammar-token-" + lhs];
    [_record_name] enters it in the standard token namespace, where the
    token role finds it, and so does [add_target_and_index] when the id is
    new to the document (when it is not, the declaration is skipped and the
    state is unchanged); with [+=] the name is [None] and nothing is
    registered.  Any other operator, or a signature that does not split into
    exactly three parts, raises the signature error. *)
Theorem C5_production_signature (host : Host) (signature : string) :
  (∀ p1 p2 p3, Py.split_ws 2 signature = [p1; p2; p3] →
     let lhs := Py.strip p1 in
     let op := Py.strip p2 in
     let rhs := Py.strip p3 in
     let name := ("token", lhs) in
     let tid := "grammar-token-" +:+ lhs in
     (op = "::=" ∨ op = "+=" →
        ∀ msg, sphinxify host rhs = ParseError msg →
          ProductionObject_handle_signature host signature
            = Raise (ExtensionError (PARSE_ERROR rhs msg))) ∧
     (op = "::=" → sphinxify host rhs = Parsed tt →
        ProductionObject_handle_signature host signature = Ok (Some name) ∧
        target_id (ProductionObject host) name = tid ∧
        (∀ st, ∃ st',
           record_name (ProductionObject host) name tid st = (Ok tt, st') ∧
           token_lookup lhs st' = Some (docname st, tid)) ∧
        (∀ st, tid ∉ document_ids st → ∃ st',
           add_target_and_index (ProductionObject host) (Some name) st
             = (Ok (Some tid), st') ∧
           token_lookup lhs st' = Some (docname st, tid) ∧
           tid ∈ document_ids st') ∧
        (∀ st, tid ∈ document_ids st →
           add_target_and_index (ProductionObject host) (Some name) st
             = (Ok (Some tid), st))) ∧
     (op = "+=" → sphinxify host rhs = Parsed tt →
        ProductionObject_handle_signature host signature = Ok None ∧
        (∀ st, add_target_and_index (ProductionObject host) None st
                 = (Ok None, st))) ∧
     (op ≠ "::=" → op ≠ "+=" →
        ProductionObject_handle_signature host signature
          = Raise (ExtensionError SIG_ERROR))) ∧
  (length (Py.split_ws 2 signature) ≠ 3 →
     ProductionObject_handle_signature host signature
       = Raise (ExtensionError SIG_ERROR)).
Proof.
  split.
  - intros p1 p2 p3 Hsplit lhs op rhs name tid.
    unfold ProductionObject_handle_signature. rewrite Hsplit.
    fold lhs op rhs. split; [|split; [|split]].
    + intros Hop msg Hrhs. rewrite bool_decide_true.
      * unfold notation_to_sphinx. by rewrite Hrhs.
      * rewrite !elem_of_cons. tauto.
    + intros Hop Hrhs. rewrite Hop. rewrite bool_decide_true by set_solver.
      unfold notation_to_sphinx. rewrite Hrhs. simpl.
      split; [done|]. split; [done|]. split; [|split].
      * intros st. eexists. split; [apply production_record_name_run|].
        unfold token_lookup. simpl. apply lookup_insert_eq.
      * intros st Hfresh. eexists. unfold add_target_and_index.
        cbn [name_truthy ProductionObject]. unfold bind at 1.
        unfold add_target. cbn [target_id ProductionObject].
        change (ProductionObject_target_id name) with tid.
        unfold bind at 1, gets at 1. rewrite decide_False by done.
        unfold bind at 1. unfold bind at 1.
        unfold note_explicit_target, modify at 1.
        cbn [record_name ProductionObject].
        rewrite production_record_name_run.
        cbn [add_index_entry ProductionObject]. unfold bind, ret. simpl.
        split; [reflexivity|]. unfold token_lookup. simpl.
        rewrite lookup_insert_eq. split; [done|]. set_solver.
      * intros st Hin. unfold add_target_and_index.
        cbn [name_truthy ProductionObject]. unfold bind at 1.
        rewrite add_target_existing by exact Hin. reflexivity.
    + intros Hop Hrhs. rewrite Hop. rewrite bool_decide_true by set_solver.
      unfold notation_to_sphinx. rewrite Hrhs. simpl. done.
    + intros Hne1 Hne2. rewrite bool_decide_false; [done|].
      rewrite !elem_of_cons, elem_of_nil. intros [?|[?|[]]]; congruence.
  - intros Hlen. unfold ProductionObject_handle_signature.
    destruct (Py.split_ws 2 signature) as [|p1 [|p2 [|p3 [|p4 l]]]]; done.
Qed.

(** ** Loops over the registry *)

Lemma state_eq (st1 st2 : state) :
  objects st1 = objects st2 → std_objects st1 = std_objects st2 →
  docname st1 = docname st2 → document_ids st1 = document_ids st2 →
  warnings st1 = warnings st2 → index_entries st1 = index_entries st2 →
  st1 = st2.
Proof. destruct st1, st2; simpl; intros; subst; done. Qed.

Lemma for_cons {A} (x : A) (l : list A) (body : A → M unit) (st : state) :
  for_ (x :: l) body st =
    match body x st with
    | (Ok _, st') => for_ l body st'
    | (Raise e, st') => (Raise e, st')
    end.
Proof. reflexivity. Qed.

Lemma set_objects_insert_id (sd : string) (cur : gmap string obj) (st : state) :
  objects st !! sd = Some cur → set_objects (<[sd := cur]>) st = st.
Proof. intros H. apply state_eq; simpl; try done. by apply insert_id. Qed.

(** ** Clearing a document *)

Lemma delitem_run (sd name : string) (cur : gmap string obj) (o : obj)
    (st : state) :
  objects st !! sd = Some cur → cur !! name = Some o →
  delitem sd name st = (Ok tt, set_objects (<[sd := delete name cur]>) st).
Proof.
  intros Hsd Hname. run_monad. rewrite Hsd. simpl. rewrite Hname.
  unfold set_objects. simpl.
  by rewrite (alter_lookup_insert _ _ _ _ Hsd).
Qed.

Lemma clear_items_run (doc sd : string) (items : list (string * obj)) :
  ∀ (cur : gmap string obj) (st : state),
    objects st !! sd = Some cur → NoDup items.*1 →
    (∀ n o, (n, o) ∈ items → cur !! n = Some o) →
    ∃ cur',
      for_ items (clear_item doc sd) st
        = (Ok tt, set_objects (<[sd := cur']>) st) ∧
      (∀ n o, (n, o) ∈ items → obj_docname o = doc → cur' !! n = None) ∧
      (∀ n, (∀ o, (n, o) ∈ items → obj_docname o ≠ doc) →
            cur' !! n = cur !! n).
Proof.
  induction items as [|[n [[d ty] tg]] rest IH]; intros cur st Hsd Hnd Hin.
  - exists cur. split; [|split].
    + simpl. unfold ret. by rewrite set_objects_insert_id.
    + intros n o Habs. by apply elem_of_nil in Habs.
    + done.
  - simpl in Hnd. apply NoDup_cons in Hnd as [Hn Hnd].
    rewrite for_cons. unfold clear_item at 1.
    destruct (decide (d = doc)) as [->|Hne].
    + rewrite (delitem_run sd n cur (doc, ty, tg)) by (try done; apply Hin; left).
      destruct (IH (delete n cur) (set_objects (<[sd := delete n cur]>) st))
        as (cur' & Hrun & Hgone & Hkept).
      * simpl. apply lookup_insert_eq.
      * done.
      * intros n' o' Hin'. rewrite lookup_delete_ne.
        -- apply Hin. by right.
        -- intros ->. apply Hn. apply list_elem_of_fmap. by exists (n', o').
      * exists cur'. split; [|split].
        -- rewrite Hrun. f_equal. apply state_eq; simpl; try done.
           apply insert_insert_eq.
        -- intros n' o' [Heq|Hin']%elem_of_cons Hdoc.
           ++ simplify_eq. rewrite Hkept; [apply lookup_delete_eq|].
              intros o Ho. exfalso. apply Hn. apply list_elem_of_fmap.
              by exists (n, o).
           ++ by apply (Hgone n' o').
        -- intros n' Hall. rewrite Hkept.
           ++ apply lookup_delete_ne. intros ->.
              by apply (Hall (doc, ty, tg)); [left|].
           ++ intros o Ho. apply Hall. by right.
    + unfold ret at 1.
      destruct (IH cur st Hsd Hnd) as (cur' & Hrun & Hgone & Hkept).
      { intros n' o' Hin'. apply Hin. by right. }
      exists cur'. split; [done|]. split.
      * intros n' o' [Heq|Hin']%elem_of_cons Hdoc.
        -- by simplify_eq.
        -- by apply (Hgone n' o').
      * intros n' Hall. apply Hkept. intros o Ho. apply Hall. by right.
Qed.

Lemma clear_subdomain_run (doc sd : string) (sub : gmap string obj)
    (st : state) :
  objects st !! sd = Some sub →
  for_ (map_to_list sub) (clear_item doc sd) st
    = (Ok tt, set_objects (<[sd := cleared doc sub]>) st).
Proof.
  intros Hsd.
  destruct (clear_items_run doc sd (map_to_list sub) sub st Hsd)
    as (cur' & Hrun & Hgone & Hkept).
  { apply NoDup_fst_map_to_list. }
  { intros n o. by rewrite elem_of_map_to_list. }
  rewrite Hrun. do 3 f_equal. apply map_eq. intros n. unfold cleared.
  destruct (sub !! n) as [o|] eqn:Hn.
  - destruct (decide (obj_docname o = doc)) as [Hd|Hd].
    + rewrite (Hgone n o); [|by apply elem_of_map_to_list|done].
      symmetry. apply map_lookup_filter_None. right. intros o' Ho'.
      simpl. intros Hneg. apply Hneg. by simplify_eq.
    + rewrite Hkept.
      * rewrite Hn. symmetry. by apply map_lookup_filter_Some.
      * intros o' Ho'%elem_of_map_to_list. by simplify_eq.
  - rewrite Hkept.
    + rewrite Hn. symmetry. apply map_lookup_filter_None. by left.
    + intros o' Ho'%elem_of_map_to_list. by simplify_eq.
Qed.

Lemma clear_subdomains_run (doc : string)
    (subs : list (string * gmap string obj)) :
  ∀ st : state,
    NoDup subs.*1 →
    (∀ sd sub, (sd, sub) ∈ subs → objects st !! sd = Some sub) →
    ∃ objs',
      for_ subs (λ '(sd, subdomain_objects),
                   for_ (map_to_list subdomain_objects) (clear_item doc sd)) st
        = (Ok tt, set_objects (λ _, objs') st) ∧
      ∀ sd, objs' !! sd =
              if decide (sd ∈ subs.*1) then cleared doc <$> objects st !! sd
              else objects st !! sd.
Proof.
  induction subs as [|[sd sub] rest IH]; intros st Hnd Hin.
  - exists (objects st). split; [|done].
    simpl. unfold ret. f_equal. by apply state_eq.
  - simpl in Hnd. apply NoDup_cons in Hnd as [Hsd Hnd].
    rewrite for_cons. rewrite clear_subdomain_run by (apply Hin; left).
    destruct (IH (set_objects (<[sd := cleared doc sub]>) st) Hnd)
      as (objs' & Hrun & Hobjs).
    { intros sd' sub' Hin'. simpl. rewrite lookup_insert_ne.
      - apply Hin. by right.
      - intros ->. apply Hsd. apply list_elem_of_fmap. by exists (sd', sub'). }
    exists objs'. split.
    + by rewrite Hrun.
    + intros k. rewrite Hobjs. simpl.
      destruct (decide (k = sd)) as [->|Hk].
      * rewrite decide_False by done.
        rewrite decide_True by left.
        rewrite lookup_insert_eq. by rewrite (Hin sd sub) by left.
      * rewrite lookup_insert_ne by done.
        destruct (decide (k ∈ rest.*1)).
        -- by rewrite decide_True by (by right).
        -- rewrite decide_False; [done|].
           intros [?|?]%elem_of_cons; done.
Qed.

Lemma clear_doc_run (doc : string) (st : state) :
  clear_doc doc st = (Ok tt, set_objects (fmap (cleared doc)) st).
Proof.
  unfold clear_doc. unfold bind at 1, gets at 1.
  destruct (clear_subdomains_run doc (map_to_list (objects st)) st)
    as (objs' & Hrun & Hobjs).
  { apply NoDup_fst_map_to_list. }
  { intros sd sub. by rewrite elem_of_map_to_list. }
  rewrite Hrun. f_equal. apply state_eq; simpl; try done.
  apply map_eq. intros sd. rewrite Hobjs, lookup_fmap.
  case_decide as Hsd; [done|].
  destruct (objects st !! sd) as [sub|] eqn:Hsub; [|done].
  exfalso. apply Hsd. apply list_elem_of_fmap. exists (sd, sub).
  split; [done|]. by apply elem_of_map_to_list.
Qed.

(** C4: [clear_doc d] never raises; in every subdomain it removes exactly
    the entries whose origin is [d] and leaves the others, and everything
    else, as they were; a reference to a name that [d] owned is unresolved
    afterwards. *)
Theorem C4_clear_doc (doc : string) (st : state) :
  ∃ st',
    clear_doc doc st = (Ok tt, st') ∧
    (∀ sd, objects st !! sd = None → objects st' !! sd = None) ∧
    (∀ sd names, objects st !! sd = Some names →
       ∃ names', objects st' !! sd = Some names' ∧
         ∀ name o, names' !! name = Some o ↔
                   names !! name = Some o ∧ obj_docname o ≠ doc) ∧
    (std_objects st' = std_objects st ∧ warnings st' = warnings st ∧
     document_ids st' = document_ids st ∧ docname st' = docname st) ∧
    (∀ fromdoc sd names name o,
       sd ≠ "index" → objects st !! sd = Some names →
       names !! name = Some o → obj_docname o = doc →
       resolve_xref (objects st') fromdoc sd name = Ok None).
Proof.
  eexists. split; [apply clear_doc_run|]. simpl.
  split; [|split; [|split]].
  - intros sd Hsd. by rewrite lookup_fmap, Hsd.
  - intros sd names Hsd. exists (cleared doc names).
    split; [by rewrite lookup_fmap, Hsd|].
    intros name o. unfold cleared. by rewrite map_lookup_filter_Some.
  - done.
  - intros fromdoc sd names name o Hidx Hsd Hname Hdoc.
    unfold resolve_xref. rewrite decide_False by done.
    rewrite lookup_fmap, Hsd. simpl.
    assert (cleared doc names !! name = None) as ->; [|done].
    unfold cleared. apply map_lookup_filter_None. right.
    intros o' Ho'. simpl. intros Hneg. apply Hneg. by simplify_eq.
Qed.

(** ** Merging a batch *)

Lemma merge_item_run (docnames : list string) (sd name : string) (o : obj)
    (cur : gmap string obj) (st : state) :
  objects st !! sd = Some cur →
  merge_item docnames sd (name, o) st =
    (Ok tt,
     if bool_decide (obj_docname o ∈ docnames) then
       set_objects (<[sd := <[name := o]> cur]>)
         (set_warnings (λ ws, ws ++ merge_warning docnames cur (name, o)) st)
     else st).
Proof.
  intros Hsd. destruct o as [[d ty] tg].
  unfold merge_item, merge_warning, obj_docname.
  simpl. destruct (bool_decide (d ∈ docnames)); [|done].
  run_monad. rewrite Hsd. simpl.
  destruct (cur !! name) as [other|]; simpl;
    unfold set_objects, set_warnings; simpl;
    rewrite (alter_lookup_insert _ _ _ _ Hsd), ?app_nil_r; done.
Qed.

Lemma merge_warning_ext (docnames : list string) (cur1 cur2 : gmap string obj)
    (items : list (string * obj)) :
  (∀ n o, (n, o) ∈ items → cur1 !! n = cur2 !! n) →
  items ≫= merge_warning docnames cur1 = items ≫= merge_warning docnames cur2.
Proof.
  intros Hsame. apply Forall_bind_ext, Forall_forall. intros [n o] Hin.
  unfold merge_warning. simpl. by rewrite (Hsame n o).
Qed.

Lemma merge_items_run (docnames : list string) (sd : string)
    (items : list (string * obj)) :
  ∀ (cur : gmap string obj) (st : state),
    objects st !! sd = Some cur → NoDup items.*1 →
    ∃ cur',
      for_ items (merge_item docnames sd) st
        = (Ok tt,
           set_objects (<[sd := cur']>)
             (set_warnings
                (λ ws, ws ++ (items ≫= merge_warning docnames cur)) st)) ∧
      (∀ n o, (n, o) ∈ items → obj_docname o ∈ docnames → cur' !! n = Some o) ∧
      (∀ n, (∀ o, (n, o) ∈ items → obj_docname o ∉ docnames) →
            cur' !! n = cur !! n).
Proof.
  induction items as [|[n o] rest IH]; intros cur st Hsd Hnd.
  - exists cur. split; [|split].
    + simpl. unfold ret. f_equal. apply state_eq; simpl; try done.
      * symmetry. by apply insert_id.
      * by rewrite app_nil_r.
    + intros n o Habs. by apply elem_of_nil in Habs.
    + done.
  - simpl in Hnd. apply NoDup_cons in Hnd as [Hn Hnd].
    assert (∀ o', (n, o') ∉ rest) as Hfresh.
    { intros o' Hin. apply Hn. apply list_elem_of_fmap. by exists (n, o'). }
    rewrite for_cons, (merge_item_run docnames sd n o cur st Hsd).
    rewrite bind_cons.
    destruct (bool_decide (obj_docname o ∈ docnames)) eqn:Hdoc.
    + apply bool_decide_eq_true in Hdoc.
      destruct (IH (<[n := o]> cur)
                  (set_objects (<[sd := <[n := o]> cur]>)
                     (set_warnings
                        (λ ws, ws ++ merge_warning docnames cur (n, o)) st)))
        as (cur' & Hrun & Htaken & Hkept); [|exact Hnd|].
      { simpl. apply lookup_insert_eq. }
      exists cur'. split; [|split].
      * rewrite Hrun. f_equal. apply state_eq; simpl; try done.
        -- apply insert_insert_eq.
        -- rewrite <- app_assoc. do 2 f_equal.
           apply merge_warning_ext. intros n' o' Hin.
           apply lookup_insert_ne. intros ->. by apply (Hfresh o').
      * intros n' o' [Heq|Hin]%elem_of_cons Hd.
        -- simplify_eq. rewrite Hkept; [apply lookup_insert_eq|].
           intros o'' Hin. by apply Hfresh in Hin.
        -- by apply Htaken.
      * intros n' Hall. rewrite Hkept.
        -- apply lookup_insert_ne. intros ->.
           by apply (Hall o); [left|].
        -- intros o' Hin. apply Hall. by right.
    + apply bool_decide_eq_false in Hdoc.
      destruct (IH cur st Hsd Hnd) as (cur' & Hrun & Htaken & Hkept).
      exists cur'. split; [|split].
      * rewrite Hrun. unfold merge_warning at 2. simpl.
        by rewrite bool_decide_false.
      * intros n' o' [Heq|Hin]%elem_of_cons Hd.
        -- by simplify_eq.
        -- by apply Htaken.
      * intros n' Hall. apply Hkept. intros o' Hin. apply Hall. by right.
Qed.

Lemma merge_subdomain_run (docnames : list string) (sd : string)
    (their cur : gmap string obj) (st : state) :
  objects st !! sd = Some cur →
  for_ (map_to_list their) (merge_item docnames sd) st
    = (Ok tt,
       set_objects (<[sd := merged_part docnames their ∪ cur]>)
         (set_warnings
            (λ ws, ws ++ (map_to_list their ≫= merge_warning docnames cur))
            st)).
Proof.
  intros Hsd.
  destruct (merge_items_run docnames sd (map_to_list their) cur st Hsd)
    as (cur' & Hrun & Htaken & Hkept).
  { apply NoDup_fst_map_to_list. }
  rewrite Hrun. do 3 f_equal. apply map_eq. intros n. unfold merged_part.
  destruct (their !! n) as [o|] eqn:Hn.
  - destruct (decide (obj_docname o ∈ docnames)) as [Hd|Hd].
    + rewrite (Htaken n o); [|by apply elem_of_map_to_list|done].
      symmetry. apply lookup_union_Some_l.
      by apply map_lookup_filter_Some.
    + rewrite Hkept.
      * symmetry. apply lookup_union_r. apply map_lookup_filter_None.
        right. intros o' Ho'. simpl. by simplify_eq.
      * intros o' Ho'%elem_of_map_to_list. by simplify_eq.
  - rewrite Hkept.
    + symmetry. apply lookup_union_r. apply map_lookup_filter_None. by left.
    + intros o' Ho'%elem_of_map_to_list. by simplify_eq.
Qed.

Lemma merge_warnings_ext (docnames : list string)
    (ours1 ours2 : gmap string (gmap string obj))
    (batches : list (string * gmap string obj)) :
  (∀ sd their, (sd, their) ∈ batches → ours1 !! sd = ours2 !! sd) →
  merge_warnings docnames ours1 batches = merge_warnings docnames ours2 batches.
Proof.
  intros Hsame. apply Forall_bind_ext, Forall_forall. intros [sd their] Hin.
  by rewrite (Hsame sd their).
Qed.

Lemma merge_batches_run (docnames : list string)
    (batches : list (string * gmap string obj)) :
  ∀ st : state,
    NoDup batches.*1 →
    (∀ sd their, (sd, their) ∈ batches → is_Some (objects st !! sd)) →
    ∃ objs',
      for_ batches (λ '(subdomain, their_objects),
          our_objects <~ getitem_objects subdomain ;;
          for_ (map_to_list their_objects) (merge_item docnames our_objects)) st
        = (Ok tt,
           set_objects (λ _, objs')
             (set_warnings
                (λ ws, ws ++ merge_warnings docnames (objects st) batches) st)) ∧
      (∀ sd their names, (sd, their) ∈ batches → objects st !! sd = Some names →
         objs' !! sd = Some (merged_part docnames their ∪ names)) ∧
      (∀ sd, sd ∉ batches.*1 → objs' !! sd = objects st !! sd).
Proof.
  induction batches as [|[sd their] rest IH]; intros st Hnd Hin.
  - exists (objects st). split; [|split]; [|by intros ??? ?%elem_of_nil|done].
    simpl. unfold ret. f_equal. apply state_eq; simpl; try done.
    by rewrite app_nil_r.
  - simpl in Hnd. apply NoDup_cons in Hnd as [Hsd Hnd].
    assert (∀ their', (sd, their') ∉ rest) as Hfresh.
    { intros t Ht. apply Hsd. apply list_elem_of_fmap. by exists (sd, t). }
    destruct (Hin sd their) as [names Hnames]; [left|].
    rewrite for_cons. unfold bind at 1, getitem_objects at 1.
    rewrite Hnames. rewrite (merge_subdomain_run _ _ _ names) by done.
    edestruct (IH (set_objects (<[sd := merged_part docnames their ∪ names]>)
                 (set_warnings
                    (λ ws, ws ++ (map_to_list their ≫=
                                    merge_warning docnames names)) st)))
      as (objs' & Hrun & Hbatch & Hother); [exact Hnd| |].
    { intros sd' their' Hin'. simpl. rewrite lookup_insert_ne.
      - apply (Hin sd' their'). by right.
      - intros ->. by apply (Hfresh their'). }
    exists objs'. split; [|split].
    + rewrite Hrun. f_equal. apply state_eq; simpl; try done.
      rewrite <- app_assoc. f_equal. rewrite Hnames. simpl. f_equal.
      apply merge_warnings_ext. intros sd' their' Hin'.
      apply lookup_insert_ne. intros ->. by apply (Hfresh their').
    + intros sd' their' names' [Heq|Hin']%elem_of_cons Hsd'.
      * simplify_eq. rewrite Hother by done. simpl.
        apply lookup_insert_eq.
      * apply (Hbatch sd' their'); [done|]. simpl. rewrite lookup_insert_ne.
        -- done.
        -- intros ->. by apply (Hfresh their').
    + intros sd' Hsd'. apply not_elem_of_cons in Hsd' as [Hne Hsd'].
      rewrite Hother by done. simpl. by apply lookup_insert_ne.
Qed.

Lemma merge_domaindata_run (docnames : list string)
    (otherdata : gmap string (gmap string obj)) (st : state) :
  (∀ sd their, otherdata !! sd = Some their → is_Some (objects st !! sd)) →
  ∃ objs',
    merge_domaindata docnames otherdata st
      = (Ok tt,
         set_objects (λ _, objs')
           (set_warnings
              (λ ws, ws ++ merge_warnings docnames (objects st)
                                (map_to_list otherdata)) st)) ∧
    ∀ sd, objs' !! sd =
            (λ names, merged_part docnames (default ∅ (otherdata !! sd)) ∪ names)
              <$> objects st !! sd.
Proof.
  intros Hdom.
  destruct (merge_batches_run docnames (map_to_list otherdata) st)
    as (objs' & Hrun & Hbatch & Hother).
  { apply NoDup_fst_map_to_list. }
  { intros sd their Hin%elem_of_map_to_list. by apply (Hdom sd their). }
  exists objs'. split; [exact Hrun|]. intros sd.
  destruct (otherdata !! sd) as [their|] eqn:Hsd; simpl.
  - destruct (Hdom sd their Hsd) as [names Hnames]. rewrite Hnames. simpl.
    apply (Hbatch sd their); [|done]. by apply elem_of_map_to_list.
  - rewrite Hother.
    + destruct (objects st !! sd); simpl; [|done].
      unfold merged_part. by rewrite map_filter_empty, (left_id_L ∅ (∪)).
    + intros ([sd' their] & -> & Hin%elem_of_map_to_list)%list_elem_of_fmap.
      simpl in Hsd. congruence.
Qed.

Lemma lookup_merged_part_union (docnames : list string)
    (their names : gmap string obj) (name : string) :
  (merged_part docnames their ∪ names) !! name =
    match their !! name with
    | Some o =>
        if bool_decide (obj_docname o ∈ docnames) then Some o
        else names !! name
    | None => names !! name
    end.
Proof.
  unfold merged_part. destruct (their !! name) as [o|] eqn:Hname.
  - case_bool_decide as Hd.
    + apply lookup_union_Some_l. by apply map_lookup_filter_Some.
    + apply lookup_union_r. apply map_lookup_filter_None. right.
      intros o' Ho'. simpl. by simplify_eq.
  - apply lookup_union_r. apply map_lookup_filter_None. by left.
Qed.

Lemma elem_of_merge_warnings (docnames : list string)
    (ours otherdata : gmap string (gmap string obj)) (w : warning) :
  w ∈ merge_warnings docnames ours (map_to_list otherdata) ↔
  ∃ sd their names name o other,
    otherdata !! sd = Some their ∧ their !! name = Some o ∧
    obj_docname o ∈ docnames ∧
    ours !! sd = Some names ∧ names !! name = Some other ∧
    w = DuplicateDeclaration (obj_docname o) name (obj_docname other).
Proof.
  unfold merge_warnings. rewrite list_elem_of_bind. split.
  - intros ([sd their] & Hw & Hsd%elem_of_map_to_list).
    apply list_elem_of_bind in Hw as ([name o] & Hw & Hname%elem_of_map_to_list).
    unfold merge_warning in Hw. simpl in Hw.
    case_bool_decide as Hd; [|by apply elem_of_nil in Hw].
    destruct (ours !! sd) as [names|] eqn:Hours; simpl in Hw;
      [|by rewrite lookup_empty in Hw; apply elem_of_nil in Hw].
    destruct (names !! name) as [other|] eqn:Hother;
      [|by apply elem_of_nil in Hw].
    apply list_elem_of_singleton in Hw.
    by exists sd, their, names, name, o, other.
  - intros (sd & their & names & name & o & other & Hsd & Hname & Hd &
            Hours & Hother & ->).
    exists (sd, their). split; [|by apply elem_of_map_to_list].
    apply list_elem_of_bind. exists (name, o).
    split; [|by apply elem_of_map_to_list].
    unfold merge_warning. simpl. rewrite bool_decide_true by done.
    rewrite Hours. simpl. rewrite Hother. by apply list_elem_of_singleton.
Qed.

(** C3: when every subdomain of the batch exists in the registry,
    [merge_domaindata] never raises; it writes into each subdomain exactly
    the batch entries whose document is in [docnames] and leaves every other
    name as it was; it warns once for each entry it writes over a name that
    was present; and merging the same batch again with the same [docnames]
    leaves the registry as the first merge left it. *)
Theorem C3_merge_domaindata (docnames : list string)
    (otherdata : gmap string (gmap string obj)) (st : state) :
  (∀ sd their, otherdata !! sd = Some their → is_Some (objects st !! sd)) →
  ∃ st1 st2 ws,
    merge_domaindata docnames otherdata st = (Ok tt, st1) ∧
    (∀ sd, objects st !! sd = None → objects st1 !! sd = None) ∧
    (∀ sd names, objects st !! sd = Some names →
       ∃ names', objects st1 !! sd = Some names' ∧
         ∀ name, names' !! name =
           match otherdata !! sd ≫= (.!! name) with
           | Some o =>
               if bool_decide (obj_docname o ∈ docnames) then Some o
               else names !! name
           | None => names !! name
           end) ∧
    warnings st1 = warnings st ++ ws ∧
    (∀ w, w ∈ ws ↔
       ∃ sd their names name o other,
         otherdata !! sd = Some their ∧ their !! name = Some o ∧
         obj_docname o ∈ docnames ∧
         objects st !! sd = Some names ∧ names !! name = Some other ∧
         w = DuplicateDeclaration (obj_docname o) name (obj_docname other)) ∧
    merge_domaindata docnames otherdata st1 = (Ok tt, st2) ∧
    objects st2 = objects st1.
Proof.
  intros Hdom.
  destruct (merge_domaindata_run docnames otherdata st Hdom)
    as (objs1 & Hrun1 & Hobjs1).
  set (st1 := set_objects (λ _, objs1)
                (set_warnings
                   (λ ws, ws ++ merge_warnings docnames (objects st)
                                     (map_to_list otherdata)) st)) in *.
  destruct (merge_domaindata_run docnames otherdata st1)
    as (objs2 & Hrun2 & Hobjs2).
  { intros sd their Hsd. simpl. rewrite Hobjs1.
    destruct (Hdom sd their Hsd) as [names ->]. by eexists. }
  eexists st1, _, _. split; [exact Hrun1|].
  split; [|split; [|split; [|split; [|split]]]].
  - intros sd Hsd. simpl. by rewrite Hobjs1, Hsd.
  - intros sd names Hsd. eexists. split.
    + simpl. by rewrite Hobjs1, Hsd.
    + intros name. destruct (otherdata !! sd) as [their|]; simpl.
      * apply lookup_merged_part_union.
      * unfold merged_part.
        by rewrite map_filter_empty, (left_id_L ∅ (∪)).
  - reflexivity.
  - intros w. apply elem_of_merge_warnings.
  - exact Hrun2.
  - simpl. apply map_eq. intros sd. rewrite Hobjs2. simpl. rewrite Hobjs1.
    destruct (objects st !! sd) as [names|]; simpl; [|done].
    by rewrite (assoc_L (∪)), (idemp_L (∪)).
Qed.

(** ** The subdomain indices *)

Lemma chain_items_run (data : gmap string (gmap string obj))
    (subdomains : list string) :
  (∀ sd, sd ∈ subdomains → is_Some (data !! sd)) →
  ∃ items,
    chain_items data subdomains = Ok items ∧
    ∀ name o, (name, o) ∈ items ↔
      ∃ sd names, sd ∈ subdomains ∧ data !! sd = Some names ∧
                  names !! name = Some o.
Proof.
  induction subdomains as [|sd rest IH]; intros Hall.
  - exists []. split; [done|]. intros name o. split.
    + by intros ?%elem_of_nil.
    + by intros (sd & names & ?%elem_of_nil & _).
  - destruct IH as (more & Hmore & Hin).
    { intros sd' Hsd'. apply Hall. by right. }
    destruct (Hall sd) as [names Hnames]; [left|].
    exists (map_to_list names ++ more). split.
    + simpl. by rewrite Hnames, Hmore.
    + intros name o. rewrite elem_of_app, elem_of_map_to_list, Hin. split.
      * intros [Hhere|(sd' & names' & Hsd' & Hnames' & Hname)].
        -- exists sd, names. split; [left|done].
        -- exists sd', names'. split; [by right|done].
      * intros (sd' & names' & [->|Hsd']%elem_of_cons & Hnames' & Hname).
        -- left. by simplify_eq.
        -- right. by exists sd', names'.
Qed.

Lemma rows_of_cons (docnames : option (list string)) (k : string)
    (it : string * obj) (items : list (string * obj)) :
  rows_of docnames k (it :: items) =
    (if decide (kept docnames it = true ∧ bucket_key it.1 = Ok k)
     then [row_of_item it] else []) ++ rows_of docnames k items.
Proof. unfold rows_of. rewrite filter_cons. by case_decide. Qed.

Lemma bucket_key_nonempty (name : string) :
  name ≠ EmptyString → ∃ k, bucket_key name = Ok k.
Proof. destruct name; [done|]. intros _. by eexists. Qed.

(** The loop of [generate] appends each kept item to the bucket of its first
    character and creates no other bucket. *)
Lemma generate_loop (docnames : option (list string))
    (items : list (string * obj)) :
  ∀ content : gmap string (list index_row),
    (∀ it, it ∈ items → kept docnames it = true → it.1 ≠ EmptyString) →
    ∃ content',
      fold_res (generate_step docnames) content items = Ok content' ∧
      ∀ k, content' !! k =
             match rows_of docnames k items with
             | [] => content !! k
             | rows => Some (default [] (content !! k) ++ rows)
             end.
Proof.
  induction items as [|it rest IH]; intros content Hne.
  - exists content. by split.
  - destruct it as [name [[doc ty] anchor]].
    assert (∀ it, it ∈ rest → kept docnames it = true → it.1 ≠ EmptyString)
      as Hrest by (intros it Hit; apply Hne; by right).
    simpl. unfold generate_step at 1.
    destruct (skip_docname docnames doc) eqn:Hskip.
    + destruct (IH content Hrest) as (content' & Hrun & Hlook).
      exists content'. split; [done|]. intros k.
      rewrite rows_of_cons, decide_False; [apply Hlook|].
      unfold kept, obj_docname. simpl. rewrite Hskip. by intros [? _].
    + destruct (bucket_key_nonempty name) as [k0 Hk0].
      { apply (Hne (name, (doc, ty, anchor))); [left|].
        unfold kept, obj_docname. simpl. by rewrite Hskip. }
      rewrite Hk0. simpl.
      destruct (IH (<[k0 := default [] (content !! k0) ++
                              [make_row name doc anchor]]> content) Hrest)
        as (content' & Hrun & Hlook).
      exists content'. split; [done|]. intros k.
      rewrite Hlook, rows_of_cons. simpl.
      destruct (decide (k = k0)) as [->|Hk].
      * rewrite lookup_insert_eq, decide_True; simpl.
        -- destruct (rows_of docnames k0 rest); simpl; [done|].
           by rewrite <- app_assoc.
        -- split; [|done]. unfold kept, obj_docname. simpl. by rewrite Hskip.
      * rewrite lookup_insert_ne by done. rewrite decide_False; [done|].
        intros [_ Heq]. congruence.
Qed.

Lemma insert_by_perm {A} (key : A → string) (x : A) (l : list A) :
  insert_by key x l ≡ₚ x :: l.
Proof.
  induction l as [|y l IH]; simpl; [done|].
  case_decide; [done|]. rewrite IH. apply Permutation_swap.
Qed.

Lemma insert_by_sorted {A} (key : A → string) (x : A) (l : list A) :
  StronglySorted (λ x y, String.le (key x) (key y)) l →
  StronglySorted (λ x y, String.le (key x) (key y)) (insert_by key x l).
Proof.
  induction 1 as [|y l Hl IH Hy]; simpl.
  - repeat constructor.
  - case_decide as Hxy.
    + constructor; [by constructor|]. constructor; [done|].
      eapply Forall_impl; [exact Hy|]. intros z Hz. simpl in *.
      by etrans.
    + constructor; [done|]. rewrite insert_by_perm. constructor; [|done].
      by destruct (total String.le (key x) (key y)).
Qed.

Lemma sorted_by_sorted {A} (key : A → string) (l : list A) :
  StronglySorted (λ x y, String.le (key x) (key y)) (sorted_by key l).
Proof.
  induction l as [|x l IH]; simpl; [constructor|]. by apply insert_by_sorted.
Qed.

Lemma sorted_by_perm {A} (key : A → string) (l : list A) :
  sorted_by key l ≡ₚ l.
Proof.
  induction l as [|x l IH]; simpl; [done|]. by rewrite insert_by_perm, IH.
Qed.

(** The sort is stable: the elements of one key keep the order they had. *)
Lemma sorted_by_stable {A} (key : A → string) (k : string) (l : list A) :
  filter (λ x, key x = k) (sorted_by key l) = filter (λ x, key x = k) l.
Proof.
  induction l as [|x l IH]; simpl; [done|].
  rewrite filter_cons, <- IH. clear IH.
  induction (sorted_by key l) as [|y l' IH]; simpl.
  - by rewrite filter_cons.
  - destruct (decide (String.le (key x) (key y))) as [Hxy|Hxy];
      [by rewrite filter_cons|].
    rewrite !(filter_cons _ y), IH.
    destruct (decide (key x = k)) as [Hx|Hx]; [|done].
    assert (key y ≠ k) as Hy by (intros Hy; apply Hxy; by rewrite Hx, Hy).
    rewrite !decide_False by done. done.
Qed.

Lemma StronglySorted_filter {A} (R : relation A) (P : A → Prop)
    `{∀ x, Decision (P x)} (l : list A) :
  StronglySorted R l → StronglySorted R (filter P l).
Proof.
  induction 1 as [|x l Hl IH Hx]; [constructor|].
  rewrite filter_cons. case_decide; [|done].
  constructor; [done|]. apply Forall_forall. intros y [_ Hy]%list_elem_of_filter.
  by eapply Forall_forall in Hx.
Qed.

Lemma StronglySorted_strict {A} (R : relation A) `{!AntiSymm (=) R}
    (l : list A) :
  StronglySorted R l → NoDup l → StronglySorted (strict R) l.
Proof.
  induction 1 as [|x l Hl IH Hx]; intros Hnd; [constructor|].
  apply NoDup_cons in Hnd as [Hx' Hnd]. constructor; [by apply IH|].
  apply Forall_forall. intros y Hy. split.
  - by eapply Forall_forall in Hx.
  - intros Hyx. eapply Forall_forall in Hx; [|done].
    assert (x = y) as -> by (by apply (anti_symm R)). done.
Qed.

Lemma list_elem_of_join_snd {K A} (ls : list (K * list A)) (y : A) :
  y ∈ mjoin ls.*2 ↔ ∃ kl, y ∈ kl.2 ∧ kl ∈ ls.
Proof.
  rewrite list_elem_of_join. split.
  - intros (l & Hy & (kl & -> & Hkl)%list_elem_of_fmap). by exists kl.
  - intros (kl & Hy & Hkl). exists kl.2. split; [done|].
    apply list_elem_of_fmap. by exists kl.
Qed.

(** Buckets laid end to end are sorted when each is and the order of the
    buckets agrees with the order of their elements. *)
Lemma StronglySorted_join {K A} (Rk : relation K) (R : relation A)
    (ls : list (K * list A)) :
  StronglySorted Rk ls.*1 →
  (∀ k l, (k, l) ∈ ls → StronglySorted R l) →
  (∀ k1 l1 k2 l2 x y, (k1, l1) ∈ ls → (k2, l2) ∈ ls → Rk k1 k2 →
                      x ∈ l1 → y ∈ l2 → R x y) →
  StronglySorted R (mjoin ls.*2).
Proof.
  induction ls as [|[k l] ls IH]; intros Hk Hl Hcross; [constructor|].
  simpl in *. apply StronglySorted_cons in Hk as [Hhd Hk].
  apply StronglySorted_app_2.
  - intros x y Hx ([k' l'] & Hy & Hl')%list_elem_of_join_snd. simpl in Hy.
    apply (Hcross k l k' l'); [left|by right| |done|done].
    eapply Forall_forall in Hhd; [done|].
    apply list_elem_of_fmap. by exists (k', l').
  - apply (Hl k). left.
  - apply IH; [done| |].
    + intros k' l' Hin. apply (Hl k'). by right.
    + intros k1 l1 k2 l2 x y H1 H2. apply Hcross; by right.
Qed.

(** A name whose bucket comes strictly first comes first. *)
Lemma bucket_order (n1 n2 k1 k2 : string) :
  bucket_key n1 = Ok k1 → bucket_key n2 = Ok k2 →
  strict String.le k1 k2 → name_le n1 n2.
Proof.
  destruct n1 as [|c1 s1], n2 as [|c2 s2]; simpl; try done.
  intros [= <-] [= <-] [Hle Hnle].
  unfold name_le, String.le, String.leb in *. simpl in *.
  destruct (Ascii.compare (Py.lower_char c1) (Py.lower_char c2)) eqn:Hc.
  - apply Ascii.compare_eq_iff in Hc. exfalso. apply Hnle.
    rewrite Hc. unfold Ascii.compare. by rewrite N.compare_refl.
  - done.
  - done.
Qed.

Lemma rows_of_sorted (docnames : option (list string)) (k : string)
    (items : list (string * obj)) :
  StronglySorted (λ x y, String.le (Py.lower x.1) (Py.lower y.1)) items →
  StronglySorted (λ r1 r2, name_le (row_name r1) (row_name r2))
    (rows_of docnames k items).
Proof.
  intros Hsorted. unfold rows_of.
  eapply StronglySorted_fmap; [|by apply StronglySorted_filter].
  by intros x y.
Qed.

Lemma elem_of_rows_of (docnames : option (list string)) (k : string)
    (items : list (string * obj)) (r : index_row) :
  r ∈ rows_of docnames k items ↔
  ∃ it, it ∈ items ∧ kept docnames it = true ∧ bucket_key it.1 = Ok k ∧
        r = row_of_item it.
Proof.
  unfold rows_of. rewrite list_elem_of_fmap. split.
  - intros (it & -> & [[Hkept Hk] Hin]%list_elem_of_filter). by exists it.
  - intros (it & Hin & Hkept & Hk & ->). exists it. split; [done|].
    by apply list_elem_of_filter.
Qed.

Lemma kept_spec (docnames : option (list string)) (it : string * obj) :
  kept docnames it = true ↔
  match docnames with
  | Some (d :: ds) => obj_docname it.2 ∈ d :: ds
  | _ => True
  end.
Proof.
  unfold kept, skip_docname. destruct docnames as [[|d ds]|]; simpl; try done.
  rewrite negb_involutive. apply bool_decide_eq_true.
Qed.

(** [generate] under its preconditions: the listed subdomains exist and no
    entry of theirs that the restriction lets through has an empty name.
    [content] is the dictionary of buckets before the final sort. *)
Lemma generate_run (self : IndexClass) (data : gmap string (gmap string obj))
    (docnames : option (list string)) :
  (∀ sd, sd ∈ index_subdomains self → is_Some (data !! sd)) →
  (∀ sd names o, sd ∈ index_subdomains self → data !! sd = Some names →
                 names !! EmptyString = Some o →
                 kept docnames (EmptyString, o) = false) →
  ∃ items content,
    chain_items data (index_subdomains self) = Ok items ∧
    (∀ name o, (name, o) ∈ items ↔
       ∃ sd names, sd ∈ index_subdomains self ∧ data !! sd = Some names ∧
                   names !! name = Some o) ∧
    (∀ k, content !! k =
            match rows_of docnames k (sorted_by (λ x, Py.lower x.1) items) with
            | [] => None
            | rows => Some rows
            end) ∧
    generate self data docnames = Ok (sorted_by fst (map_to_list content), false).
Proof.
  intros Hsubs Hnames.
  destruct (chain_items_run data (index_subdomains self) Hsubs)
    as (items & Hchain & Hitems).
  destruct (generate_loop docnames (sorted_by (λ x, Py.lower x.1) items) ∅)
    as (content & Hloop & Hcontent).
  { intros [name o] Hin Hkept Hempty. simpl in Hempty. subst name.
    rewrite sorted_by_perm in Hin.
    apply Hitems in Hin as (sd & names & Hsd & Hdata & Hname).
    by rewrite (Hnames sd names o Hsd Hdata Hname) in Hkept. }
  exists items, content. split; [done|]. split; [done|]. split.
  - intros k. rewrite Hcontent, lookup_empty. simpl.
    by destruct (rows_of _ _ _).
  - unfold generate. rewrite Hchain. simpl. by rewrite Hloop.
Qed.

Lemma elem_of_buckets (docnames : option (list string))
    (items : list (string * obj)) (content : gmap string (list index_row))
    (k : string) (rows : list index_row) :
  (∀ k, content !! k = match rows_of docnames k items with
                       | [] => None
                       | rows => Some rows
                       end) →
  (k, rows) ∈ sorted_by fst (map_to_list content) ↔
  rows = rows_of docnames k items ∧ rows ≠ [].
Proof.
  intros Hcontent. rewrite sorted_by_perm, elem_of_map_to_list, Hcontent.
  destruct (rows_of docnames k items) as [|r rs]; split.
  - done.
  - by intros [-> ?].
  - by intros [= <-].
  - by intros [-> _].
Qed.

Lemma buckets_keys_sorted (content : gmap string (list index_row)) :
  StronglySorted (strict String.le) (sorted_by fst (map_to_list content)).*1.
Proof.
  apply StronglySorted_strict; [apply _| |].
  - eapply StronglySorted_fmap; [|apply sorted_by_sorted]. by intros x y.
  - rewrite sorted_by_perm. apply NoDup_fst_map_to_list.
Qed.

(** C7, as stated, fails for an empty restriction: [generate] tests
    [docnames and ...], so with [docnames = []] it lists the entries of every
    document, here one of [doc1], which is not in the restriction. *)
Lemma C7_empty_restriction_not_filtered :
  generate CoqTacticIndex example_tactics (Some [])
    = Ok ([("s", [make_row "simpl" "doc1" "coq:tacn.simpl"])], false) ∧
  "doc1" ∉ ([] : list string).
Proof. split; [vm_compute; reflexivity | apply not_elem_of_nil]. Qed.

(** C7, amended: when the listed subdomains exist and no entry of theirs
    that the restriction lets through has an empty name, [generate] returns
    buckets in strictly increasing order of their
    letters, never collapsed; each bucket is not empty and holds rows whose
    name starts, lower-cased, with the bucket's letter; the rows are those of
    the entries of the listed subdomains, restricted to [docnames] when that
    is a non-empty list (an empty list, like [None], restricts nothing); and
    read bucket after bucket the rows are sorted by lower-cased name. *)
Theorem C7_generate (self : IndexClass) (data : gmap string (gmap string obj))
    (docnames : option (list string)) :
  (∀ sd, sd ∈ index_subdomains self → is_Some (data !! sd)) →
  (∀ sd names o, sd ∈ index_subdomains self → data !! sd = Some names →
                 names !! EmptyString = Some o →
                 kept docnames (EmptyString, o) = false) →
  ∃ content,
    generate self data docnames = Ok (content, false) ∧
    StronglySorted (strict String.le) content.*1 ∧
    (∀ k rows, (k, rows) ∈ content →
       rows ≠ [] ∧ ∀ r, r ∈ rows → bucket_key (row_name r) = Ok k) ∧
    (∀ r, r ∈ mjoin content.*2 ↔
       ∃ sd names name o,
         sd ∈ index_subdomains self ∧ data !! sd = Some names ∧
         names !! name = Some o ∧
         match docnames with
         | Some (d :: ds) => obj_docname o ∈ d :: ds
         | _ => True
         end ∧
         r = make_row name (obj_docname o) (obj_targetid o)) ∧
    StronglySorted (λ r1 r2, name_le (row_name r1) (row_name r2))
      (mjoin content.*2).
Proof.
  intros Hsubs Hnames.
  destruct (generate_run self data docnames Hsubs Hnames)
    as (items & content & Hchain & Hitems & Hcontent & Hrun).
  set (sorted := sorted_by (λ x, Py.lower x.1) items) in *.
  pose proof (λ k rows, elem_of_buckets docnames sorted content k rows Hcontent)
    as Hmem.
  assert (∀ k rows r, (k, rows) ∈ sorted_by fst (map_to_list content) →
            r ∈ rows → bucket_key (row_name r) = Ok k) as Hbucket.
  { intros k rows r [-> _]%Hmem Hr.
    by apply elem_of_rows_of in Hr as (it & _ & _ & Hk & ->). }
  eexists. split; [exact Hrun|].
  split; [apply buckets_keys_sorted|]. split; [|split].
  - intros k rows Hin. split.
    + by apply Hmem in Hin as [_ ?].
    + intros r Hr. by apply (Hbucket k rows).
  - intros r. rewrite list_elem_of_join_snd. split.
    + intros ([k rows] & Hr & [Hrows _]%Hmem).
      simpl in Hr. rewrite Hrows in Hr.
      apply elem_of_rows_of in Hr as ([name o] & Hin & Hkept & _ & ->).
      unfold sorted in Hin. rewrite sorted_by_perm in Hin.
      apply Hitems in Hin as (sd & names & Hsd & Hdata & Hname).
      exists sd, names, name, o. by rewrite <- (kept_spec docnames (name, o)).
    + intros (sd & names & name & o & Hsd & Hdata & Hname & Hkept & ->).
      destruct (bucket_key_nonempty name) as [k Hk].
      { intros ->.
        apply (proj2 (kept_spec docnames (EmptyString, o))) in Hkept.
        by rewrite (Hnames sd names o Hsd Hdata Hname) in Hkept. }
      assert (make_row name (obj_docname o) (obj_targetid o)
                ∈ rows_of docnames k sorted) as Hr.
      { apply elem_of_rows_of. exists (name, o). split; [|split; [|done]].
        - unfold sorted. rewrite sorted_by_perm. apply Hitems.
          by exists sd, names.
        - by apply kept_spec. }
      exists (k, rows_of docnames k sorted). split; [done|].
      apply Hmem. split; [done|].
      intros Hnil. rewrite Hnil in Hr. by apply elem_of_nil in Hr.
  - apply (StronglySorted_join (strict String.le)).
    + apply buckets_keys_sorted.
    + intros k rows [-> _]%Hmem.
      apply rows_of_sorted, sorted_by_sorted.
    + intros k1 l1 k2 l2 r1 r2 H1 H2 Hk Hr1 Hr2.
      apply (bucket_order _ _ k1 k2); [| |done].
      * by apply (Hbucket k1 l1).
      * by apply (Hbucket k2 l2).
Qed.

(** ** Index labels *)

(** C8, as stated, fails: the row [generate] builds for the tactic [simpl]
    is labelled [simpl], not [simpl (tacn)], the text [_add_index_entry]
    gives the entry of the general index. *)
Lemma C8_subdomain_index_row_unlabelled :
  generate CoqTacticIndex example_tactics None
    = Ok ([("s", [make_row "simpl" "doc1" "coq:tacn.simpl"])], false) ∧
  row_name (make_row "simpl" "doc1" "coq:tacn.simpl") = "simpl" ∧
  directives example_host "tacn" = Some (TacticNotationObject example_host) ∧
  index_text (TacticNotationObject example_host) "simpl" = "simpl (tacn)" ∧
  "simpl" ≠ "simpl (tacn)".
Proof.
  split; [vm_compute; reflexivity|]. split; [reflexivity|].
  split; [reflexivity|]. split; [vm_compute; reflexivity | discriminate].
Qed.

(** C8, amended: the label with the trailing period removed (unless the name
    ends with three) and the index suffix appended is the text of the entry
    [_add_index_entry] adds to the general index, for a name that does not
    start with an underscore (such a name gets no entry); the rows of a
    subdomain index carry the registered name as it is. *)
Theorem C8_index_labels (cls : CoqObjectClass) :
  (∀ name target st, Py.startswith name "_" = true →
     CoqObject_add_index_entry cls name target st = (Ok tt, st)) ∧
  (∀ name target st, Py.startswith name "_" = false →
     ∃ base label,
       (if Py.endswith name "." && negb (Py.endswith name "...")
        then name = base +:+ "." else name = base) ∧
       match index_suffix cls with
       | Some (String c s) => label = base +:+ " " +:+ String c s
       | _ => label = base
       end ∧
       CoqObject_add_index_entry cls name target st
         = (Ok tt,
            set_index_entries
              (λ es, es ++ [("single", label, target, "", None)]) st)) ∧
  (∀ self data docnames content,
     generate self data docnames = Ok (content, false) →
     (∀ sd, sd ∈ index_subdomains self → is_Some (data !! sd)) →
     (∀ sd names, data !! sd = Some names → names !! EmptyString = None) →
     ∀ r, r ∈ mjoin content.*2 →
       ∃ sd names o,
         sd ∈ index_subdomains self ∧ data !! sd = Some names ∧
         names !! row_name r = Some o ∧
         r = make_row (row_name r) (obj_docname o) (obj_targetid o)).
Proof.
  split; [|split].
  - intros name target st Hus. unfold CoqObject_add_index_entry.
    by rewrite Hus.
  - intros name target st Hus. unfold CoqObject_add_index_entry.
    rewrite Hus. unfold modify, index_text, has_trailing_period.
    destruct (Py.endswith name "." && negb (Py.endswith name "...")) eqn:Htrim.
    + apply andb_true_iff in Htrim as [[p ->]%endswith_inv _].
      rewrite drop_last_snoc. exists p.
      destruct (index_suffix cls) as [[|c s]|]; eexists; done.
    + exists name. destruct (index_suffix cls) as [[|c s]|]; eexists; done.
  - intros self data docnames content Hgen Hsubs Hnames r Hr.
    destruct (generate_run self data docnames Hsubs)
      as (items & buckets & Hchain & Hitems & Hbuckets & Hrun).
    { intros sd names o _ Hsd Hname.
      by rewrite (Hnames sd names Hsd) in Hname. }
    rewrite Hrun in Hgen. injection Hgen as Hcontent. subst content.
    apply list_elem_of_join_snd in Hr as ([k rows] & Hr & Hin).
    destruct (proj1 (elem_of_buckets docnames _ buckets k rows Hbuckets) Hin)
      as [Hrows _].
    simpl in Hr. rewrite Hrows in Hr.
    apply elem_of_rows_of in Hr as ([name o] & Hit & _ & _ & ->).
    rewrite sorted_by_perm in Hit.
    apply Hitems in Hit as (sd & names & Hsd & Hdata & Hname).
    by exists sd, names, o.
Qed.

(** * The results at concrete inputs *)

Lemma example_tactics_lookup (sd : string) (names : gmap string obj) :
  example_tactics !! sd = Some names → names !! EmptyString = None.
Proof.
  unfold example_tactics, initial_objects. simpl.
  rewrite !lookup_insert_Some, lookup_empty.
  intros H. repeat (destruct H as [[_ <-]|[_ H]]; [done|]). done.
Qed.


Lemma C2_make_target_injective_witness :
  Py.contains "." "cmd" = false ∧ Py.contains "." "cmdv" = false ∧
  make_target "cmd" "set-foo" = "coq:cmd.set-foo" ∧
  make_target "cmd" "set-foo" ≠ make_target "cmdv" "set-foo".
Proof.
  split; [reflexivity|]. split; [reflexivity|].
  destruct (C2_make_target_injective "cmd" "set-foo" "cmdv" "set-foo")
    as [Hform Hinj].
  - left. split; reflexivity.
  - split; [exact Hform|]. intros Heq. destruct (Hinj Heq) as [Habs _].
    discriminate Habs.
Defined.

Lemma C3_merge_domaindata_witness :
  (∀ sd their, example_batch !! sd = Some their →
               is_Some (objects example_state !! sd)) ∧
  ∃ st1 st2,
    merge_domaindata ["doc2"] example_batch example_state = (Ok tt, st1) ∧
    merge_domaindata ["doc2"] example_batch st1 = (Ok tt, st2) ∧
    objects st2 = objects st1.
Proof.
  assert (∀ sd their, example_batch !! sd = Some their →
                      is_Some (objects example_state !! sd)) as Hdom.
  { intros sd their Hsd. unfold example_batch in Hsd.
    apply lookup_singleton_Some in Hsd as [<- _]. eexists.
    vm_compute; reflexivity. }
  split; [exact Hdom|].
  destruct (C3_merge_domaindata ["doc2"] example_batch example_state Hdom)
    as (st1 & st2 & ws & H1 & _ & _ & _ & _ & H2 & H3).
  exists st1, st2. split; [exact H1|]. split; [exact H2|exact H3].
Defined.

Lemma C4_clear_doc_witness :
  "tacn" ≠ "index" ∧
  objects example_state !! "tacn"
    = Some {["simpl" := ("doc1", "tacn", "coq:tacn.simpl")]} ∧
  ∃ st',
    clear_doc "doc1" example_state = (Ok tt, st') ∧
    resolve_xref (objects st') "doc3" "tacn" "simpl" = Ok None.
Proof.
  split; [discriminate|]. split; [vm_compute; reflexivity|].
  destruct (C4_clear_doc "doc1" example_state)
    as (st' & Hrun & _ & _ & _ & Hresolve).
  exists st'. split; [exact Hrun|].
  apply (Hresolve "doc3" "tacn"
           {["simpl" := ("doc1", "tacn", "coq:tacn.simpl")]} "simpl"
           ("doc1", "tacn", "coq:tacn.simpl")).
  - discriminate.
  - vm_compute; reflexivity.
  - vm_compute; reflexivity.
  - reflexivity.
Defined.

Lemma C5_production_signature_witness :
  Py.split_ws 2 "term ::= let: @pattern := @term in @term"
    = ["term"; "::="; "let: @pattern := @term in @term"] ∧
  sphinxify example_host "let: @pattern := @term in @term" = Parsed tt ∧
  ("grammar-token-term" ∉ document_ids (initial_state "doc1")) ∧
  ProductionObject_handle_signature example_host
    "term ::= let: @pattern := @term in @term" = Ok (Some ("token", "term")) ∧
  ∃ st',
    add_target_and_index (ProductionObject example_host)
      (Some ("token", "term")) (initial_state "doc1")
      = (Ok (Some "grammar-token-term"), st') ∧
    token_lookup "term" st' = Some ("doc1", "grammar-token-term").
Proof.
  split; [vm_compute; reflexivity|]. split; [reflexivity|].
  assert ("grammar-token-term" ∉ document_ids (initial_state "doc1")) as Hfresh
    by apply not_elem_of_empty.
  split; [exact Hfresh|].
  destruct (C5_production_signature example_host
              "term ::= let: @pattern := @term in @term") as [Hsplit _].
  destruct (Hsplit "term" "::=" "let: @pattern := @term in @term")
    as (_ & Hdef & _); [vm_compute; reflexivity|].
  destruct Hdef as (Hsig & _ & _ & Hadd & _);
    [vm_compute; reflexivity | reflexivity |].
  split; [exact Hsig|].
  destruct (Hadd (initial_state "doc1")) as (st' & Hrun & Hlook & _).
  - exact Hfresh.
  - exists st'. split; [exact Hrun | exact Hlook].
Defined.

Lemma C6_trailing_period_witness :
  render_signature (OptionObject example_host) "Hyps Limit." = Ok tt ∧
  (∅ : gmap string string) !! "Hyps Limit." = None ∧
  name_from_signature (OptionObject example_host) "Hyps Limit."
    = Ok (Some "Hyps Limit.") ∧
  Py.endswith "Hyps Limit." "." = true ∧
  Py.endswith "Hyps Limit." "..." = false ∧
  ∃ p, "Hyps Limit." = p +:+ "." ∧
       handle_signature (OptionObject example_host) ∅ "Hyps Limit."
         = Ok (Some p).
Proof.
  split; [reflexivity|]. split; [reflexivity|]. split; [reflexivity|].
  split; [vm_compute; reflexivity|]. split; [vm_compute; reflexivity|].
  destruct (C6_trailing_period (OptionObject example_host) ∅
              "Hyps Limit." "Hyps Limit.") as [Hstrip _].
  - reflexivity.
  - reflexivity.
  - reflexivity.
  - apply Hstrip; vm_compute; reflexivity.
Defined.

Lemma C7_generate_witness :
  (∀ sd, sd ∈ index_subdomains CoqOptionIndex →
         is_Some (example_options !! sd)) ∧
  (∀ sd names o, sd ∈ index_subdomains CoqOptionIndex →
                 example_options !! sd = Some names →
                 names !! EmptyString = Some o →
                 kept (Some ["doc1"; "doc2"]) (EmptyString, o) = false) ∧
  generate CoqOptionIndex example_options (Some ["doc1"; "doc2"])
    = Ok ([("h", [make_row "Hyps Limit" "doc2" "coq:opt.hyps-limit"]);
           ("p", [make_row "printing all" "doc1" "coq:flag.printing-all";
                  make_row "Printing Width" "doc1" "coq:opt.printing-width"])],
          false) ∧
  StronglySorted (strict String.le) ["h"; "p"] ∧
  StronglySorted (λ r1 r2, name_le (row_name r1) (row_name r2))
    [make_row "Hyps Limit" "doc2" "coq:opt.hyps-limit";
     make_row "printing all" "doc1" "coq:flag.printing-all";
     make_row "Printing Width" "doc1" "coq:opt.printing-width"] ∧
  (make_row "Search Blacklist" "doc3" "coq:table.search-blacklist" ∉
     [make_row "Hyps Limit" "doc2" "coq:opt.hyps-limit";
      make_row "printing all" "doc1" "coq:flag.printing-all";
      make_row "Printing Width" "doc1" "coq:opt.printing-width"]).
Proof.
  assert (∀ sd, sd ∈ index_subdomains CoqOptionIndex →
                is_Some (example_options !! sd)) as Hsubs.
  { intros sd Hsd. simpl in Hsd.
    rewrite !elem_of_cons, elem_of_nil in Hsd.
    destruct Hsd as [->|[->|[->|[]]]]; eexists; vm_compute; reflexivity. }
  assert (∀ sd names o, sd ∈ index_subdomains CoqOptionIndex →
            example_options !! sd = Some names →
            names !! EmptyString = Some o →
            kept (Some ["doc1"; "doc2"]) (EmptyString, o) = false) as Hnames.
  { intros sd names o Hsd Hdata Hname. exfalso. simpl in Hsd.
    rewrite !elem_of_cons, elem_of_nil in Hsd.
    destruct Hsd as [->|[->|[->|[]]]]; vm_compute in Hdata;
      injection Hdata as <-; vm_compute in Hname; discriminate. }
  split; [exact Hsubs|]. split; [exact Hnames|].
  destruct (C7_generate CoqOptionIndex example_options
              (Some ["doc1"; "doc2"]) Hsubs Hnames)
    as (content & Hrun & Hkeys & _ & Hrows & Hsorted).
  assert (content =
            [("h", [make_row "Hyps Limit" "doc2" "coq:opt.hyps-limit"]);
             ("p", [make_row "printing all" "doc1" "coq:flag.printing-all";
                    make_row "Printing Width" "doc1"
                      "coq:opt.printing-width"])]) as Hcontent.
  { assert (generate CoqOptionIndex example_options (Some ["doc1"; "doc2"])
              = Ok ([("h", [make_row "Hyps Limit" "doc2" "coq:opt.hyps-limit"]);
                     ("p", [make_row "printing all" "doc1"
                              "coq:flag.printing-all";
                            make_row "Printing Width" "doc1"
                              "coq:opt.printing-width"])], false)) as Hgen
      by (vm_compute; reflexivity).
    rewrite Hrun in Hgen. by injection Hgen. }
  rewrite Hcontent in Hrun, Hkeys, Hrows, Hsorted.
  split; [exact Hrun|]. split; [exact Hkeys|]. split; [exact Hsorted|].
  intros Hin. apply Hrows in Hin
    as (sd & names & name & o & _ & _ & _ & Hdoc & Heq).
  injection Heq as _ Heq _. rewrite <- Heq in Hdoc.
  rewrite !elem_of_cons, elem_of_nil in Hdoc.
  destruct Hdoc as [Hdoc|[Hdoc|[]]]; discriminate Hdoc.
Defined.

Lemma C8_index_labels_witness :
  Py.startswith "Set Foo." "_" = false ∧
  ∃ base label,
    "Set Foo." = base +:+ "." ∧
    label = base +:+ " " +:+ "(cmd)" ∧
    CoqObject_add_index_entry (VernacObject example_host) "Set Foo."
      "coq:cmd.set-foo" (initial_state "doc1")
      = (Ok tt,
         set_index_entries
           (λ es, es ++ [("single", label, "coq:cmd.set-foo", "", None)])
           (initial_state "doc1")).
Proof.
  split; [reflexivity|].
  destruct (C8_index_labels (VernacObject example_host)) as (_ & Hentry & _).
  destruct (Hentry "Set Foo." "coq:cmd.set-foo" (initial_state "doc1"))
    as (base & label & Hbase & Hlabel & Hrun); [reflexivity|].
  exists base, label. split; [exact Hbase|]. split; [exact Hlabel|exact Hrun].
Defined.

Lemma C10_existing_target_id_witness :
  subdomain (TacticNotationObject example_host) = Some "tacn" ∧
  objects (initial_state "doc1") !! "tacn" = Some ∅ ∧
  ("coq:tacn.simpl" ∉ document_ids (initial_state "doc1")) ∧
  make_id example_host "Simpl" = make_id example_host "simpl" ∧
  ∃ st1,
    add_target (CoqObject example_host (TacticNotationObject example_host) "tacn")
      "simpl" (initial_state "doc1") = (Ok "coq:tacn.simpl", st1) ∧
    add_target (CoqObject example_host (TacticNotationObject example_host) "tacn")
      "Simpl" st1 = (Ok "coq:tacn.simpl", st1) ∧
    objects st1 !! "tacn"
      = Some {["simpl" := ("doc1", "tacn", "coq:tacn.simpl")]}.
Proof.
  split; [reflexivity|]. split; [vm_compute; reflexivity|].
  assert ("coq:tacn.simpl" ∉ document_ids (initial_state "doc1")) as Hfresh
    by apply not_elem_of_empty.
  split; [exact Hfresh|]. split; [reflexivity|].
  destruct (C10_existing_target_id example_host
              (TacticNotationObject example_host) "tacn") as (_ & _ & Hsame).
  destruct (Hsame "tacn" ∅ "simpl" "Simpl" (initial_state "doc1"))
    as (st1 & H1 & H2 & H3).
  - reflexivity.
  - vm_compute; reflexivity.
  - exact Hfresh.
  - reflexivity.
  - exists st1. split; [exact H1|]. split; [exact H2|]. exact H3.
Defined.

(** * Further properties of the code *)

(** ** Names *)

Lemma contains_take_while (p : ascii → bool) (c : ascii) (s : string) :
  Py.contains c (Py.take_while p s) = true → p c = true.
Proof.
  induction s as [|a s IH]; cbn [Py.take_while Py.contains]; [done|].
  destruct (p a) eqn:Hp; cbn [Py.contains]; [|done].
  case_decide; [by subst|done].
Qed.

Lemma contains_lstrip (c : ascii) (s : string) :
  Py.contains c (Py.lstrip s) = true → Py.contains c s = true.
Proof.
  induction s as [|a s IH]; cbn [Py.lstrip Py.contains]; [done|].
  destruct (Py.isspace a); [|done]. case_decide; auto.
Qed.

Lemma contains_rstrip (c : ascii) (s : string) :
  Py.contains c (Py.rstrip s) = true → Py.contains c s = true.
Proof.
  induction s as [|a s IH]; cbn [Py.rstrip Py.contains]; [done|].
  destruct (Py.isspace a && bool_decide (Py.rstrip s = EmptyString));
    cbn [Py.contains]; [done|].
  case_decide; auto.
Qed.

Lemma endswith_char_contains (c : ascii) (s : string) :
  Py.endswith s (String c EmptyString) = true → Py.contains c s = true.
Proof.
  intros [p ->]%endswith_inv. rewrite contains_app. cbn [Py.contains].
  rewrite decide_True by done. apply orb_true_r.
Qed.

(** X1: The name of a command is made of ASCII letters and spaces only: it
    holds no period, so the rule that drops a trailing period never applies
    to it and [handle_signature] returns it as [_name_from_signature] made
    it. *)
Theorem vernac_name_letters_only (signature n : string) :
  vernac_name signature = Ok (Some n) →
  (∀ c, Py.contains c n = true → Py.is_alpha_or_space c = true) ∧
  Py.contains "." n = false ∧
  (∀ host, sphinxify host signature = Parsed tt →
     handle_signature (VernacObject host) ∅ signature = Ok (Some n)).
Proof.
  unfold vernac_name, Py.re_match_alpha_space. intros Hname.
  assert (n = Py.strip (Py.take_while Py.is_alpha_or_space signature)) as Hn.
  { destruct (Py.take_while Py.is_alpha_or_space signature); by simplify_eq. }
  assert (∀ c, Py.contains c n = true → Py.is_alpha_or_space c = true) as Hall.
  { intros c Hc. rewrite Hn in Hc. unfold Py.strip in Hc.
    by apply contains_rstrip, contains_lstrip, contains_take_while in Hc. }
  assert (Py.contains "." n = false) as Hdot.
  { destruct (Py.contains "." n) eqn:Hc; [|done]. by apply Hall in Hc. }
  split; [exact Hall|]. split; [exact Hdot|].
  intros host Hrender. unfold handle_signature. simpl.
  unfold notation_render, notation_to_sphinx. rewrite Hrender. simpl.
  rewrite lookup_empty. unfold vernac_name, Py.re_match_alpha_space.
  destruct (Py.take_while Py.is_alpha_or_space signature) eqn:Htw;
    [discriminate|].
  simpl. simplify_eq. unfold has_trailing_period.
  destruct (Py.endswith _ ".") eqn:Hends; [|done].
  apply endswith_char_contains in Hends. congruence.
Qed.

Lemma split_length (sep : ascii) (s : string) :
  length (Py.split sep s) = S (count_char sep s).
Proof.
  induction s as [|a s IH]; [done|]. cbn [Py.split count_char].
  case_decide.
  - simpl. by rewrite IH.
  - destruct (Py.split sep s); simpl in *; [done|]. done.
Qed.

(** X2: [_prepare_names] without the [:name:] option gives no names and never
    fails; with it, a directive error is raised exactly when the number of
    signatures is not one more than the number of semicolons of the option
    (so an empty option counts as one, empty, name). *)
Theorem prepare_names_counts_semicolons (sigs : list string) :
  prepare_names sigs None = Ok ∅ ∧
  ∀ name_option,
    (∃ msg, prepare_names sigs (Some name_option) = Raise (DirectiveError msg))
    ↔ S (count_char ";" name_option) ≠ length sigs.
Proof.
  split; [done|]. intros name_option. unfold prepare_names.
  rewrite length_fmap, split_length. case_decide; split; eauto.
  - intros [msg Hmsg]. discriminate.
  - done.
Qed.

(** X3: With one name per signature and pairwise distinct signatures, the
    signature at position [i] is given the name at position [i], white space
    around it removed and nothing else changed: [handle_signature] returns it
    whatever [_name_from_signature] would have made. *)
Theorem explicit_names_by_position (cls : CoqObjectClass) (sigs : list string)
    (name_option : string) :
  NoDup sigs →
  S (count_char ";" name_option) = length sigs →
  ∃ names,
    prepare_names sigs (Some name_option) = Ok names ∧
    ∀ i sig piece,
      sigs !! i = Some sig → Py.split ";" name_option !! i = Some piece →
      render_signature cls sig = Ok tt →
      handle_signature cls names sig = Ok (Some (Py.strip piece)).
Proof.
  intros Hnd Hlen.
  destruct (prepare_names_positional sigs name_option) as (names & Hrun & Hpos);
    [by rewrite length_fmap, split_length|done|].
  exists names. split; [done|]. intros i sig piece Hsig Hpiece Hrender.
  unfold handle_signature. rewrite Hrender. simpl.
  rewrite (Hpos i sig (Py.strip piece)); [done|done|].
  by rewrite list_lookup_fmap, Hpiece.
Qed.

(** ** Declaring objects *)

Lemma add_index_entry_run (cls : CoqObjectClass) (name target : string)
    (st : state) :
  CoqObject_add_index_entry cls name target st =
    (Ok tt,
     set_index_entries
       (λ es, es ++ if Py.startswith name "_" then []
                    else [("single", index_text cls name, target, "", None)])
       st).
Proof.
  unfold CoqObject_add_index_entry. destruct (Py.startswith name "_").
  - unfold ret. f_equal. apply state_eq; simpl; try done.
    by rewrite app_nil_r.
  - done.
Qed.

Lemma declare_existing_run (host : Host) (cls : CoqObjectClass)
    (objtype name : string) (st : state) :
  Py.truthy name = true →
  make_target objtype (make_id host name) ∈ document_ids st →
  add_target_and_index (CoqObject host cls objtype) (Some name) st
    = (Ok (Some (make_target objtype (make_id host name))),
       set_index_entries
         (λ es, es ++ if Py.startswith name "_" then []
                      else [("single", index_text cls name,
                             make_target objtype (make_id host name), "", None)])
         st).
Proof.
  intros Htrue Hin. unfold add_target_and_index.
  cbn [name_truthy CoqObject]. rewrite Htrue. unfold bind at 1.
  rewrite add_target_existing by exact Hin.
  cbn [add_index_entry CoqObject target_id]. unfold bind at 1.
  by rewrite add_index_entry_run.
Qed.

Lemma declare_fresh_run (host : Host) (cls : CoqObjectClass)
    (objtype name sd : string) (names : gmap string obj) (st : state) :
  subdomain cls = Some sd → objects st !! sd = Some names →
  Py.truthy name = true →
  make_target objtype (make_id host name) ∉ document_ids st →
  add_target_and_index (CoqObject host cls objtype) (Some name) st
    = (Ok (Some (make_target objtype (make_id host name))),
       set_index_entries
         (λ es, es ++ if Py.startswith name "_" then []
                      else [("single", index_text cls name,
                             make_target objtype (make_id host name), "", None)])
         (set_objects
            (<[sd := <[name := (docname st, objtype,
                                make_target objtype (make_id host name))]>
                       names]>)
            (set_warnings
               (λ ws, ws ++ match names !! name with
                            | Some other =>
                                [DuplicateObject (PyStr name)
                                   (doc2path host (obj_docname other))]
                            | None => []
                            end)
               (set_document_ids
                  (λ ids, {[make_target objtype (make_id host name)]} ∪ ids)
                  st)))).
Proof.
  intros Hsd Hnames Htrue Hfresh.
  unfold add_target_and_index. cbn [name_truthy CoqObject]. rewrite Htrue.
  unfold bind at 1.
  rewrite (add_target_fresh host cls objtype name sd names st Hsd Hnames)
    by exact Hfresh.
  cbn [add_index_entry CoqObject target_id]. unfold bind at 1.
  rewrite add_index_entry_run. reflexivity.
Qed.

Lemma declare_failed_run (host : Host) (cls : CoqObjectClass)
    (objtype name : string) (st : state) :
  Py.truthy name = true →
  make_target objtype (make_id host name) ∉ document_ids st →
  match subdomain cls with
  | Some sd => objects st !! sd = None
  | None => True
  end →
  add_target_and_index (CoqObject host cls objtype) (Some name) st
    = (Raise match subdomain cls with
             | Some sd => KeyError sd
             | None => ValueError
             end,
       set_document_ids
         (λ ids, {[make_target objtype (make_id host name)]} ∪ ids) st).
Proof.
  intros Htrue Hfresh Hmissing.
  unfold add_target_and_index. cbn [name_truthy CoqObject]. rewrite Htrue.
  unfold bind at 1, add_target.
  unfold bind at 1, bind at 1, gets at 1.
  cbn [target_id CoqObject]. unfold CoqObject_target_id.
  rewrite decide_False by done.
  unfold bind at 1, note_explicit_target, modify at 1.
  cbn [record_name CoqObject]. unfold CoqObject_record_name.
  unfold bind at 1, subdomain_data.
  destruct (subdomain cls) as [sd|]; [|done].
  simpl. by rewrite Hmissing.
Qed.

Lemma production_objects_unchanged (host : Host)
    (name : option (string * string)) (st : state) :
  ∃ target st',
    add_target_and_index (ProductionObject host) name st = (Ok target, st') ∧
    objects st' = objects st ∧ index_entries st' = index_entries st.
Proof.
  destruct name as [key|]; [|by eexists _, _].
  unfold add_target_and_index. cbn [name_truthy ProductionObject].
  unfold bind at 1, add_target. cbn [target_id ProductionObject].
  unfold bind at 1, gets at 1.
  destruct (decide (ProductionObject_target_id key ∈ document_ids st)).
  - eexists _, _. split; [reflexivity|]. done.
  - unfold bind at 1. unfold bind at 1.
    unfold note_explicit_target, modify at 1.
    cbn [record_name ProductionObject].
    rewrite production_record_name_run.
    eexists _, _. split; [reflexivity|]. done.
Qed.

(** X4: Declaring a named object whose target id is new to the document: the id
    is [make_target objtype (make_id name)]; it enters the document's ids;
    the registry maps the name to (current document, type, id), so that a
    reference to the name resolves to that document and id; and the general
    index gains one entry, unless the name starts with an underscore. *)
Theorem declare_then_resolve (host : Host) (cls : CoqObjectClass)
    (objtype name sd fromdoc : string) (names : gmap string obj) (st : state) :
  subdomain cls = Some sd → sd ≠ "index" →
  objects st !! sd = Some names →
  Py.truthy name = true →
  make_target objtype (make_id host name) ∉ document_ids st →
  ∃ st',
    add_target_and_index (CoqObject host cls objtype) (Some name) st
      = (Ok (Some (make_target objtype (make_id host name))), st') ∧
    objects st' =
      <[sd := <[name := (docname st, objtype,
                         make_target objtype (make_id host name))]> names]>
        (objects st) ∧
    resolve_xref (objects st') fromdoc sd name
      = Ok (Some (RefNode fromdoc (docname st)
                    (make_target objtype (make_id host name)) name)) ∧
    document_ids st' =
      {[make_target objtype (make_id host name)]} ∪ document_ids st ∧
    index_entries st' =
      index_entries st ++
      (if Py.startswith name "_" then []
       else [("single", index_text cls name,
              make_target objtype (make_id host name), "", None)]).
Proof.
  intros Hsd Hidx Hnames Htrue Hfresh.
  eexists. split.
  - by apply (declare_fresh_run host cls objtype name sd names).
  - simpl. split; [done|]. split; [|done].
    unfold resolve_xref. rewrite decide_False by done.
    by rewrite !lookup_insert_eq.
Qed.

(** X5: Declaring an object whose target id the document already has changes
    neither the registry, nor the warnings, nor the ids, but the general
    index still gains an entry for it (unless the name starts with an
    underscore): a name declared twice in one document is indexed twice. *)
Theorem redeclare_adds_index_entry_only (host : Host) (cls : CoqObjectClass)
    (objtype name : string) (st : state) :
  Py.truthy name = true →
  make_target objtype (make_id host name) ∈ document_ids st →
  ∃ st',
    add_target_and_index (CoqObject host cls objtype) (Some name) st
      = (Ok (Some (make_target objtype (make_id host name))), st') ∧
    objects st' = objects st ∧ warnings st' = warnings st ∧
    document_ids st' = document_ids st ∧
    index_entries st' =
      index_entries st ++
      (if Py.startswith name "_" then []
       else [("single", index_text cls name,
              make_target objtype (make_id host name), "", None)]).
Proof.
  intros Htrue Hin. eexists. split; [by apply declare_existing_run|]. done.
Qed.

(** X6: A declaration whose class has no subdomain, or a subdomain that the
    registry lacks, raises ([ValueError], [KeyError]) after the target id
    was entered among the document's ids: nothing is registered or indexed,
    and declaring the same name again then returns the id without
    registering the name. *)
Theorem declaration_fails_after_noting_id (host : Host) (cls : CoqObjectClass)
    (objtype name : string) (st : state) :
  Py.truthy name = true →
  make_target objtype (make_id host name) ∉ document_ids st →
  match subdomain cls with
  | Some sd => objects st !! sd = None
  | None => True
  end →
  let noted :=
    set_document_ids (λ ids, {[make_target objtype (make_id host name)]} ∪ ids)
      st in
  add_target_and_index (CoqObject host cls objtype) (Some name) st
    = (Raise match subdomain cls with
             | Some sd => KeyError sd
             | None => ValueError
             end, noted) ∧
  ∃ again,
    add_target_and_index (CoqObject host cls objtype) (Some name) noted
      = (Ok (Some (make_target objtype (make_id host name))), again) ∧
    objects again = objects st.
Proof.
  intros Htrue Hfresh Hmissing noted. split.
  - by apply declare_failed_run.
  - eexists. split.
    + apply declare_existing_run; [done|].
      simpl. apply elem_of_union_l. by apply elem_of_singleton.
    + done.
Qed.

(** X7: A grammar production never raises when it is declared, writes neither
    to the registry of the Coq subdomains nor to the general index, and so
    leaves every [resolve_xref] answer as it was: its key lives in the
    standard token namespace only. *)
Theorem production_leaves_registry_alone (host : Host)
    (name : option (string * string)) (st : state) :
  ∃ target st',
    add_target_and_index (ProductionObject host) name st = (Ok target, st') ∧
    objects st' = objects st ∧
    index_entries st' = index_entries st ∧
    ∀ fromdoc role targetname,
      resolve_xref (objects st') fromdoc role targetname
        = resolve_xref (objects st) fromdoc role targetname.
Proof.
  destruct (production_objects_unchanged host name st)
    as (target & st' & Hrun & Hobjs & Hidx).
  exists target, st'. split; [done|]. split; [done|]. split; [done|].
  intros fromdoc role targetname. by rewrite Hobjs.
Qed.

(** X8: Two registrations of one grammar token: the second warns once, citing
    the document of the first, and the token then leads to the second
    document. *)
Theorem production_record_name_twice (host : Host) (lhs doc2 : string)
    (st : state) :
  let name := ("token", lhs) in
  let tid := ProductionObject_target_id name in
  ∃ st1 st2,
    ProductionObject_record_name host name tid st = (Ok tt, st1) ∧
    ProductionObject_record_name host name tid (set_docname doc2 st1)
      = (Ok tt, st2) ∧
    warnings st2 =
      warnings st1 ++ [DuplicateObject (PyPair "token" lhs)
                         (doc2path host (docname st))] ∧
    token_lookup lhs st2 = Some (doc2, "grammar-token-" +:+ lhs).
Proof.
  intros name tid. eexists _, _.
  split; [apply production_record_name_run|].
  split; [apply production_record_name_run|].
  simpl. rewrite lookup_insert_eq. simpl. split; [done|].
  unfold token_lookup. simpl. by rewrite lookup_insert_eq.
Qed.

(** ** Merging and clearing, continued *)

Lemma merge_batches_missing (docnames : list string)
    (batches : list (string * gmap string obj)) :
  ∀ st : state,
    (∃ sd their, (sd, their) ∈ batches ∧ objects st !! sd = None) →
    ∃ sd st',
      for_ batches (λ '(subdomain, their_objects),
          our_objects <~ getitem_objects subdomain ;;
          for_ (map_to_list their_objects) (merge_item docnames our_objects)) st
        = (Raise (KeyError sd), st') ∧
      sd ∈ batches.*1 ∧ objects st !! sd = None.
Proof.
  induction batches as [|[sd their] rest IH]; intros st (sd0 & their0 & Hin & Hnone).
  - by apply elem_of_nil in Hin.
  - rewrite for_cons. unfold bind at 1, getitem_objects at 1.
    destruct (objects st !! sd) as [names|] eqn:Hnames.
    + rewrite (merge_subdomain_run _ _ _ names) by done.
      apply elem_of_cons in Hin as [Heq|Hin]; [simplify_eq|].
      edestruct (IH (set_objects (<[sd := merged_part docnames their ∪ names]>)
                 (set_warnings
                    (λ ws, ws ++ (map_to_list their ≫=
                                    merge_warning docnames names)) st)))
        as (sd' & st' & Hrun & Hsd' & Hnone').
      { exists sd0, their0. split; [done|]. simpl.
        rewrite lookup_insert_ne; [done|]. intros ->. congruence. }
      exists sd', st'. split; [done|]. split; [by right|].
      simpl in Hnone'. destruct (decide (sd = sd')) as [->|Hne].
      * by rewrite lookup_insert_eq in Hnone'.
      * by rewrite lookup_insert_ne in Hnone'.
    + exists sd, st. split; [done|]. split; [left|done].
Qed.

(** X9: A batch that names a subdomain the registry does not have makes
    [merge_domaindata] raise [KeyError] for such a subdomain, whatever
    [docnames] and whatever the batch holds there (even nothing). *)
Theorem merge_domaindata_missing_subdomain (docnames : list string)
    (otherdata : gmap string (gmap string obj)) (st : state) :
  (∃ sd, is_Some (otherdata !! sd) ∧ objects st !! sd = None) →
  ∃ sd st',
    merge_domaindata docnames otherdata st = (Raise (KeyError sd), st') ∧
    is_Some (otherdata !! sd) ∧ objects st !! sd = None.
Proof.
  intros (sd & [their Hsd] & Hnone).
  destruct (merge_batches_missing docnames (map_to_list otherdata) st)
    as (sd' & st' & Hrun & Hin & Hnone').
  { exists sd, their. split; [|done]. by apply elem_of_map_to_list. }
  exists sd', st'. split; [exact Hrun|]. split; [|done].
  apply list_elem_of_fmap in Hin as ([sd'' their'] & -> & Hin).
  apply elem_of_map_to_list in Hin. by eexists.
Qed.

(** X10: Merging the entries of document [d] and then clearing [d] does not
    bring the registry back: an entry survives exactly when it was there
    before, belongs to another document, and its name was not taken over by
    an entry of [d] in the batch.  What [d] overwrote is lost. *)
Theorem merge_then_clear_loses_overwritten (d : string)
    (otherdata : gmap string (gmap string obj)) (st : state) :
  (∀ sd their, otherdata !! sd = Some their → is_Some (objects st !! sd)) →
  ∃ st1 st2,
    merge_domaindata [d] otherdata st = (Ok tt, st1) ∧
    clear_doc d st1 = (Ok tt, st2) ∧
    ∀ sd names, objects st !! sd = Some names →
      ∃ names', objects st2 !! sd = Some names' ∧
        ∀ name o, names' !! name = Some o ↔
          names !! name = Some o ∧ obj_docname o ≠ d ∧
          ¬ ∃ o', otherdata !! sd ≫= (.!! name) = Some o' ∧ obj_docname o' = d.
Proof.
  intros Hdom.
  destruct (merge_domaindata_run [d] otherdata st Hdom) as (objs1 & Hrun & Hobjs).
  eexists _, _. split; [exact Hrun|]. split; [apply clear_doc_run|].
  intros sd names Hsd. eexists. split.
  { simpl. by rewrite lookup_fmap, Hobjs, Hsd. }
  intros name o. unfold cleared. rewrite map_lookup_filter_Some. simpl.
  rewrite lookup_merged_part_union.
  destruct (otherdata !! sd) as [their|]; simpl.
  - rewrite lookup_empty || idtac.
    destruct (their !! name) as [o'|] eqn:Hname.
    + case_bool_decide as Hd.
      * apply list_elem_of_singleton in Hd. split.
        -- intros [[= ->] Hne]. done.
        -- intros (_ & _ & Hno). exfalso. apply Hno. by exists o'.
      * split.
        -- intros [Ho Hne]. split; [done|]. split; [done|].
           intros (o'' & [= <-] & Hd'). apply Hd. by apply list_elem_of_singleton.
        -- by intros (Ho & Hne & _).
    + split.
      * intros [Ho Hne]. split; [done|]. split; [done|]. by intros (o'' & [=] & _).
      * by intros (Ho & Hne & _).
  - rewrite lookup_empty. split.
    + intros [Ho Hne]. split; [done|]. split; [done|]. by intros (o'' & [=] & _).
    + by intros (Ho & Hne & _).
Qed.

(** X11: Merging a batch for [docnames1] and then for [docnames2] leaves the
    registry that one merge for [docnames1 ++ docnames2] leaves. *)
Theorem merge_domaindata_in_two_steps (docnames1 docnames2 : list string)
    (otherdata : gmap string (gmap string obj)) (st : state) :
  (∀ sd their, otherdata !! sd = Some their → is_Some (objects st !! sd)) →
  ∃ st1 st2 st12,
    merge_domaindata docnames1 otherdata st = (Ok tt, st1) ∧
    merge_domaindata docnames2 otherdata st1 = (Ok tt, st2) ∧
    merge_domaindata (docnames1 ++ docnames2) otherdata st = (Ok tt, st12) ∧
    objects st2 = objects st12.
Proof.
  intros Hdom.
  destruct (merge_domaindata_run docnames1 otherdata st Hdom)
    as (objs1 & Hrun1 & Hobjs1).
  set (st1 := set_objects (λ _, objs1)
                (set_warnings
                   (λ ws, ws ++ merge_warnings docnames1 (objects st)
                                     (map_to_list otherdata)) st)) in *.
  destruct (merge_domaindata_run docnames2 otherdata st1)
    as (objs2 & Hrun2 & Hobjs2).
  { intros sd their Hsd. simpl. rewrite Hobjs1.
    destruct (Hdom sd their Hsd) as [names ->]. by eexists. }
  destruct (merge_domaindata_run (docnames1 ++ docnames2) otherdata st Hdom)
    as (objs12 & Hrun12 & Hobjs12).
  eexists st1, _, _. split; [exact Hrun1|]. split; [exact Hrun2|].
  split; [exact Hrun12|]. simpl.
  apply map_eq. intros sd. rewrite Hobjs2, Hobjs12. simpl. rewrite Hobjs1.
  destruct (objects st !! sd) as [names|]; simpl; [|done]. f_equal.
  apply map_eq. intros name. rewrite !lookup_merged_part_union.
  destruct (default ∅ (otherdata !! sd) !! name) as [o|]; [|done].
  destruct (bool_decide (obj_docname o ∈ docnames2)) eqn:H2;
    destruct (bool_decide (obj_docname o ∈ docnames1)) eqn:H1;
    destruct (bool_decide (obj_docname o ∈ docnames1 ++ docnames2)) eqn:H12;
    try done; exfalso;
    rewrite ?bool_decide_eq_true, ?bool_decide_eq_false in *;
    rewrite elem_of_app in H12; tauto.
Qed.

(** X12: Clearing is idempotent, and the order in which two documents are
    cleared does not matter. *)
Theorem clear_doc_idempotent_and_commutes (d1 d2 : string) (st : state) :
  (clear_doc d1 ;;; clear_doc d1) st = clear_doc d1 st ∧
  (clear_doc d1 ;;; clear_doc d2) st = (clear_doc d2 ;;; clear_doc d1) st.
Proof.
  unfold bind. rewrite !clear_doc_run. cbv beta iota. rewrite ?clear_doc_run.
  split; f_equal; apply state_eq; simpl; try done.
  - rewrite <- map_fmap_compose. apply map_fmap_ext. intros sd names _.
    simpl. unfold cleared. rewrite map_filter_filter.
    apply map_filter_ext. intros name o _. simpl. tauto.
  - rewrite <- !map_fmap_compose. apply map_fmap_ext. intros sd names _.
    simpl. unfold cleared. apply map_filter_comm.
Qed.

Lemma merge_domaindata_ok_dom (docnames : list string)
    (otherdata : gmap string (gmap string obj)) (r : unit) (st st' : state) :
  merge_domaindata docnames otherdata st = (Ok r, st') →
  ∀ sd their, otherdata !! sd = Some their → is_Some (objects st !! sd).
Proof.
  intros Hrun sd their Hsd.
  destruct (objects st !! sd) as [names|] eqn:Hnames; [by eexists|].
  destruct (merge_batches_missing docnames (map_to_list otherdata) st)
    as (sd' & st'' & Hraise & _).
  { exists sd, their. split; [|done]. by apply elem_of_map_to_list. }
  unfold merge_domaindata in Hrun. congruence.
Qed.

(** ** The subdomain indices, continued *)

Lemma chain_items_missing (data : gmap string (gmap string obj))
    (pre post : list string) (sd : string) :
  (∀ s, s ∈ pre → is_Some (data !! s)) → data !! sd = None →
  chain_items data (pre ++ sd :: post) = Raise (KeyError sd).
Proof.
  intros Hpre Hsd. induction pre as [|s pre IH]; simpl.
  - by rewrite Hsd.
  - destruct (Hpre s) as [d ->]; [left|].
    rewrite IH; [done|]. intros s' Hs'. apply Hpre. by right.
Qed.

(** X13: An index whose list of subdomains names one the registry does not have
    cannot be generated: [generate] raises [KeyError] for the first such
    subdomain, whatever the restriction and even when nothing is
    registered. *)
Theorem generate_missing_subdomain (self : IndexClass)
    (data : gmap string (gmap string obj)) (docnames : option (list string))
    (pre post : list string) (sd : string) :
  index_subdomains self = pre ++ sd :: post →
  (∀ s, s ∈ pre → is_Some (data !! s)) → data !! sd = None →
  generate self data docnames = Raise (KeyError sd).
Proof.
  intros Hsubs Hpre Hsd. unfold generate.
  by rewrite Hsubs, (chain_items_missing data pre post sd Hpre Hsd).
Qed.

Lemma generate_loop_empty_name (docnames : option (list string))
    (items : list (string * obj)) :
  ∀ content : gmap string (list index_row),
    (∃ o, (EmptyString, o) ∈ items ∧ kept docnames (EmptyString, o) = true) →
    fold_res (generate_step docnames) content items = Raise IndexError.
Proof.
  induction items as [|[name [[doc ty] anchor]] rest IH];
    intros content (o & Hin & Hkept).
  - by apply elem_of_nil in Hin.
  - simpl. unfold generate_step at 1.
    destruct (skip_docname docnames doc) eqn:Hskip.
    + simpl. apply IH. exists o. split; [|done].
      apply elem_of_cons in Hin as [Heq|Hin]; [|done].
      simplify_eq. unfold kept, obj_docname in Hkept. simpl in Hkept.
      by rewrite Hskip in Hkept.
    + destruct name as [|c name]; [done|]. simpl. apply IH.
      exists o. split; [|done].
      by apply elem_of_cons in Hin as [Heq|Hin].
Qed.

Lemma generate_nonempty_ok (self : IndexClass)
    (data : gmap string (gmap string obj)) (docnames : option (list string)) :
  (∀ sd, sd ∈ index_subdomains self → is_Some (data !! sd)) →
  (∀ sd names o, sd ∈ index_subdomains self → data !! sd = Some names →
                 names !! EmptyString = Some o →
                 kept docnames (EmptyString, o) = false) →
  ∃ content, generate self data docnames = Ok (content, false).
Proof.
  intros Hsubs Hnone.
  destruct (chain_items_run data (index_subdomains self) Hsubs)
    as (items & Hchain & Hitems).
  destruct (generate_loop docnames (sorted_by (λ x, Py.lower x.1) items) ∅)
    as (content & Hloop & _).
  { intros [name o] Hin Hkept Hempty. simpl in Hempty. subst name.
    rewrite sorted_by_perm in Hin.
    apply Hitems in Hin as (sd & names & Hsd & Hdata & Hname).
    rewrite (Hnone sd names o Hsd Hdata Hname) in Hkept. done. }
  eexists. unfold generate. rewrite Hchain. simpl. by rewrite Hloop.
Qed.

(** X14: When the listed subdomains exist, [generate] fails exactly when one of
    them holds an entry with an empty name that the restriction lets
    through, and then with [IndexError] (the first character of the name is
    read); it returns buckets otherwise. *)
Theorem generate_empty_name (self : IndexClass)
    (data : gmap string (gmap string obj)) (docnames : option (list string)) :
  (∀ sd, sd ∈ index_subdomains self → is_Some (data !! sd)) →
  ((∃ sd names o, sd ∈ index_subdomains self ∧ data !! sd = Some names ∧
                  names !! EmptyString = Some o ∧
                  kept docnames (EmptyString, o) = true) →
   generate self data docnames = Raise IndexError) ∧
  ((∀ sd names o, sd ∈ index_subdomains self → data !! sd = Some names →
                  names !! EmptyString = Some o →
                  kept docnames (EmptyString, o) = false) →
   ∃ content, generate self data docnames = Ok (content, false)).
Proof.
  intros Hsubs. split; [|by apply generate_nonempty_ok].
  destruct (chain_items_run data (index_subdomains self) Hsubs)
    as (items & Hchain & Hitems).
  intros (sd & names & o & Hsd & Hdata & Hname & Hkept).
  unfold generate. rewrite Hchain. simpl.
  rewrite (generate_loop_empty_name docnames); [done|].
  exists o. split; [|done]. rewrite sorted_by_perm. apply Hitems.
  by exists sd, names.
Qed.

Lemma chain_items_ok_dom (data : gmap string (gmap string obj))
    (subdomains : list string) (items : list (string * obj)) :
  chain_items data subdomains = Ok items →
  ∀ sd, sd ∈ subdomains → is_Some (data !! sd).
Proof.
  revert items. induction subdomains as [|s rest IH]; intros items Hrun sd Hin.
  - by apply elem_of_nil in Hin.
  - simpl in Hrun. destruct (data !! s) as [d|] eqn:Hs; [|done].
    destruct (chain_items data rest) as [more|e] eqn:Hrest; [|done].
    apply elem_of_cons in Hin as [->|Hin]; [by eexists|].
    by apply (IH more).
Qed.

Lemma chain_items_raise (data : gmap string (gmap string obj))
    (subdomains : list string) (e : exn) :
  chain_items data subdomains = Raise e → ∃ sd, e = KeyError sd.
Proof.
  induction subdomains as [|s rest IH]; simpl; [done|].
  destruct (data !! s) as [d|]; [|intros [= <-]; by eexists].
  destruct (chain_items data rest) as [more|e']; simpl; [done|].
  intros [= <-]. by apply IH.
Qed.

Lemma buckets_insert_perm (content : gmap string (list index_row))
    (k : string) (r : index_row) :
  mjoin (map_to_list
           (<[k := default [] (content !! k) ++ [r]]> content)).*2
  ≡ₚ mjoin (map_to_list content).*2 ++ [r].
Proof.
  destruct (content !! k) as [l|] eqn:Hk; simpl.
  - rewrite <- (insert_delete_id content k l) at 2 by done.
    rewrite <- insert_delete_eq.
    rewrite !map_to_list_insert by apply lookup_delete_eq.
    simpl. rewrite <- !app_assoc. f_equiv. apply Permutation_app_comm.
  - rewrite map_to_list_insert by done. simpl.
    apply Permutation_cons_append.
Qed.

Lemma generate_loop_perm (docnames : option (list string))
    (items : list (string * obj)) :
  ∀ content content' : gmap string (list index_row),
    fold_res (generate_step docnames) content items = Ok content' →
    mjoin (map_to_list content').*2
    ≡ₚ mjoin (map_to_list content).*2 ++ kept_rows docnames items.
Proof.
  induction items as [|[name [[doc ty] anchor]] rest IH];
    intros content content' Hrun.
  - simpl in Hrun. injection Hrun as <-. unfold kept_rows. simpl.
    by rewrite app_nil_r.
  - simpl in Hrun. unfold generate_step at 1 in Hrun.
    assert (kept docnames (name, (doc, ty, anchor))
              = negb (skip_docname docnames doc)) as Hkept by done.
    unfold kept_rows. rewrite filter_cons.
    destruct (skip_docname docnames doc) eqn:Hskip; simpl in Hrun, Hkept.
    + rewrite decide_False by (by rewrite Hkept). by apply IH.
    + rewrite decide_True by done.
      destruct (bucket_key name) as [k|e] eqn:Hk; [|done]. simpl in Hrun.
      rewrite (IH _ _ Hrun), buckets_insert_perm. simpl.
      by rewrite <- app_assoc.
Qed.

(** X15: Whenever [generate] returns, its buckets hold, between them, one row
    for each entry of the listed subdomains that the restriction lets
    through: no entry is lost and none is listed twice. *)
Theorem generate_rows_permutation (self : IndexClass)
    (data : gmap string (gmap string obj)) (docnames : option (list string))
    (content : list (string * list index_row)) (collapse : bool) :
  generate self data docnames = Ok (content, collapse) →
  ∃ items,
    chain_items data (index_subdomains self) = Ok items ∧
    mjoin content.*2 ≡ₚ kept_rows docnames items.
Proof.
  unfold generate. intros Hgen.
  destruct (chain_items data (index_subdomains self)) as [items|e]; [|done].
  exists items. split; [done|]. simpl in Hgen.
  destruct (fold_res _ _ _) as [buckets|e] eqn:Hloop; [|done].
  simpl in Hgen. injection Hgen as <- _.
  rewrite sorted_by_perm. rewrite (generate_loop_perm _ _ _ _ Hloop).
  rewrite map_to_list_empty. simpl. unfold kept_rows.
  by rewrite sorted_by_perm.
Qed.

(** ** The inventory and the references *)

Lemma map_res_ok {A B} (f : A → res B) (l : list A) :
  (∀ x, x ∈ l → ∃ y, f x = Ok y) →
  ∃ ys, map_res f l = Ok ys ∧ Forall2 (λ x y, f x = Ok y) l ys.
Proof.
  induction l as [|x l IH]; intros Hall.
  - exists []. by split.
  - destruct (Hall x) as [y Hy]; [left|].
    destruct IH as (ys & Hys & Hall2).
    { intros x' Hx'. apply Hall. by right. }
    exists (y :: ys). split; [|by constructor].
    simpl. by rewrite Hy, Hys.
Qed.

Lemma map_res_raise {A B} (f : A → res B) (l : list A) :
  (∃ x, x ∈ l ∧ ∃ e, f x = Raise e) →
  ∃ x e, map_res f l = Raise e ∧ x ∈ l ∧ f x = Raise e.
Proof.
  induction l as [|x l IH]; intros (x0 & Hin & e0 & He0).
  - by apply elem_of_nil in Hin.
  - simpl. destruct (f x) as [y|e] eqn:Hx.
    + destruct IH as (x' & e' & Hrun & Hin' & He').
      { exists x0. split; [|by exists e0].
        apply elem_of_cons in Hin as [->|Hin]; [congruence|done]. }
      exists x', e'. simpl. rewrite Hrun. split; [done|]. split; [by right|done].
    + exists x, e. split; [done|]. split; [left|done].
Qed.

Lemma map_res_raise_inv {A B} (f : A → res B) (l : list A) (e : exn) :
  map_res f l = Raise e → ∃ x, x ∈ l ∧ f x = Raise e.
Proof.
  induction l as [|x l IH]; simpl; [done|].
  destruct (f x) as [y|e'] eqn:Hx; simpl.
  - destruct (map_res f l) as [ys|e'']; simpl; [done|].
    intros [= ->]. destruct IH as (x' & Hin & Hx'); [done|].
    exists x'. split; [by right|done].
  - intros [= ->]. exists x. split; [left|done].
Qed.

Lemma object_entry_ok (name : string) (o : obj) (t : ObjType) :
  object_types !! obj_objtype o = Some t →
  object_entry (name, o)
    = Ok (name, name, obj_objtype o, obj_docname o, obj_targetid o, searchprio t).
Proof.
  destruct o as [[doc ty] tid]. unfold object_entry, obj_objtype. simpl.
  by intros ->.
Qed.

Lemma object_entry_raise (name : string) (o : obj) :
  object_types !! obj_objtype o = None →
  object_entry (name, o) = Raise (KeyError (obj_objtype o)).
Proof.
  destruct o as [[doc ty] tid]. unfold object_entry, obj_objtype. simpl.
  by intros ->.
Qed.

(** What [get_objects] yields when every registered type is known. *)
Lemma get_objects_found (data : gmap string (gmap string obj)) :
  (∀ sd names name o, data !! sd = Some names → names !! name = Some o →
     is_Some (object_types !! obj_objtype o)) →
  ∃ found,
    get_objects data = Ok (found ++ (index_entry_of <$> indices)) ∧
    ∀ e, e ∈ found ↔
      ∃ sd names name o t,
        data !! sd = Some names ∧ names !! name = Some o ∧
        object_types !! obj_objtype o = Some t ∧
        e = (name, name, obj_objtype o, obj_docname o, obj_targetid o,
             searchprio t).
Proof.
  intros Htypes. unfold get_objects.
  destruct (map_res_ok
              (λ '(_, objects), map_res object_entry (map_to_list objects))
              (map_to_list data)) as (found & Hrun & Hall).
  { intros [sd names] Hin%elem_of_map_to_list.
    destruct (map_res_ok object_entry (map_to_list names)) as (ys & Hys & _).
    - intros [name o] Hname%elem_of_map_to_list.
      destruct (Htypes sd names name o Hin Hname) as [t Ht].
      eexists. by apply object_entry_ok.
    - by exists ys. }
  exists (mjoin found). rewrite Hrun. split; [done|].
  intros e. rewrite list_elem_of_join. split.
  - intros (l & He & Hl).
    apply list_elem_of_lookup in Hl as [i Hi].
    destruct (Forall2_lookup_r _ _ _ _ _ Hall Hi) as ([sd names] & Hsd & Hl).
    apply list_elem_of_lookup_2, elem_of_map_to_list in Hsd.
    destruct (map_res_ok object_entry (map_to_list names)) as (ys & Hys & Hall').
    { intros [name o] Hname%elem_of_map_to_list.
      destruct (Htypes sd names name o Hsd Hname) as [t Ht].
      eexists. by apply object_entry_ok. }
    rewrite Hys in Hl. injection Hl as <-.
    apply list_elem_of_lookup in He as [j Hj].
    destruct (Forall2_lookup_r _ _ _ _ _ Hall' Hj) as ([name o] & Hname & He).
    apply list_elem_of_lookup_2, elem_of_map_to_list in Hname.
    destruct (Htypes sd names name o Hsd Hname) as [t Ht].
    rewrite (object_entry_ok name o t Ht) in He. injection He as <-.
    by exists sd, names, name, o, t.
  - intros (sd & names & name & o & t & Hsd & Hname & Ht & ->).
    apply elem_of_map_to_list, list_elem_of_lookup in Hsd as [i Hi].
    destruct (Forall2_lookup_l _ _ _ _ _ Hall Hi) as (l & Hl & Hrunl).
    exists l. split; [|by eapply list_elem_of_lookup_2].
    destruct (map_res_ok object_entry (map_to_list names)) as (ys & Hys & Hall').
    { intros [name' o'] Hname'%elem_of_map_to_list.
      destruct (Htypes sd names name' o') as [t' Ht']; [|done|].
      - by eapply elem_of_map_to_list, list_elem_of_lookup_2.
      - eexists. by apply object_entry_ok. }
    rewrite Hys in Hrunl. injection Hrunl as <-.
    apply elem_of_map_to_list, list_elem_of_lookup in Hname as [j Hj].
    destruct (Forall2_lookup_l _ _ _ _ _ Hall' Hj) as (e & He & Hrune).
    rewrite (object_entry_ok name o t Ht) in Hrune. injection Hrune as <-.
    by eapply list_elem_of_lookup_2.
Qed.

(** X16: When every registered object has a type of [object_types],
    [get_objects] yields, for each registered name, one entry whose display
    name is the name itself, with the object's type, document, target and
    the search priority of its type, and then one entry of priority -1 for
    each index, in document [coq-<index name>] with an empty anchor. *)
Theorem get_objects_entries (data : gmap string (gmap string obj)) :
  (∀ sd names name o, data !! sd = Some names → names !! name = Some o →
     is_Some (object_types !! obj_objtype o)) →
  ∃ found,
    get_objects data =
      Ok (found ++
          [("cmdindex", "Command Index", "index", "coq-cmdindex", "", (-1)%Z);
           ("tacindex", "Tactic Index", "index", "coq-tacindex", "", (-1)%Z);
           ("optindex", "Flags, options and Tables Index", "index",
            "coq-optindex", "", (-1)%Z);
           ("thmindex", "Gallina Index", "index", "coq-thmindex", "", (-1)%Z);
           ("exnindex", "Errors and Warnings Index", "index", "coq-exnindex",
            "", (-1)%Z)]) ∧
    ∀ e, e ∈ found ↔
      ∃ sd names name o t,
        data !! sd = Some names ∧ names !! name = Some o ∧
        object_types !! obj_objtype o = Some t ∧
        e = (name, name, obj_objtype o, obj_docname o, obj_targetid o,
             searchprio t).
Proof.
  intros Htypes.
  destruct (get_objects_found data Htypes) as (found & Hget & Hfound).
  exists found. split; [exact Hget|exact Hfound].
Qed.

(** X17: One registered object whose type is not a key of [object_types] (a
    batch merged from elsewhere can bring one) makes [get_objects] raise
    [KeyError] for such a type. *)
Theorem get_objects_unknown_type (data : gmap string (gmap string obj)) :
  (∃ sd names name o, data !! sd = Some names ∧ names !! name = Some o ∧
                      object_types !! obj_objtype o = None) →
  ∃ sd names name o,
    get_objects data = Raise (KeyError (obj_objtype o)) ∧
    data !! sd = Some names ∧ names !! name = Some o ∧
    object_types !! obj_objtype o = None.
Proof.
  intros (sd & names & name & o & Hsd & Hname & Ht).
  assert (∀ names', (∃ x, x ∈ map_to_list names' ∧
                          ∃ e, object_entry x = Raise e) →
            ∃ name' o', map_res object_entry (map_to_list names')
                          = Raise (KeyError (obj_objtype o')) ∧
                        names' !! name' = Some o' ∧
                        object_types !! obj_objtype o' = None) as Hinner.
  { intros names' Hex.
    destruct (map_res_raise object_entry _ Hex) as ([n' o'] & e & Hrun & Hin & He).
    exists n', o'. apply elem_of_map_to_list in Hin.
    destruct (object_types !! obj_objtype o') as [t|] eqn:Ht'.
    - by rewrite (object_entry_ok n' o' t Ht') in He.
    - rewrite (object_entry_raise n' o' Ht') in He. injection He as <-.
      done. }
  destruct (map_res_raise
              (λ '(_, objects), map_res object_entry (map_to_list objects))
              (map_to_list data)) as ([sd' names'] & e & Hrun & Hin & He).
  { exists (sd, names). split; [by apply elem_of_map_to_list|].
    destruct (Hinner names) as (n' & o' & Hrun & _).
    - exists (name, o). split; [by apply elem_of_map_to_list|].
      rewrite (object_entry_raise name o Ht). by eexists.
    - by eexists. }
  apply elem_of_map_to_list in Hin.
  destruct (Hinner names') as (n' & o' & Hrun' & Hname' & Ht').
  { destruct (map_res_raise_inv _ _ _ He) as (x & Hx & Hxe).
    exists x. split; [done|]. by exists e. }
  rewrite Hrun' in He. injection He as <-.
  exists sd', names', n', o'. unfold get_objects. by rewrite Hrun.
Qed.

(** X18: Under the role [index], [resolve_xref] never reads the registry and
    never raises: each index [get_objects] lists resolves to the document,
    anchor and title listed there, and any other target is unresolved. *)
Theorem index_role_resolution (data : gmap string (gmap string obj))
    (fromdoc : string) :
  (∀ name dispname type doc anchor prio,
     (name, dispname, type, doc, anchor, prio) ∈ index_entry_of <$> indices →
     resolve_xref data fromdoc type name
       = Ok (Some (RefNode fromdoc doc anchor dispname))) ∧
  (∀ target, target ∉ index_name <$> indices →
     resolve_xref data fromdoc "index" target = Ok None) ∧
  (∀ data' target,
     resolve_xref data' fromdoc "index" target
       = resolve_xref data fromdoc "index" target).
Proof.
  split; [|split].
  - intros name dispname type doc anchor prio Hin.
    unfold indices in Hin. rewrite !fmap_cons, !elem_of_cons, fmap_nil, elem_of_nil in Hin.
    destruct Hin as [Heq|[Heq|[Heq|[Heq|[Heq|[]]]]]];
      injection Heq as -> -> -> -> -> ->; reflexivity.
  - intros target Hnot. unfold resolve_xref. rewrite decide_True by done.
    unfold find_index_by_name.
    destruct (find _ indices) as [index|] eqn:Hfind; [|done].
    apply find_some in Hfind as [Hin Hname%bool_decide_eq_true].
    exfalso. apply Hnot. apply list_elem_of_fmap. exists index.
    split; [done|]. by apply list_elem_of_In.
  - intros data' target. unfold resolve_xref. by rewrite decide_True.
Qed.

Lemma initial_objects_lookup (sd : string) (names : gmap string obj) :
  initial_objects !! sd = Some names → names = ∅.
Proof.
  unfold initial_objects. intros Hsd%elem_of_list_to_map_2.
  apply list_elem_of_fmap in Hsd as (sd' & [= _ ->] & _). done.
Qed.

Lemma declare_in_initial_state (host : Host) (cls : CoqObjectClass)
    (objtype name doc fromdoc sd : string) (t : ObjType) :
  subdomain cls = Some sd → sd ≠ "index" → initial_objects !! sd = Some ∅ →
  object_types !! objtype = Some t →
  Py.truthy name = true →
  ∃ st' found,
    add_target_and_index (CoqObject host cls objtype) (Some name)
        (initial_state doc)
      = (Ok (Some (make_target objtype (make_id host name))), st') ∧
    resolve_xref (objects st') fromdoc sd name
      = Ok (Some (RefNode fromdoc doc
                    (make_target objtype (make_id host name)) name)) ∧
    get_objects (objects st') = Ok (found ++ (index_entry_of <$> indices)) ∧
    ∀ e, e ∈ found ↔
      e = (name, name, objtype, doc, make_target objtype (make_id host name),
           searchprio t).
Proof.
  intros Hsd Hidx Hinit Ht Htrue.
  pose proof (declare_fresh_run host cls objtype name sd ∅ (initial_state doc)
                Hsd Hinit Htrue (not_elem_of_empty _)) as Hrun.
  match type of Hrun with _ = (_, ?s) => set (st' := s) in * end.
  assert (objects st' =
            <[sd := <[name := (doc, objtype,
                               make_target objtype (make_id host name))]> ∅]>
              initial_objects) as Hobjs by reflexivity.
  assert (resolve_xref (objects st') fromdoc sd name
            = Ok (Some (RefNode fromdoc doc
                          (make_target objtype (make_id host name)) name)))
    as Hres.
  { unfold resolve_xref. rewrite decide_False by done.
    by rewrite Hobjs, !lookup_insert_eq. }
  assert (∀ sd' names name' o,
            objects st' !! sd' = Some names → names !! name' = Some o →
            name' = name ∧
            o = (doc, objtype, make_target objtype (make_id host name)))
    as Hone.
  { intros sd' names name' o. rewrite Hobjs.
    destruct (decide (sd' = sd)) as [->|Hne].
    - rewrite lookup_insert_eq. intros [= <-].
      intros [[-> <-]|[_ Habs]]%lookup_insert_Some; [done|].
      by rewrite lookup_empty in Habs.
    - rewrite lookup_insert_ne by done.
      intros ->%initial_objects_lookup. by rewrite lookup_empty. }
  destruct (get_objects_found (objects st')) as (found & Hget & Hfound).
  { intros sd' names name' o Hsd' Hname'.
    destruct (Hone sd' names name' o Hsd' Hname') as [-> ->].
    unfold obj_objtype. simpl. by rewrite Ht. }
  exists st', found. split; [done|]. split; [done|]. split; [done|].
  intros e. rewrite Hfound. split.
  - intros (sd' & names & name' & o & t' & Hsd' & Hname' & Ht' & ->).
    destruct (Hone sd' names name' o Hsd' Hname') as [-> ->].
    unfold obj_objtype, obj_docname, obj_targetid in *. simpl in *.
    congruence.
  - intros ->. eexists sd, _, name, _, t. rewrite Hobjs, lookup_insert_eq.
    split; [done|]. split; [apply lookup_insert_eq|]. done.
Qed.

Lemma directives_tables (host : Host) (objtype : string)
    (cls : CoqObjectClass) :
  directives host objtype = Some cls →
  ∃ sd t, subdomain cls = Some sd ∧ sd ≠ "index" ∧
          initial_objects !! sd = Some ∅ ∧
          object_types !! objtype = Some t ∧ searchprio t = 1%Z.
Proof.
  unfold directives. intros Hdir.
  repeat case_decide; simplify_eq;
    (eexists _, _; split; [reflexivity|]; split; [discriminate|];
     split; [vm_compute; reflexivity|];
     split; [vm_compute; reflexivity|reflexivity]).
Qed.

(** X19: The tables of the domain agree: for every directive, declaring a named
    object in a fresh domain succeeds (its subdomain is one of the initial
    registry), a reference under the role of that subdomain resolves to the
    declaration, and the inventory lists it, with search priority 1, before
    the indices (its type is one of [object_types]). *)
Theorem directive_declares_resolves_lists (host : Host)
    (objtype name doc fromdoc : string) (cls : CoqObjectClass) :
  directives host objtype = Some cls →
  Py.truthy name = true →
  ∃ sd st' found,
    subdomain cls = Some sd ∧
    add_target_and_index (CoqObject host cls objtype) (Some name)
        (initial_state doc)
      = (Ok (Some (make_target objtype (make_id host name))), st') ∧
    resolve_xref (objects st') fromdoc sd name
      = Ok (Some (RefNode fromdoc doc
                    (make_target objtype (make_id host name)) name)) ∧
    get_objects (objects st') = Ok (found ++ (index_entry_of <$> indices)) ∧
    ∀ e, e ∈ found ↔
      e = (name, name, objtype, doc, make_target objtype (make_id host name),
           1%Z).
Proof.
  intros Hdir Htrue.
  destruct (directives_tables host objtype cls Hdir)
    as (sd & t & Hsd & Hidx & Hinit & Ht & Hprio).
  destruct (declare_in_initial_state host cls objtype name doc fromdoc sd t
              Hsd Hidx Hinit Ht Htrue) as (st' & found & ? & ? & ? & Hfound).
  exists sd, st', found. rewrite <- Hprio. done.
Qed.

(** ** An invariant of the registry *)

Lemma truthy_nonempty (name : string) :
  Py.truthy name = true → name ≠ EmptyString.
Proof. by destruct name. Qed.

Lemma names_nonempty_insert (data : gmap string (gmap string obj))
    (sd name : string) (o : obj) (names : gmap string obj) :
  names_nonempty data → data !! sd = Some names → name ≠ EmptyString →
  names_nonempty (<[sd := <[name := o]> names]> data).
Proof.
  intros Hinv Hsd Hname sd' names'.
  destruct (decide (sd' = sd)) as [->|Hne].
  - rewrite lookup_insert_eq. intros [= <-].
    rewrite lookup_insert_ne by done. by apply (Hinv sd).
  - rewrite lookup_insert_ne by done. apply Hinv.
Qed.

(** X20: No empty name enters the registry: declarations (which skip an empty
    name), clearing a document, and merging a batch that holds no empty
    name all keep the registry free of empty names, whether they succeed
    or not; so no index generated from a registry built by these steps
    fails on the first character of a name. *)
Theorem registry_keeps_names_nonempty (st : state) :
  names_nonempty (objects st) →
  (∀ host cls objtype name r st',
     add_target_and_index (CoqObject host cls objtype) name st = (r, st') →
     names_nonempty (objects st')) ∧
  (∀ host name r st',
     add_target_and_index (ProductionObject host) name st = (r, st') →
     names_nonempty (objects st')) ∧
  (∀ doc r st', clear_doc doc st = (r, st') → names_nonempty (objects st')) ∧
  (∀ docnames otherdata st',
     names_nonempty otherdata →
     merge_domaindata docnames otherdata st = (Ok tt, st') →
     names_nonempty (objects st')) ∧
  (∀ self docnames, generate self (objects st) docnames ≠ Raise IndexError).
Proof.
  intros Hinv. split; [|split; [|split; [|split]]].
  - intros host cls objtype [name|] r st' Hrun; [|by injection Hrun as _ <-].
    destruct (Py.truthy name) eqn:Htrue.
    2:{ unfold add_target_and_index in Hrun.
        cbn [name_truthy CoqObject] in Hrun. rewrite Htrue in Hrun.
        by injection Hrun as _ <-. }
    destruct (decide (make_target objtype (make_id host name) ∈ document_ids st))
      as [Hin|Hfresh].
    { rewrite declare_existing_run in Hrun by done. by injection Hrun as _ <-. }
    destruct (subdomain cls) as [sd|] eqn:Hsd.
    + destruct (objects st !! sd) as [names|] eqn:Hnames.
      * rewrite (declare_fresh_run host cls objtype name sd names) in Hrun
          by done.
        injection Hrun as _ <-. simpl.
        apply names_nonempty_insert; [done|done|by apply truthy_nonempty].
      * rewrite declare_failed_run in Hrun by (by rewrite ?Hsd).
        by injection Hrun as _ <-.
    + rewrite declare_failed_run in Hrun by (by rewrite ?Hsd).
      by injection Hrun as _ <-.
  - intros host name r st' Hrun.
    destruct (production_objects_unchanged host name st)
      as (t & st'' & Hrun' & Hobjs & _).
    rewrite Hrun' in Hrun. injection Hrun as _ <-. by rewrite Hobjs.
  - intros doc r st' Hrun. rewrite clear_doc_run in Hrun.
    injection Hrun as _ <-. simpl. intros sd names.
    rewrite lookup_fmap. destruct (objects st !! sd) as [names0|] eqn:Hsd; [|done].
    intros [= <-]. unfold cleared. apply map_lookup_filter_None. left.
    by apply (Hinv sd).
  - intros docnames otherdata st' Hother Hrun.
    destruct (merge_domaindata_run docnames otherdata st) as (objs' & Hrun' & Hobjs).
    { by eapply merge_domaindata_ok_dom. }
    rewrite Hrun' in Hrun. injection Hrun as <-. simpl. intros sd names.
    rewrite Hobjs. destruct (objects st !! sd) as [names0|] eqn:Hsd; [|done].
    intros [= <-]. rewrite lookup_merged_part_union.
    destruct (otherdata !! sd) as [their|] eqn:Hsd'; simpl.
    + rewrite (Hother sd their Hsd'). by apply (Hinv sd).
    + rewrite lookup_empty. by apply (Hinv sd).
  - intros self docnames Hgen.
    destruct (chain_items (objects st) (index_subdomains self)) as [items|e]
      eqn:Hchain.
    + destruct (generate_nonempty_ok self (objects st) docnames) as [c Hc].
      * by eapply chain_items_ok_dom.
      * intros sd names o _ Hsd Hname. by rewrite (Hinv sd names Hsd) in Hname.
      * congruence.
    + unfold generate in Hgen. rewrite Hchain in Hgen.
      apply chain_items_raise in Hchain as [sd ->]. done.
Qed.

(** ** Interactive blocks *)

Lemma display_options_singleton (O : gset string) :
  elements (O ∖ ({["all"; "none"; "in"; "out"]} : gset string)) = [] →
  size O = 1 →
  ∃ d, d ∈ ["all"; "none"; "in"; "out"] ∧ O = {[d]}.
Proof.
  intros Hnone Hsize.
  apply elements_empty_inv in Hnone.
  apply size_1_elem_of in Hsize as [d Hd]. apply leibniz_equiv in Hd.
  exists d. split; [|done].
  assert (d ∈ O) as Hin by (rewrite Hd; by apply elem_of_singleton).
  assert (d ∈ ({["all"; "none"; "in"; "out"]} : gset string)) as HD.
  { destruct (decide (d ∈ ({["all"; "none"; "in"; "out"]} : gset string)))
      as [?|Hno]; [done|].
    exfalso. assert (d ∈ O ∖ ({["all"; "none"; "in"; "out"]} : gset string))
      as Habs by (by apply elem_of_difference).
    rewrite Hnone in Habs. by apply elem_of_empty in Habs. }
  rewrite !elem_of_union, !elem_of_singleton in HD.
  rewrite !elem_of_cons, elem_of_nil. tauto.
Qed.

Lemma prepare_alectryon_node_display (options : gset string) (d : string) :
  options ∖ ({["reset"; "fail"; "warn"; "restart"; "abort"]} : gset string)
    = {[d]} →
  d ∈ ["all"; "none"; "in"; "out"] →
  prepare_alectryon_node options =
    inr (Pending
           ((if decide (d = "none") then ["none"]
             else if decide (d = "in") then ["all"; "fold"]
             else if decide (d = "all") then ["all"; "unfold"]
             else ["out"; "unfold"]) ++
            (if bool_decide ("fail" ∈ options) then ["fails"] else []))
           ((if bool_decide ("restart" ∈ options) then ["Restart."] else []) ++
            (if bool_decide ("reset" ∈ options)
             then "Reset Initial." :: INITIAL_OPTIONS else []) ++
            (if bool_decide ("warn" ∈ options) || bool_decide ("fail" ∈ options)
             then [SET_WARNINGS_DEFAULT] else []))
           ((if bool_decide ("abort" ∈ options) then ["Abort All."] else []) ++
            (if bool_decide ("warn" ∈ options) || bool_decide ("fail" ∈ options)
             then [SET_WARNINGS_PLUS_DEFAULT] else []))).
Proof.
  intros HO Hd. unfold prepare_alectryon_node. rewrite HO.
  generalize (bool_decide ("reset" ∈ options)),
    (bool_decide ("fail" ∈ options)), (bool_decide ("warn" ∈ options)),
    (bool_decide ("restart" ∈ options)), (bool_decide ("abort" ∈ options)).
  intros b1 b2 b3 b4 b5.
  rewrite !elem_of_cons, elem_of_nil in Hd.
  destruct Hd as [->|[->|[->|[->|[]]]]]; reflexivity.
Qed.

Lemma prepare_alectryon_node_inr (options : gset string)
    (p : alectryon_pending) :
  prepare_alectryon_node options = inr p →
  ∃ d, d ∈ ["all"; "none"; "in"; "out"] ∧
       options ∖ ({["reset"; "fail"; "warn"; "restart"; "abort"]} : gset string)
         = {[d]}.
Proof.
  unfold prepare_alectryon_node. intros Hok.
  case_bool_decide as Hunexpected; [done|].
  case_bool_decide as Hsize; [done|].
  apply display_options_singleton.
  - destruct (elements _); [done|]. by destruct Hunexpected.
  - destruct (decide (size (options ∖ ({["reset"; "fail"; "warn"; "restart";
                                          "abort"]} : gset string)) = 1));
      [done|by destruct Hsize].
Qed.

(** X21: A block that is accepted has exactly one display option, and that
    option alone decides how the block is shown: [in] shows the sentences
    with the answers folded, [all] shows both, [out] the answers only,
    [none] nothing; [fails] is added for a block meant to fail. *)
Theorem coqtop_display_option (options : gset string) (p : alectryon_pending) :
  prepare_alectryon_node options = inr p →
  ∃ d, options ∖ ({["reset"; "fail"; "warn"; "restart"; "abort"]} : gset string)
         = {[d]} ∧
       d ∈ ["all"; "none"; "in"; "out"] ∧
       pending_options p =
         (if decide (d = "none") then ["none"]
          else if decide (d = "in") then ["all"; "fold"]
          else if decide (d = "all") then ["all"; "unfold"]
          else ["out"; "unfold"]) ++
         (if bool_decide ("fail" ∈ options) then ["fails"] else []).
Proof.
  intros Hok.
  destruct (prepare_alectryon_node_inr options p Hok) as (d & Hd & HO).
  exists d. split; [done|]. split; [done|].
  rewrite (prepare_alectryon_node_display options d HO Hd) in Hok.
  by injection Hok as <-.
Qed.

(** X22: Which of the three outcomes a set of options has: an option that is no
    known option is reported, with all the others of its kind, before
    anything else; otherwise the display options are counted, and any
    number but one is an error. *)
Theorem coqtop_options_outcome (options : gset string) :
  let display :=
    options ∖ ({["reset"; "fail"; "warn"; "restart"; "abort"]} : gset string) in
  let unknown := display ∖ ({["all"; "none"; "in"; "out"]} : gset string) in
  (unknown ≠ ∅ →
     ∃ l, prepare_alectryon_node options = inl (UnexpectedOptions l) ∧
          l ≠ [] ∧ ∀ x, x ∈ l ↔ x ∈ unknown) ∧
  (unknown = ∅ → size display ≠ 1 →
     prepare_alectryon_node options = inl NoSingleDisplayOption) ∧
  (unknown = ∅ → size display = 1 →
     ∃ p, prepare_alectryon_node options = inr p).
Proof.
  intros display unknown. unfold prepare_alectryon_node.
  fold display. fold unknown. split; [|split].
  - intros Hne. exists (elements unknown).
    assert (elements unknown ≠ []) as Hl.
    { intros Hnil. apply Hne. apply leibniz_equiv.
      by apply elements_empty_inv. }
    rewrite bool_decide_true by done. split; [done|]. split; [done|].
    intros x. apply elem_of_elements.
  - intros -> Hsize. rewrite elements_empty.
    rewrite bool_decide_false by (by intros ?).
    by rewrite bool_decide_true.
  - intros -> Hsize. rewrite elements_empty.
    rewrite bool_decide_false by (by intros ?).
    rewrite bool_decide_false by (by intros ?). by eexists.
Qed.

(** X23: In an accepted block, warnings are relaxed at the end of the prelude
    exactly when they are restored at the end of the coda, which is when
    the block is marked [warn] or [fail]; and the block is displayed as
    failing exactly when it is marked [fail]. *)
Theorem coqtop_warnings_restored (options : gset string)
    (p : alectryon_pending) :
  prepare_alectryon_node options = inr p →
  (last (pending_prelude p) = Some SET_WARNINGS_DEFAULT ↔
     "warn" ∈ options ∨ "fail" ∈ options) ∧
  (last (pending_coda p) = Some SET_WARNINGS_PLUS_DEFAULT ↔
     "warn" ∈ options ∨ "fail" ∈ options) ∧
  ("fails" ∈ pending_options p ↔ "fail" ∈ options).
Proof.
  intros Hok.
  destruct (prepare_alectryon_node_inr options p Hok) as (d & Hd & HO).
  rewrite (prepare_alectryon_node_display options d HO Hd) in Hok.
  injection Hok as <-. cbn [pending_prelude pending_coda pending_options].
  rewrite !elem_of_cons, elem_of_nil in Hd.
  destruct (bool_decide_reflect ("warn" ∈ options)) as [Hw|Hw];
    destruct (bool_decide_reflect ("fail" ∈ options)) as [Hf|Hf];
    destruct (bool_decide ("restart" ∈ options));
    destruct (bool_decide ("reset" ∈ options));
    destruct (bool_decide ("abort" ∈ options));
    (split; [|split]);
    try (split; [intros _; tauto | intros _; reflexivity]);
    try (split; [intros Habs; vm_compute in Habs; discriminate
                | intros [?|?]; done]).
  all: destruct Hd as [->|[->|[->|[->|[]]]]]; simpl;
    rewrite ?elem_of_cons, ?elem_of_nil; split; try tauto;
    try (intros _; tauto); intros Habs; exfalso;
    repeat destruct Habs as [Habs|Habs]; done.
Qed.

(** ** Notations that do not parse *)

(** X24: For a class that renders its signatures as notations, a signature the
    notation parser rejects makes [handle_signature] raise the parse error,
    whatever names were given; an explicit name spares the signature the
    second parser, the one that makes names; without one, a failure of that
    parser is raised in the same way. *)
Theorem notation_parse_errors (host : Host) (cls : CoqObjectClass)
    (names : gmap string string) (signature : string) :
  render_signature cls = notation_render host →
  (∀ msg, sphinxify host signature = ParseError msg →
     handle_signature cls names signature
       = Raise (ExtensionError (PARSE_ERROR signature msg))) ∧
  (∀ name, sphinxify host signature = Parsed tt →
     names !! signature = Some name →
     handle_signature cls names signature = Ok (Some name)) ∧
  (∀ msg, name_from_signature cls = notation_name host →
     sphinxify host signature = Parsed tt → names !! signature = None →
     stringify_with_ellipses host signature = ParseError msg →
     handle_signature cls names signature
       = Raise (ExtensionError (PARSE_ERROR signature msg))).
Proof.
  intros Hrender. unfold handle_signature. rewrite Hrender.
  unfold notation_render, notation_to_sphinx. split; [|split].
  - by intros msg ->.
  - by intros name -> ->.
  - intros msg -> -> -> Hfail. simpl.
    unfold notation_name, notation_to_string. by rewrite Hfail.
Qed.

(** ** Declarations, continued *)

Lemma object_id_not_token_id (objtype slug : string) (key : string * string) :
  make_target objtype slug ≠ ProductionObject_target_id key.
Proof.
  unfold make_target, ProductionObject_target_id.
  rewrite !app_String. discriminate.
Qed.

(** X25: The target ids of objects and of grammar tokens never meet, so
    declaring a production never makes a later object declaration find its
    id taken (and be skipped): an object's id is among the document's ids
    after the production exactly when it was before. *)
Theorem production_never_blocks_object (host : Host) (key : string * string)
    (objtype name : string) (st : state) :
  ∃ target st1,
    add_target_and_index (ProductionObject host) (Some key) st
      = (Ok target, st1) ∧
    (make_target objtype (make_id host name) ∈ document_ids st1 ↔
     make_target objtype (make_id host name) ∈ document_ids st).
Proof.
  unfold add_target_and_index. cbn [name_truthy ProductionObject].
  unfold bind at 1, add_target. cbn [target_id ProductionObject].
  unfold bind at 1, gets at 1.
  destruct (decide (ProductionObject_target_id key ∈ document_ids st)).
  - eexists _, _. split; [reflexivity|]. done.
  - unfold bind at 1. unfold bind at 1.
    unfold note_explicit_target, modify at 1.
    cbn [record_name ProductionObject].
    rewrite production_record_name_run.
    eexists _, _. split; [reflexivity|]. simpl.
    rewrite elem_of_union, elem_of_singleton. split; [|by right].
    intros [Heq|?]; [|done]. by apply object_id_not_token_id in Heq.
Qed.

(** X26: Declaring a new name in a document and then clearing that document
    brings the registry back, when the registry held nothing of the
    document and the name was free; no warning is emitted on the way. *)
Theorem declare_then_clear_round_trip (host : Host) (cls : CoqObjectClass)
    (objtype name sd : string) (names : gmap string obj) (st : state) :
  subdomain cls = Some sd → objects st !! sd = Some names →
  Py.truthy name = true →
  make_target objtype (make_id host name) ∉ document_ids st →
  names !! name = None →
  (∀ sd' names' n o, objects st !! sd' = Some names' → names' !! n = Some o →
     obj_docname o ≠ docname st) →
  ∃ st1 st2,
    add_target_and_index (CoqObject host cls objtype) (Some name) st
      = (Ok (Some (make_target objtype (make_id host name))), st1) ∧
    objects st1 !! sd ≠ objects st !! sd ∧
    clear_doc (docname st) st1 = (Ok tt, st2) ∧
    objects st2 = objects st ∧ warnings st2 = warnings st.
Proof.
  intros Hsd Hnames Htrue Hfresh Hfree Hother.
  eexists _, _. split.
  { by apply (declare_fresh_run host cls objtype name sd names). }
  split.
  { simpl. rewrite lookup_insert_eq, Hnames. intros [= Heq].
    assert (<[name := (docname st, objtype,
                       make_target objtype (make_id host name))]> names
              !! name = names !! name) as Habs by (by rewrite Heq).
    by rewrite lookup_insert_eq, Hfree in Habs. }
  split; [apply clear_doc_run|]. simpl. rewrite Hfree, app_nil_r.
  split; [|done].
  apply map_eq. intros sd'. rewrite lookup_fmap.
  assert (∀ names', objects st !! sd' = Some names' →
            cleared (docname st) names' = names') as Hid.
  { intros names' Hsd'. unfold cleared. apply map_filter_id.
    intros n o Ho. by apply (Hother sd' names' n o). }
  destruct (decide (sd' = sd)) as [->|Hne].
  - rewrite lookup_insert_eq, Hnames. simpl. f_equal.
    unfold cleared. rewrite map_filter_insert_False by (simpl; intros H; by apply H).
    rewrite delete_id by done. by apply Hid.
  - rewrite lookup_insert_ne by done.
    destruct (objects st !! sd') as [names'|] eqn:Hsd'; [|done].
    simpl. f_equal. by apply Hid.
Qed.

(** ** Merging, continued *)

(** X27: A merge that selects nothing changes nothing: when no entry of the
    batch belongs to a document of [docnames] (as when [docnames] is
    empty), [merge_domaindata] leaves the state as it is, provided the
    subdomains of the batch exist. *)
Theorem merge_domaindata_selects_nothing (docnames : list string)
    (otherdata : gmap string (gmap string obj)) (st : state) :
  (∀ sd their, otherdata !! sd = Some their → is_Some (objects st !! sd)) →
  (∀ sd their name o, otherdata !! sd = Some their → their !! name = Some o →
     obj_docname o ∉ docnames) →
  merge_domaindata docnames otherdata st = (Ok tt, st).
Proof.
  intros Hdom Hnone.
  destruct (merge_domaindata_run docnames otherdata st Hdom)
    as (objs' & Hrun & Hobjs).
  rewrite Hrun. f_equal. apply state_eq; simpl; try done.
  - apply map_eq. intros sd. rewrite Hobjs.
    destruct (objects st !! sd) as [names|] eqn:Hsd; [|done]. simpl. f_equal.
    apply map_eq. intros name. rewrite lookup_merged_part_union.
    destruct (otherdata !! sd) as [their|] eqn:Hsd'; simpl; [|done].
    destruct (their !! name) as [o|] eqn:Hname; [|done].
    by rewrite bool_decide_false by (by eapply Hnone).
  - destruct (merge_warnings docnames (objects st) (map_to_list otherdata))
      as [|w ws] eqn:Hws; [by rewrite app_nil_r|].
    exfalso.
    assert (w ∈ merge_warnings docnames (objects st) (map_to_list otherdata))
      as Hw by (rewrite Hws; left).
    apply elem_of_merge_warnings in Hw
      as (sd & their & names & name & o & other & Hsd & Hname & Hd & _).
    by apply (Hnone sd their name o).
Qed.

(** * The further properties at concrete inputs *)

Lemma example_tactics_entries (sd name : string) (names : gmap string obj)
    (o : obj) :
  example_tactics !! sd = Some names → names !! name = Some o →
  o = ("doc1", "tacn", "coq:tacn.simpl").
Proof.
  unfold example_tactics. intros Hsd Hname.
  apply lookup_insert_Some in Hsd as [[_ <-]|[_ Hsd]].
  - by apply lookup_singleton_Some in Hname as [_ <-].
  - apply initial_objects_lookup in Hsd as ->.
    by rewrite lookup_empty in Hname.
Qed.

Lemma example_batch_dom (sd : string) (their : gmap string obj) :
  example_batch !! sd = Some their → is_Some (objects example_state !! sd).
Proof.
  unfold example_batch. intros Hsd.
  apply lookup_singleton_Some in Hsd as [<- _]. eexists.
  vm_compute; reflexivity.
Qed.

Lemma vernac_name_letters_only_witness :
  vernac_name "Set Foo." = Ok (Some "Set Foo") ∧
  Py.contains "." "Set Foo" = false ∧
  handle_signature (VernacObject example_host) ∅ "Set Foo."
    = Ok (Some "Set Foo").
Proof.
  split; [vm_compute; reflexivity|].
  destruct (vernac_name_letters_only "Set Foo." "Set Foo")
    as (_ & Hdot & Hsig); [vm_compute; reflexivity|].
  split; [exact Hdot|]. apply Hsig. reflexivity.
Defined.

Lemma explicit_names_by_position_witness :
  NoDup ["Foo"; "Bar"] ∧
  S (count_char ";" "a; b") = length ["Foo"; "Bar"] ∧
  ∃ names,
    prepare_names ["Foo"; "Bar"] (Some "a; b") = Ok names ∧
    handle_signature GallinaObject names "Bar" = Ok (Some "b").
Proof.
  assert (NoDup ["Foo"; "Bar"]) as Hnd.
  { apply (bool_decide_unpack _). vm_compute. exact I. }
  split; [exact Hnd|]. split; [vm_compute; reflexivity|].
  destruct (explicit_names_by_position GallinaObject ["Foo"; "Bar"] "a; b" Hnd)
    as (names & Hrun & Hpos); [vm_compute; reflexivity|].
  exists names. split; [exact Hrun|].
  apply (Hpos 1 "Bar" " b"); [reflexivity|vm_compute; reflexivity|reflexivity].
Defined.

Lemma declare_then_resolve_witness :
  subdomain (TacticNotationObject example_host) = Some "tacn" ∧
  "tacn" ≠ "index" ∧
  objects (initial_state "doc1") !! "tacn" = Some ∅ ∧
  Py.truthy "simpl" = true ∧
  ("coq:tacn.simpl" ∉ document_ids (initial_state "doc1")) ∧
  ∃ st',
    add_target_and_index
      (CoqObject example_host (TacticNotationObject example_host) "tacn")
      (Some "simpl") (initial_state "doc1")
      = (Ok (Some "coq:tacn.simpl"), st') ∧
    resolve_xref (objects st') "doc3" "tacn" "simpl"
      = Ok (Some (RefNode "doc3" "doc1" "coq:tacn.simpl" "simpl")) ∧
    index_entries st' = [("single", "simpl (tacn)", "coq:tacn.simpl", "", None)].
Proof.
  split; [reflexivity|]. split; [discriminate|].
  split; [vm_compute; reflexivity|]. split; [reflexivity|].
  assert ("coq:tacn.simpl" ∉ document_ids (initial_state "doc1")) as Hfresh
    by apply not_elem_of_empty.
  split; [exact Hfresh|].
  destruct (declare_then_resolve example_host
              (TacticNotationObject example_host) "tacn" "simpl" "tacn" "doc3"
              ∅ (initial_state "doc1"))
    as (st' & Hrun & _ & Hres & _ & Hidx).
  - reflexivity.
  - discriminate.
  - vm_compute; reflexivity.
  - reflexivity.
  - exact Hfresh.
  - exists st'. split; [exact Hrun|]. split; [exact Hres|].
    rewrite Hidx. vm_compute; reflexivity.
Defined.

Lemma redeclare_adds_index_entry_only_witness :
  Py.truthy "simpl" = true ∧
  ("coq:tacn.simpl" ∈
     document_ids (State initial_objects ∅ "doc1" {["coq:tacn.simpl"]} [] [])) ∧
  ∃ st',
    add_target_and_index
      (CoqObject example_host (TacticNotationObject example_host) "tacn")
      (Some "simpl") (State initial_objects ∅ "doc1" {["coq:tacn.simpl"]} [] [])
      = (Ok (Some "coq:tacn.simpl"), st') ∧
    objects st' = initial_objects ∧
    index_entries st' = [("single", "simpl (tacn)", "coq:tacn.simpl", "", None)].
Proof.
  split; [reflexivity|].
  assert ("coq:tacn.simpl" ∈
            document_ids
              (State initial_objects ∅ "doc1" {["coq:tacn.simpl"]} [] []))
    as Hin by (simpl; apply elem_of_singleton; reflexivity).
  split; [exact Hin|].
  destruct (redeclare_adds_index_entry_only example_host
              (TacticNotationObject example_host) "tacn" "simpl"
              (State initial_objects ∅ "doc1" {["coq:tacn.simpl"]} [] []))
    as (st' & Hrun & Hobjs & _ & _ & Hidx).
  - reflexivity.
  - exact Hin.
  - exists st'. split; [exact Hrun|]. split; [exact Hobjs|].
    rewrite Hidx. vm_compute; reflexivity.
Defined.

Lemma declaration_fails_after_noting_id_witness :
  Py.truthy "foo" = true ∧
  ("coq:thm.foo" ∉ document_ids (State ∅ ∅ "doc1" ∅ [] [])) ∧
  objects (State ∅ ∅ "doc1" ∅ [] []) !! "thm" = None ∧
  add_target_and_index (CoqObject example_host GallinaObject "thm")
    (Some "foo") (State ∅ ∅ "doc1" ∅ [] [])
    = (Raise (KeyError "thm"), State ∅ ∅ "doc1" {["coq:thm.foo"]} [] []).
Proof.
  split; [reflexivity|].
  assert ("coq:thm.foo" ∉ document_ids (State ∅ ∅ "doc1" ∅ [] [])) as Hfresh
    by apply not_elem_of_empty.
  split; [exact Hfresh|]. split; [reflexivity|].
  destruct (declaration_fails_after_noting_id example_host GallinaObject
              "thm" "foo" (State ∅ ∅ "doc1" ∅ [] [])) as [Hrun _].
  - reflexivity.
  - exact Hfresh.
  - reflexivity.
  - rewrite Hrun. vm_compute; reflexivity.
Defined.

Lemma merge_domaindata_missing_subdomain_witness :
  (∃ sd, is_Some (({["bogus" := ∅]} : gmap string (gmap string obj)) !! sd) ∧
         objects example_state !! sd = None) ∧
  ∃ sd st',
    merge_domaindata [] {["bogus" := ∅]} example_state
      = (Raise (KeyError sd), st') ∧
    objects example_state !! sd = None.
Proof.
  assert (∃ sd, is_Some (({["bogus" := ∅]} : gmap string (gmap string obj))
                           !! sd) ∧
                objects example_state !! sd = None) as Hmissing.
  { exists "bogus". split; [eexists|]; vm_compute; reflexivity. }
  split; [exact Hmissing|].
  destruct (merge_domaindata_missing_subdomain [] {["bogus" := ∅]}
              example_state Hmissing) as (sd & st' & Hrun & _ & Hnone).
  exists sd, st'. split; [exact Hrun|exact Hnone].
Defined.

Lemma merge_then_clear_loses_overwritten_witness :
  (∀ sd their, example_batch !! sd = Some their →
               is_Some (objects example_state !! sd)) ∧
  objects example_state !! "tacn"
    = Some {["simpl" := ("doc1", "tacn", "coq:tacn.simpl")]} ∧
  ∃ st1 st2 names',
    merge_domaindata ["doc2"] example_batch example_state = (Ok tt, st1) ∧
    clear_doc "doc2" st1 = (Ok tt, st2) ∧
    objects st2 !! "tacn" = Some names' ∧
    names' !! "simpl" = None.
Proof.
  split; [exact example_batch_dom|].
  assert (objects example_state !! "tacn"
            = Some {["simpl" := ("doc1", "tacn", "coq:tacn.simpl")]}) as Htacn
    by (vm_compute; reflexivity).
  split; [exact Htacn|].
  destruct (merge_then_clear_loses_overwritten "doc2" example_batch
              example_state example_batch_dom)
    as (st1 & st2 & Hmerge & Hclear & Hleft).
  destruct (Hleft "tacn" _ Htacn) as (names' & Hnames' & Hiff).
  exists st1, st2, names'. split; [exact Hmerge|]. split; [exact Hclear|].
  split; [exact Hnames'|].
  destruct (names' !! "simpl") as [o|] eqn:Ho; [|reflexivity].
  apply Hiff in Ho as (_ & _ & Hno). exfalso. apply Hno.
  exists ("doc2", "tacn", "coq:tacn.simpl").
  split; vm_compute; reflexivity.
Defined.

Lemma merge_domaindata_in_two_steps_witness :
  (∀ sd their, example_batch !! sd = Some their →
               is_Some (objects example_state !! sd)) ∧
  ∃ st1 st2 st12,
    merge_domaindata ["doc2"] example_batch example_state = (Ok tt, st1) ∧
    merge_domaindata ["doc3"] example_batch st1 = (Ok tt, st2) ∧
    merge_domaindata ["doc2"; "doc3"] example_batch example_state
      = (Ok tt, st12) ∧
    objects st2 = objects st12.
Proof.
  split; [exact example_batch_dom|].
  exact (merge_domaindata_in_two_steps ["doc2"] ["doc3"] example_batch
           example_state example_batch_dom).
Defined.

Lemma generate_missing_subdomain_witness :
  index_subdomains CoqOptionIndex = ["flag"] ++ "opt" :: ["table"] ∧
  (∀ s, s ∈ ["flag"] →
        is_Some (({["flag" := ∅]} : gmap string (gmap string obj)) !! s)) ∧
  ({["flag" := ∅]} : gmap string (gmap string obj)) !! "opt" = None ∧
  generate CoqOptionIndex {["flag" := ∅]} None = Raise (KeyError "opt").
Proof.
  assert (∀ s, s ∈ ["flag"] →
            is_Some (({["flag" := ∅]} : gmap string (gmap string obj)) !! s))
    as Hpre.
  { intros s Hs. apply list_elem_of_singleton in Hs as ->. eexists.
    vm_compute; reflexivity. }
  split; [reflexivity|]. split; [exact Hpre|].
  split; [vm_compute; reflexivity|].
  apply (generate_missing_subdomain CoqOptionIndex {["flag" := ∅]} None
           ["flag"] ["table"] "opt").
  - reflexivity.
  - exact Hpre.
  - vm_compute; reflexivity.
Defined.

Lemma generate_empty_name_witness :
  (∀ sd, sd ∈ index_subdomains CoqTacticIndex →
         is_Some (({["tacn" := {["" := ("doc1", "tacn", "coq:tacn.")]}]}
                     : gmap string (gmap string obj)) !! sd)) ∧
  generate CoqTacticIndex {["tacn" := {["" := ("doc1", "tacn", "coq:tacn.")]}]}
    None = Raise IndexError.
Proof.
  assert (∀ sd, sd ∈ index_subdomains CoqTacticIndex →
            is_Some (({["tacn" := {["" := ("doc1", "tacn", "coq:tacn.")]}]}
                        : gmap string (gmap string obj)) !! sd)) as Hsubs.
  { intros sd Hsd. simpl in Hsd. apply list_elem_of_singleton in Hsd as ->.
    eexists. vm_compute; reflexivity. }
  split; [exact Hsubs|].
  destruct (generate_empty_name CoqTacticIndex
              {["tacn" := {["" := ("doc1", "tacn", "coq:tacn.")]}]} None Hsubs)
    as [Hraise _].
  apply Hraise.
  exists "tacn", {["" := ("doc1", "tacn", "coq:tacn.")]},
    ("doc1", "tacn", "coq:tacn.").
  split; [simpl; apply list_elem_of_singleton; reflexivity|].
  split; [vm_compute; reflexivity|].
  split; [vm_compute; reflexivity|reflexivity].
Defined.

Lemma generate_rows_permutation_witness :
  generate CoqTacticIndex example_tactics None
    = Ok ([("s", [make_row "simpl" "doc1" "coq:tacn.simpl"])], false) ∧
  ∃ items,
    chain_items example_tactics (index_subdomains CoqTacticIndex) = Ok items ∧
    [make_row "simpl" "doc1" "coq:tacn.simpl"] ≡ₚ kept_rows None items.
Proof.
  assert (generate CoqTacticIndex example_tactics None
            = Ok ([("s", [make_row "simpl" "doc1" "coq:tacn.simpl"])], false))
    as Hgen by (vm_compute; reflexivity).
  split; [exact Hgen|].
  destruct (generate_rows_permutation CoqTacticIndex example_tactics None
              _ _ Hgen) as (items & Hchain & Hperm).
  exists items. split; [exact Hchain|exact Hperm].
Defined.

Lemma get_objects_entries_witness :
  (∀ sd names name o,
     example_tactics !! sd = Some names → names !! name = Some o →
     is_Some (object_types !! obj_objtype o)) ∧
  ∃ found,
    get_objects example_tactics =
      Ok (found ++
          [("cmdindex", "Command Index", "index", "coq-cmdindex", "", (-1)%Z);
           ("tacindex", "Tactic Index", "index", "coq-tacindex", "", (-1)%Z);
           ("optindex", "Flags, options and Tables Index", "index",
            "coq-optindex", "", (-1)%Z);
           ("thmindex", "Gallina Index", "index", "coq-thmindex", "", (-1)%Z);
           ("exnindex", "Errors and Warnings Index", "index", "coq-exnindex",
            "", (-1)%Z)]) ∧
    ("simpl", "simpl", "tacn", "doc1", "coq:tacn.simpl", 1%Z) ∈ found.
Proof.
  assert (∀ sd names name o,
            example_tactics !! sd = Some names → names !! name = Some o →
            is_Some (object_types !! obj_objtype o)) as Htypes.
  { intros sd names name o Hsd Hname.
    rewrite (example_tactics_entries sd name names o Hsd Hname).
    eexists. vm_compute; reflexivity. }
  split; [exact Htypes|].
  destruct (get_objects_entries example_tactics Htypes)
    as (found & Hget & Hfound).
  exists found. split; [exact Hget|]. apply Hfound.
  exists "tacn", {["simpl" := ("doc1", "tacn", "coq:tacn.simpl")]}, "simpl",
    ("doc1", "tacn", "coq:tacn.simpl"),
    {| lname := "tacn"; roles := ["tacn"]; searchprio := 1 |}.
  split; [vm_compute; reflexivity|]. split; [vm_compute; reflexivity|].
  split; [vm_compute; reflexivity|reflexivity].
Defined.

Lemma get_objects_unknown_type_witness :
  (∃ sd names name o,
     ({["tacn" := {["simpl" := ("doc1", "weird", "coq:weird.simpl")]}]}
        : gmap string (gmap string obj)) !! sd = Some names ∧
     names !! name = Some o ∧ object_types !! obj_objtype o = None) ∧
  ∃ sd names name o,
    get_objects {["tacn" := {["simpl" := ("doc1", "weird", "coq:weird.simpl")]}]}
      = Raise (KeyError (obj_objtype o)) ∧
    ({["tacn" := {["simpl" := ("doc1", "weird", "coq:weird.simpl")]}]}
       : gmap string (gmap string obj)) !! sd = Some names ∧
    names !! name = Some o ∧ object_types !! obj_objtype o = None.
Proof.
  assert (∃ sd names name o,
            ({["tacn" := {["simpl" := ("doc1", "weird", "coq:weird.simpl")]}]}
               : gmap string (gmap string obj)) !! sd = Some names ∧
            names !! name = Some o ∧ object_types !! obj_objtype o = None)
    as Hex.
  { exists "tacn", {["simpl" := ("doc1", "weird", "coq:weird.simpl")]},
      "simpl", ("doc1", "weird", "coq:weird.simpl").
    split; [vm_compute; reflexivity|]. split; vm_compute; reflexivity. }
  split; [exact Hex|].
  exact (get_objects_unknown_type _ Hex).
Defined.

Lemma directive_declares_resolves_lists_witness :
  directives example_host "cmdv" = Some (VernacVariantObject example_host) ∧
  Py.truthy "Set Foo" = true ∧
  ∃ st' found,
    add_target_and_index
      (CoqObject example_host (VernacVariantObject example_host) "cmdv")
      (Some "Set Foo") (initial_state "doc1")
      = (Ok (Some "coq:cmdv.set-foo"), st') ∧
    resolve_xref (objects st') "doc3" "cmd" "Set Foo"
      = Ok (Some (RefNode "doc3" "doc1" "coq:cmdv.set-foo" "Set Foo")) ∧
    get_objects (objects st') = Ok (found ++ (index_entry_of <$> indices)) ∧
    ("Set Foo", "Set Foo", "cmdv", "doc1", "coq:cmdv.set-foo", 1%Z) ∈ found.
Proof.
  split; [reflexivity|]. split; [reflexivity|].
  destruct (directive_declares_resolves_lists example_host "cmdv" "Set Foo"
              "doc1" "doc3" (VernacVariantObject example_host))
    as (sd & st' & found & Hsd & Hrun & Hres & Hget & Hfound).
  - reflexivity.
  - reflexivity.
  - injection Hsd as <-. exists st', found.
    split; [exact Hrun|]. split; [exact Hres|]. split; [exact Hget|].
    apply Hfound. reflexivity.
Defined.

Lemma registry_keeps_names_nonempty_witness :
  names_nonempty (objects (initial_state "doc1")) ∧
  (∀ r st',
     add_target_and_index
       (CoqObject example_host (TacticNotationObject example_host) "tacn")
       (Some "simpl") (initial_state "doc1") = (r, st') →
     names_nonempty (objects st')) ∧
  generate CoqTacticIndex (objects (initial_state "doc1")) None
    ≠ Raise IndexError.
Proof.
  assert (names_nonempty (objects (initial_state "doc1"))) as Hinv.
  { intros sd names Hsd. simpl in Hsd.
    apply initial_objects_lookup in Hsd as ->. apply lookup_empty. }
  split; [exact Hinv|].
  destruct (registry_keeps_names_nonempty (initial_state "doc1") Hinv)
    as (Hdeclare & _ & _ & _ & Hgen).
  split.
  - intros r st'. apply Hdeclare.
  - apply Hgen.
Defined.

Lemma coqtop_display_option_witness :
  prepare_alectryon_node {["in"; "reset"]}
    = inr (Pending ["all"; "fold"]
             ["Reset Initial."; SET_WARNINGS_PLUS_DEFAULT] []) ∧
  ∃ d,
    ({["in"; "reset"]} : gset string)
      ∖ {["reset"; "fail"; "warn"; "restart"; "abort"]} = {[d]} ∧
    d ∈ ["all"; "none"; "in"; "out"].
Proof.
  assert (prepare_alectryon_node {["in"; "reset"]}
            = inr (Pending ["all"; "fold"]
                     ["Reset Initial."; SET_WARNINGS_PLUS_DEFAULT] []))
    as Hok by (vm_compute; reflexivity).
  split; [exact Hok|].
  destruct (coqtop_display_option {["in"; "reset"]} _ Hok)
    as (d & Hd & Hin & _).
  exists d. split; [exact Hd|exact Hin].
Defined.

Lemma coqtop_warnings_restored_witness :
  prepare_alectryon_node {["all"; "fail"]}
    = inr (Pending ["all"; "unfold"; "fails"]
             [SET_WARNINGS_DEFAULT] [SET_WARNINGS_PLUS_DEFAULT]) ∧
  ("fails" ∈ ["all"; "unfold"; "fails"] ↔
     "fail" ∈ ({["all"; "fail"]} : gset string)).
Proof.
  assert (prepare_alectryon_node {["all"; "fail"]}
            = inr (Pending ["all"; "unfold"; "fails"]
                     [SET_WARNINGS_DEFAULT] [SET_WARNINGS_PLUS_DEFAULT]))
    as Hok by (vm_compute; reflexivity).
  split; [exact Hok|].
  destruct (coqtop_warnings_restored {["all"; "fail"]} _ Hok)
    as (_ & _ & Hfails).
  exact Hfails.
Defined.

Lemma notation_parse_errors_witness :
  render_signature (OptionObject rejecting_host)
    = notation_render rejecting_host ∧
  sphinxify rejecting_host "Hyps {" = ParseError "unexpected end of notation" ∧
  handle_signature (OptionObject rejecting_host) {["Hyps {" := "Hyps"]}
    "Hyps {"
    = Raise (ExtensionError
               (PARSE_ERROR "Hyps {" "unexpected end of notation")).
Proof.
  split; [reflexivity|]. split; [reflexivity|].
  destruct (notation_parse_errors rejecting_host (OptionObject rejecting_host)
              {["Hyps {" := "Hyps"]} "Hyps {") as [Hraise _].
  - reflexivity.
  - apply Hraise. reflexivity.
Defined.

Lemma declare_then_clear_round_trip_witness :
  subdomain (TacticNotationObject example_host) = Some "tacn" ∧
  objects example_state !! "tacn"
    = Some {["simpl" := ("doc1", "tacn", "coq:tacn.simpl")]} ∧
  Py.truthy "auto" = true ∧
  ("coq:tacn.auto" ∉ document_ids example_state) ∧
  ({["simpl" := ("doc1", "tacn", "coq:tacn.simpl")]} : gmap string obj)
    !! "auto" = None ∧
  (∀ sd' names' n o,
     objects example_state !! sd' = Some names' → names' !! n = Some o →
     obj_docname o ≠ docname example_state) ∧
  ∃ st1 st2,
    add_target_and_index
      (CoqObject example_host (TacticNotationObject example_host) "tacn")
      (Some "auto") example_state = (Ok (Some "coq:tacn.auto"), st1) ∧
    clear_doc "doc2" st1 = (Ok tt, st2) ∧
    objects st2 = objects example_state.
Proof.
  assert (objects example_state !! "tacn"
            = Some {["simpl" := ("doc1", "tacn", "coq:tacn.simpl")]}) as Htacn
    by (vm_compute; reflexivity).
  assert ("coq:tacn.auto" ∉ document_ids example_state) as Hfresh
    by apply not_elem_of_empty.
  assert (∀ sd' names' n o,
            objects example_state !! sd' = Some names' →
            names' !! n = Some o →
            obj_docname o ≠ docname example_state) as Hother.
  { intros sd' names' n o Hsd' Hn. simpl in Hsd'.
    rewrite (example_tactics_entries sd' n names' o Hsd' Hn). discriminate. }
  split; [reflexivity|]. split; [exact Htacn|]. split; [reflexivity|].
  split; [exact Hfresh|]. split; [reflexivity|]. split; [exact Hother|].
  destruct (declare_then_clear_round_trip example_host
              (TacticNotationObject example_host) "tacn" "auto" "tacn"
              {["simpl" := ("doc1", "tacn", "coq:tacn.simpl")]} example_state)
    as (st1 & st2 & Hrun & _ & Hclear & Hobjs & _).
  - reflexivity.
  - exact Htacn.
  - reflexivity.
  - exact Hfresh.
  - reflexivity.
  - exact Hother.
  - exists st1, st2. split; [exact Hrun|]. split; [exact Hclear|exact Hobjs].
Defined.

Lemma merge_domaindata_selects_nothing_witness :
  (∀ sd their, example_batch !! sd = Some their →
               is_Some (objects example_state !! sd)) ∧
  (∀ sd their name o,
     example_batch !! sd = Some their → their !! name = Some o →
     obj_docname o ∉ ([] : list string)) ∧
  merge_domaindata [] example_batch example_state = (Ok tt, example_state).
Proof.
  split; [exact example_batch_dom|].
  assert (∀ sd their name o,
            example_batch !! sd = Some their → their !! name = Some o →
            obj_docname o ∉ ([] : list string)) as Hnone.
  { intros sd their name o _ _. apply not_elem_of_nil. }
  split; [exact Hnone|].
  exact (merge_domaindata_selects_nothing [] example_batch example_state
           example_batch_dom Hnone).
Defined.
